(** * Library inventory manager: a shallow embedding of [Library_app.py]

    The program keeps a list of [Book] objects in memory, loads it from a
    JSON file when the inventory is constructed and rewrites the whole file
    after every mutation.  The embedding follows the Python code:

    - Python objects live in a heap: [Book] objects and [list] objects are
      addressed by location, so that in-place mutation and aliasing are
      visible ([Book.issue] mutates the object every reference sees, and
      [display_all] builds a new list object);
    - exceptions and state are threaded by a small state-and-exception
      monad [M], with [try_except] for the two [try: ... except Exception:]
      blocks of the program;
    - the [json] module is not part of the program: [json.dumps] and
      [json.loads] are parameters of the inventory operations, and a small
      reference codec is provided to run the scenarios;
    - the menu of [main] runs in a world made of the inventory, the lines
      waiting at the terminal and the output written so far; its loop is
      cut after a number of turns given as fuel. *)

From Stdlib Require Import ZArith Ascii String DecimalString.
From stdpp Require Import base option list strings.

Local Open Scope Z_scope.
Local Open Scope nat_scope.

(** ** Python strings

    A [str] is modelled by a [string] whose characters are the code points
    below 256.  On that alphabet [str.lower], [str.strip] and the [in]
    operator are the following functions. *)

Definition code (c : ascii) : N := N_of_ascii c.

(** [str.lower] on one character: the upper-case letters below 256 are
    A..Z (65..90) and the Latin-1 letters 192..214 and 216..222; each maps
    to the code point 32 above it. *)
Definition is_upper (c : ascii) : bool :=
  let n := code c in
  ((65 <=? n) && (n <=? 90) ||
   (192 <=? n) && (n <=? 222) && negb (n =? 215))%N%bool.

Definition lower_char (c : ascii) : ascii :=
  if is_upper c then ascii_of_N (code c + 32) else c.

Fixpoint lower (s : string) : string :=
  match s with
  | EmptyString => EmptyString
  | String c s' => String (lower_char c) (lower s')
  end.

(** [str.isspace] on one character: tab, line feed, vertical tab, form
    feed, carriage return, the separators 28..31, space, NEL (133) and the
    no-break space (160). *)
Definition is_space (c : ascii) : bool :=
  let n := code c in
  ((9 <=? n) && (n <=? 13) || (28 <=? n) && (n <=? 32) ||
   (n =? 133) || (n =? 160))%N%bool.

Fixpoint lstrip (s : string) : string :=
  match s with
  | EmptyString => EmptyString
  | String c s' => if is_space c then lstrip s' else s
  end.

(** [rstrip] drops the trailing white space: a character is kept when it is
    not a space or when something is kept after it. *)
Fixpoint rstrip (s : string) : string :=
  match s with
  | EmptyString => EmptyString
  | String c s' =>
      match rstrip s' with
      | EmptyString => if is_space c then EmptyString else String c EmptyString
      | r => String c r
      end
  end.

Definition strip (s : string) : string := rstrip (lstrip s).

Fixpoint starts_with (q t : string) : bool :=
  match q, t with
  | EmptyString, _ => true
  | String a q', String b t' => if Ascii.eqb a b then starts_with q' t' else false
  | String _ _, EmptyString => false
  end.

(** [q in t] for two strings: [q] occurs in [t] at some position. *)
Fixpoint contains (q t : string) : bool :=
  starts_with q t ||
  match t with
  | EmptyString => false
  | String _ t' => contains q t'
  end.

#[local] Set Warnings "-register-all".

(** ** Python values

    The values a [Book] attribute can hold: the strings the menu passes in,
    and whatever [json.loads] can produce, since [_load] passes the decoded
    values to [Book] unchanged.  A [float] is kept as its [repr]; a
    [dict] is its list of items in insertion order. *)
Inductive value : Type :=
  | VNone
  | VBool (b : bool)
  | VInt (n : Z)
  | VFloat (repr : string)
  | VStr (s : string)
  | VList (items : list value)
  | VDict (items : list (string * value)).

(** [v == s] for a string [s]: among the values above only an equal string
    compares equal to a string. *)
Definition py_eq_str (v : value) (s : string) : bool :=
  match v with
  | VStr t => String.eqb t s
  | _ => false
  end.

(** ** Exceptions *)
Inductive exn : Type :=
  | ValueError (msg : string)
  | TypeError
  | AttributeError
  | JSONDecodeError
  | OSError.

(** The three error kinds of the specification are the three uses of
    [ValueError] in the program, told apart by their messages. *)
Definition DuplicateKeyError : exn := ValueError "A book with this ISBN already exists.".
Definition NotFoundError : exn := ValueError "Book not found.".
Definition AlreadyIssued : exn := ValueError "Book is already issued.".
Definition AlreadyAvailable : exn := ValueError "Book is already available.".
Definition InvalidStateError (e : exn) : Prop := e = AlreadyIssued \/ e = AlreadyAvailable.

(** ** Objects, heap and backing file *)
Abbreviation loc := nat.

Record Book : Type := mkBook {
  title : value;
  author : value;
  isbn : value;
  status : value
}.

(** The file at [storage_path]: absent, present but unreadable (a
    directory, no permission, bytes that are not UTF-8), or a text. *)
Inductive file : Type :=
  | Missing
  | Unreadable
  | Text (s : string).

(** The disk: the backing file, whether writing to it succeeds, and the
    number of times a persist has been started. *)
Record disk : Type := mkDisk {
  content : file;
  writable : bool;
  saves : nat
}.

(** The state of the program: the [Book] objects and the [list] objects by
    address, the attribute [self.books] of the inventory (the address of a
    list object) and the disk. *)
Record state : Type := mkState {
  book_objs : list Book;
  list_objs : list (list loc);
  self_books : loc;
  the_disk : disk
}.

(** ** The monad of the program *)
Inductive outcome (A : Type) : Type :=
  | Ok (a : A)
  | Raise (e : exn)
  | Stuck.
Arguments Ok {A} a.
Arguments Raise {A} e.
Arguments Stuck {A}.

Definition M (A : Type) : Type := state -> outcome A * state.

Definition ret {A} (a : A) : M A := fun st => (Ok a, st).
Definition raise {A} (e : exn) : M A := fun st => (Raise e, st).
Definition bind {A B} (m : M A) (k : A -> M B) : M B := fun st =>
  match m st with
  | (Ok a, st') => k a st'
  | (Raise e, st') => (Raise e, st')
  | (Stuck, st') => (Stuck, st')
  end.

Notation "x <- m ;; k" := (bind m (fun x => k))
  (at level 100, m at next level, right associativity).
Notation "m ;;; k" := (bind m (fun _ => k))
  (at level 100, right associativity).

(** [try: body except Exception: handler] *)
Definition try_except {A} (body : M A) (handler : exn -> M A) : M A := fun st =>
  match body st with
  | (Raise e, st') => handler e st'
  | r => r
  end.

Definition set_book_objs (bs : list Book) (st : state) : state :=
  mkState bs (list_objs st) (self_books st) (the_disk st).
Definition set_list_objs (ls : list (list loc)) (st : state) : state :=
  mkState (book_objs st) ls (self_books st) (the_disk st).
Definition set_self_books (l : loc) (st : state) : state :=
  mkState (book_objs st) (list_objs st) l (the_disk st).
Definition set_disk (d : disk) (st : state) : state :=
  mkState (book_objs st) (list_objs st) (self_books st) d.

(** Reading and writing a [Book] object, allocating one. *)
Definition load_book (l : loc) : M Book := fun st =>
  match book_objs st !! l with
  | Some b => (Ok b, st)
  | None => (Stuck, st)
  end.

Definition store_book (l : loc) (b : Book) : M unit := fun st =>
  match book_objs st !! l with
  | Some _ => (Ok tt, set_book_objs (<[l := b]> (book_objs st)) st)
  | None => (Stuck, st)
  end.

Definition alloc_book (b : Book) : M loc := fun st =>
  (Ok (length (book_objs st)), set_book_objs (book_objs st ++ [b]) st).

(** Reading and writing a [list] object, allocating one. *)
Definition load_list (l : loc) : M (list loc) := fun st =>
  match list_objs st !! l with
  | Some xs => (Ok xs, st)
  | None => (Stuck, st)
  end.

Definition store_list (l : loc) (xs : list loc) : M unit := fun st =>
  match list_objs st !! l with
  | Some _ => (Ok tt, set_list_objs (<[l := xs]> (list_objs st)) st)
  | None => (Stuck, st)
  end.

Definition alloc_list (xs : list loc) : M loc := fun st =>
  (Ok (length (list_objs st)), set_list_objs (list_objs st ++ [xs]) st).

(** [self.books] and [self.books = l] *)
Definition get_self_books : M loc := fun st => (Ok (self_books st), st).
Definition assign_self_books (l : loc) : M unit := fun st => (Ok tt, set_self_books l st).

(** [for x in xs] collecting results, as a list comprehension does. *)
Fixpoint for_each {A B} (f : A -> M B) (xs : list A) : M (list B) :=
  match xs with
  | [] => ret []
  | x :: xs' => y <- f x ;; ys <- for_each f xs' ;; ret (y :: ys)
  end.

(** [[x for x in xs if p(x)]] *)
Fixpoint comprehension_if {A} (p : A -> M bool) (xs : list A) : M (list A) :=
  match xs with
  | [] => ret []
  | x :: xs' =>
      keep <- p x ;;
      ys <- comprehension_if p xs' ;;
      ret (if keep : bool then x :: ys else ys)
  end.

(** ** [class Book] *)

(** [Book(title, author, isbn, status="available")] *)
Definition Book_init (title author isbn : value) (status : option value) : M loc :=
  alloc_book (mkBook title author isbn (default (VStr "available") status)).

(** The value a dict gives for the key [k]. *)
Definition lookup_key (k : string) (kw : list (string * value)) : option value :=
  snd <$> List.find (fun p => String.eqb (fst p) k) kw.

(** The keyword parameters of [Book.__init__]. *)
Definition is_parameter (k : string) : bool :=
  String.eqb k "title" || String.eqb k "author" ||
  String.eqb k "isbn" || String.eqb k "status".

(** [Book] called with the double-star unpacking of [item]: [item] must be
    a mapping, and its keys are bound to the parameters of [__init__].  A
    key that is no parameter, or a missing [title], [author] or [isbn], is
    a [TypeError]; a missing [status] takes the default. *)
Definition Book_from (item : value) : M loc :=
  match item with
  | VDict kw =>
      if forallb (fun p => is_parameter (fst p)) kw then
        match lookup_key "title" kw, lookup_key "author" kw, lookup_key "isbn" kw with
        | Some t, Some a, Some i => Book_init t a i (lookup_key "status" kw)
        | _, _, _ => raise TypeError
        end
      else raise TypeError
  | _ => raise TypeError
  end.

Definition to_dict (self : loc) : M value :=
  b <- load_book self ;;
  ret (VDict [("title", title b); ("author", author b);
              ("isbn", isbn b); ("status", status b)]).

Definition set_status (v : value) (b : Book) : Book :=
  mkBook (title b) (author b) (isbn b) v.

Definition issue (self : loc) : M unit :=
  b <- load_book self ;;
  if py_eq_str (status b) "issued" then raise AlreadyIssued
  else store_book self (set_status (VStr "issued") b).

Definition return_book (self : loc) : M unit :=
  b <- load_book self ;;
  if py_eq_str (status b) "available" then raise AlreadyAvailable
  else store_book self (set_status (VStr "available") b).

Definition is_available (self : loc) : M bool :=
  b <- load_book self ;;
  ret (py_eq_str (status b) "available").

(** ** Files *)

(** [storage_path.exists()] and [storage_path.read_text(encoding="utf-8")] *)
Definition path_exists : M bool := fun st =>
  match content (the_disk st) with
  | Missing => (Ok false, st)
  | _ => (Ok true, st)
  end.

Definition read_text : M string := fun st =>
  match content (the_disk st) with
  | Text s => (Ok s, st)
  | _ => (Raise OSError, st)
  end.

(** [mkdir], [tmp.write_text(text)] and [tmp.replace(storage_path)]: the
    file is replaced as a whole or, when some step fails, not at all. *)
Definition write_and_replace (text : string) : M unit := fun st =>
  let d := the_disk st in
  if writable d then (Ok tt, set_disk (mkDisk (Text text) true (saves d)) st)
  else (Raise OSError, st).

(** One more persist has been started. *)
Definition count_save : M unit := fun st =>
  let d := the_disk st in
  (Ok tt, set_disk (mkDisk (content d) (writable d) (S (saves d))) st).

(** [for item in data]: a list gives its items, a dict its keys, a string
    its characters; the other values are not iterable. *)
Definition chars (s : string) : list value :=
  (fun c => VStr (String c EmptyString)) <$> list_ascii_of_string s.

Definition py_iter (data : value) : M (list value) :=
  match data with
  | VList items => ret items
  | VDict items => ret ((fun p => VStr (fst p)) <$> items)
  | VStr s => ret (chars s)
  | _ => raise TypeError
  end.

(** [v.lower()]: only a string has the method. *)
Definition py_lower (v : value) : M string :=
  match v with
  | VStr s => ret (lower s)
  | _ => raise AttributeError
  end.

(** [title_query or s] with [s] the empty string, for a string [title_query] *)
Definition or_empty (q : string) : string :=
  match q with
  | EmptyString => EmptyString
  | _ => q
  end.

(** The test of the comprehension in [search_by_title],
    [q in b.title.lower()], for the lower-cased query [q]. *)
Definition title_test (q : string) (b : loc) : M bool :=
  o <- load_book b ;; t <- py_lower (title o) ;; ret (contains q t).

(** ** [class LibraryInventory] *)
Section LibraryInventory.

(** [json.dumps(data, indent=2)] and [json.loads(text)], the latter
    giving [None] where the library raises [JSONDecodeError]. *)
Variable json_dumps : value -> string.
Variable json_loads : string -> option value.

Definition loads (text : string) : M value :=
  match json_loads text with
  | Some v => ret v
  | None => raise JSONDecodeError
  end.

(** [self.books = []] *)
Definition reset_books : M unit :=
  l <- alloc_list [] ;; assign_self_books l.

Definition _load : M unit :=
  try_except
    (ex <- path_exists ;;
     if negb ex then reset_books
     else
       raw <- read_text ;;
       let text := strip raw in
       match text with
       | EmptyString => reset_books
       | _ =>
           data <- loads text ;;
           items <- py_iter data ;;
           bs <- for_each Book_from items ;;
           l <- alloc_list bs ;;
           assign_self_books l
       end)
    (fun _ => reset_books).

Definition _save : M unit :=
  count_save ;;;
  try_except
    (l <- get_self_books ;;
     bs <- load_list l ;;
     data <- for_each to_dict bs ;;
     write_and_replace (json_dumps (VList data)))
    (fun _ => ret tt).

Fixpoint first_with_isbn (q : string) (bs : list loc) : M (option loc) :=
  match bs with
  | [] => ret None
  | b :: bs' =>
      o <- load_book b ;;
      if py_eq_str (isbn o) q then ret (Some b) else first_with_isbn q bs'
  end.

Definition search_by_isbn (q : string) : M (option loc) :=
  l <- get_self_books ;;
  bs <- load_list l ;;
  first_with_isbn q bs.

Definition add_book (title author isbn : string) : M loc :=
  found <- search_by_isbn isbn ;;
  match found with
  | Some _ => raise DuplicateKeyError
  | None =>
      book <- Book_init (VStr title) (VStr author) (VStr isbn) None ;;
      l <- get_self_books ;;
      bs <- load_list l ;;
      store_list l (bs ++ [book]) ;;;
      _save ;;;
      ret book
  end.

Definition search_by_title (title_query : string) : M loc :=
  let q := lower (or_empty title_query) in
  l <- get_self_books ;;
  bs <- load_list l ;;
  rs <- comprehension_if (title_test q) bs ;;
  alloc_list rs.

Definition display_all : M loc :=
  l <- get_self_books ;;
  bs <- load_list l ;;
  alloc_list bs.

(** [LibraryInventory.issue_book(isbn)] *)
Definition issue_book (q : string) : M unit :=
  found <- search_by_isbn q ;;
  match found with
  | None => raise NotFoundError
  | Some book => issue book ;;; _save
  end.

(** [LibraryInventory.return_book(isbn)]; the name [return_book] is the
    method of [Book] here. *)
Definition return_book_by_isbn (q : string) : M unit :=
  found <- search_by_isbn q ;;
  match found with
  | None => raise NotFoundError
  | Some book => return_book book ;;; _save
  end.

(** [LibraryInventory(storage_path)] on a disk [d], from an empty heap. *)
Definition __init__ : M unit :=
  reset_books ;;; _load.

Definition LibraryInventory (d : disk) : outcome unit * state :=
  __init__ (mkState [] [] 0 d).

End LibraryInventory.

(** ** A reference codec for [json]

    [RefJson.dumps] prints a value as [json.dumps(v, indent=2)] does and
    [RefJson.loads] reads a JSON text as [json.loads] does, on strings over
    the code points below 256.  Outside the codec: a number written with a
    fraction or an exponent, and a [\u] escape of a code point above 255;
    [loads] gives [None] on those.  The codec instantiates the parameters of
    the inventory in the scenarios below. *)
Module RefJson.

Local Open Scope char_scope.

(** The double quote character. *)
Definition dquote : ascii := ascii_of_N 34.

Definition hex_digit (n : N) : ascii :=
  ascii_of_N (if (n <? 10)%N then 48 + n else 87 + n).

(** One character inside a string literal, as [ensure_ascii] escapes it. *)
Definition escape_char (c : ascii) : string :=
  let n := code c in
  if Ascii.eqb c dquote then String "\" (String dquote EmptyString)
  else if Ascii.eqb c "\" then String "\" (String "\" EmptyString)
  else if (n =? 10)%N then String "\" (String "n" EmptyString)
  else if (n =? 13)%N then String "\" (String "r" EmptyString)
  else if (n =? 9)%N then String "\" (String "t" EmptyString)
  else if (n =? 8)%N then String "\" (String "b" EmptyString)
  else if (n =? 12)%N then String "\" (String "f" EmptyString)
  else if ((32 <=? n) && (n <=? 126))%N then String c EmptyString
  else String "\" (String "u" (String "0" (String "0"
         (String (hex_digit (n / 16)) (String (hex_digit (n mod 16)) EmptyString))))).

Fixpoint escape (s : string) : string :=
  match s with
  | EmptyString => EmptyString
  | String c s' => (escape_char c ++ escape s')%string
  end.

Definition quote (s : string) : string :=
  String dquote (escape s ++ String dquote EmptyString).

Fixpoint spaces (n : nat) : string :=
  match n with
  | O => EmptyString
  | S n' => String " " (spaces n')
  end.

(** A line break followed by the indentation of nesting depth [level]. *)
Definition newline (level : nat) : string :=
  String (ascii_of_N 10) (spaces (2 * level)).

Fixpoint join (sep : string) (parts : list string) : string :=
  match parts with
  | [] => EmptyString
  | [p] => p
  | p :: ps => (p ++ sep ++ join sep ps)%string
  end.

Definition float_text (repr : string) : string :=
  if String.eqb repr "nan" then "NaN"%string
  else if String.eqb repr "inf" then "Infinity"%string
  else if String.eqb repr "-inf" then "-Infinity"%string
  else repr.

Fixpoint dumps_at (level : nat) (v : value) : string :=
  match v with
  | VNone => "null"
  | VBool true => "true"
  | VBool false => "false"
  | VInt n => NilZero.string_of_int (Z.to_int n)
  | VFloat r => float_text r
  | VStr s => quote s
  | VList [] => "[]"
  | VList items =>
      String "[" (newline (S level) ++
        join (String "," (newline (S level))) (List.map (dumps_at (S level)) items) ++
        newline level ++ String "]" EmptyString)
  | VDict [] => "{}"
  | VDict items =>
      String "{" (newline (S level) ++
        join (String "," (newline (S level)))
             (List.map (fun p => quote (fst p) ++ ": " ++ dumps_at (S level) (snd p)) items) ++
        newline level ++ String "}" EmptyString)
  end%string.

Definition dumps (v : value) : string := dumps_at 0 v.

(** *** Reading *)

Definition is_json_space (c : ascii) : bool :=
  let n := code c in ((n =? 32) || (n =? 9) || (n =? 10) || (n =? 13))%N.

Fixpoint skip_ws (s : string) : string :=
  match s with
  | String c s' => if is_json_space c then skip_ws s' else s
  | EmptyString => EmptyString
  end.

Definition digit_of (c : ascii) : option N :=
  let n := code c in
  if ((48 <=? n) && (n <=? 57))%N then Some (n - 48)%N else None.

Definition hex_of (c : ascii) : option N :=
  let n := code c in
  if ((48 <=? n) && (n <=? 57))%N then Some (n - 48)%N
  else if ((97 <=? n) && (n <=? 102))%N then Some (n - 87)%N
  else if ((65 <=? n) && (n <=? 70))%N then Some (n - 55)%N
  else None.

(** The character a one-letter escape stands for. *)
Definition unescape (e : ascii) : option ascii :=
  if Ascii.eqb e dquote then Some dquote
  else if Ascii.eqb e "\" then Some "\"
  else if Ascii.eqb e "/" then Some "/"
  else if Ascii.eqb e "b" then Some (ascii_of_N 8)
  else if Ascii.eqb e "f" then Some (ascii_of_N 12)
  else if Ascii.eqb e "n" then Some (ascii_of_N 10)
  else if Ascii.eqb e "r" then Some (ascii_of_N 13)
  else if Ascii.eqb e "t" then Some (ascii_of_N 9)
  else None.

(** The body of a string literal, after the opening quote: up to the
    closing quote, with the escapes decoded; a raw control character is an
    error. *)
Fixpoint scan_string (s : string) : option (string * string) :=
  match s with
  | EmptyString => None
  | String "\" (String "u" (String a (String b (String c (String d r))))) =>
      match hex_of a, hex_of b, hex_of c, hex_of d with
      | Some 0%N, Some 0%N, Some h, Some l =>
          '(t, r') ← scan_string r; Some (String (ascii_of_N (16 * h + l)) t, r')
      | _, _, _, _ => None
      end
  | String "\" (String e r) =>
      c ← unescape e; '(t, r') ← scan_string r; Some (String c t, r')
  | String c r =>
      if Ascii.eqb c dquote then Some (EmptyString, r)
      else if (code c <? 32)%N then None
      else '(t, r') ← scan_string r; Some (String c t, r')
  end.

Fixpoint scan_digits (acc : N) (s : string) : N * string :=
  match s with
  | String c r =>
      match digit_of c with
      | Some d => scan_digits (10 * acc + d) r
      | None => (acc, s)
      end
  | EmptyString => (acc, s)
  end.

Definition no_fraction (s : string) : bool :=
  match s with
  | String c _ => negb (Ascii.eqb c "." || Ascii.eqb c "e" || Ascii.eqb c "E")
  | EmptyString => true
  end.

(** An integer literal: [0], or a non-zero digit followed by digits. *)
Definition scan_nat (s : string) : option (N * string) :=
  match s with
  | String c r =>
      match digit_of c with
      | Some 0%N => if no_fraction r then Some (0%N, r) else None
      | Some d => let '(n, r') := scan_digits d r in
                  if no_fraction r' then Some (n, r') else None
      | None => None
      end
  | EmptyString => None
  end.

Fixpoint strip_prefix (p s : string) : option string :=
  match p, s with
  | EmptyString, _ => Some s
  | String a p', String b s' => if Ascii.eqb a b then strip_prefix p' s' else None
  | String _ _, EmptyString => None
  end.

(** A dict from its pairs: a repeated key keeps its first place and takes
    the last value. *)
Fixpoint dict_set (k : string) (v : value) (d : list (string * value)) : list (string * value) :=
  match d with
  | [] => [(k, v)]
  | (k', v') :: d' => if String.eqb k' k then (k', v) :: d' else (k', v') :: dict_set k v d'
  end.

Definition dict_of_pairs (ps : list (string * value)) : list (string * value) :=
  fold_left (fun d p => dict_set (fst p) (snd p) d) ps [].

(** The literals that are words, and the integers. *)
Definition parse_word (s : string) : option (value * string) :=
  match strip_prefix "null" s, strip_prefix "true" s, strip_prefix "false" s,
        strip_prefix "NaN" s, strip_prefix "Infinity" s with
  | Some r, _, _, _, _ => Some (VNone, r)
  | _, Some r, _, _, _ => Some (VBool true, r)
  | _, _, Some r, _, _ => Some (VBool false, r)
  | _, _, _, Some r, _ => Some (VFloat "nan", r)
  | _, _, _, _, Some r => Some (VFloat "inf", r)
  | _, _, _, _, _ => '(n, r) ← scan_nat s; Some (VInt (Z.of_N n), r)
  end.

Fixpoint parse_value (fuel : nat) (s : string) : option (value * string) :=
  match fuel with
  | O => None
  | S fuel' =>
      match s with
      | String "[" r =>
          match skip_ws r with
          | String "]" r' => Some (VList [], r')
          | r' => '(vs, r'') ← parse_elements fuel' r'; Some (VList vs, r'')
          end
      | String "{" r =>
          match skip_ws r with
          | String "}" r' => Some (VDict [], r')
          | r' => '(ps, r'') ← parse_members fuel' r'; Some (VDict (dict_of_pairs ps), r'')
          end
      | String "-" r =>
          match strip_prefix "Infinity" r with
          | Some r' => Some (VFloat "-inf", r')
          | None => '(n, r') ← scan_nat r; Some (VInt (- Z.of_N n), r')
          end
      | String c r =>
          if Ascii.eqb c dquote then '(t, r') ← scan_string r; Some (VStr t, r')
          else parse_word s
      | EmptyString => None
      end
  end
with parse_elements (fuel : nat) (s : string) : option (list value * string) :=
  match fuel with
  | O => None
  | S fuel' =>
      '(v, r) ← parse_value fuel' s;
      match skip_ws r with
      | String "]" r' => Some ([v], r')
      | String "," r' =>
          '(vs, r'') ← parse_elements fuel' (skip_ws r'); Some (v :: vs, r'')
      | _ => None
      end
  end
with parse_members (fuel : nat) (s : string) : option (list (string * value) * string) :=
  match fuel with
  | O => None
  | S fuel' =>
      match s with
      | String c r =>
          if Ascii.eqb c dquote then
            '(k, r1) ← scan_string r;
            match skip_ws r1 with
            | String ":" r2 =>
                '(v, r3) ← parse_value fuel' (skip_ws r2);
                match skip_ws r3 with
                | String "}" r4 => Some ([(k, v)], r4)
                | String "," r4 =>
                    '(ps, r5) ← parse_members fuel' (skip_ws r4); Some ((k, v) :: ps, r5)
                | _ => None
                end
            | _ => None
            end
          else None
      | EmptyString => None
      end
  end.

(** [json.loads]: one value, white space around it, nothing after it. *)
Definition loads (text : string) : option value :=
  '(v, r) ← parse_value (2 * String.length text + 2) (skip_ws text);
  match skip_ws r with
  | EmptyString => Some v
  | _ => None
  end.

End RefJson.

(** ** Views of a state *)

(** The books a list object holds, in order, and the book sequence of the
    inventory: the books [self.books] holds. *)
Definition books_at (st : state) (r : loc) : option (list Book) :=
  xs ← list_objs st !! r; mapM (fun l => book_objs st !! l) xs.

Definition books_of (st : state) : option (list Book) :=
  books_at st (self_books st).

Definition has_isbn (q : string) (b : Book) : Prop := isbn b = VStr q.

(** What [to_dict] gives for a book. *)
Definition dict_of_book (b : Book) : value :=
  VDict [("title", title b); ("author", author b);
         ("isbn", isbn b); ("status", status b)].

(** The document [_save] hands to [json.dumps]. *)
Definition snapshot (bs : list Book) : value := VList (dict_of_book <$> bs).

(** The disk after a persist of the text [text]. *)
Definition disk_after_save (text : string) (d : disk) : disk :=
  if writable d then mkDisk (Text text) true (S (saves d))
  else mkDisk (content d) false (S (saves d)).

(** ** Case-insensitive substrings, as the specification words them *)

(** [q] is a case-insensitive substring of [t]: some run of consecutive
    characters of [t] equals [q] up to the case of the letters. *)
Definition ci_substring (q t : string) : Prop :=
  exists pre mid suf, t = pre +:+ mid +:+ suf /\ lower mid = lower q.

Definition title_matches (q : string) (b : Book) : Prop :=
  exists t, title b = VStr t /\ ci_substring q t.

(** [selects P xs ys]: [ys] consists of exactly the elements of [xs] that
    satisfy [P], each as often as in [xs] and in the order of [xs]. *)
Inductive selects {A} (P : A -> Prop) : list A -> list A -> Prop :=
  | selects_nil : selects P [] []
  | selects_keep x xs ys : P x -> selects P xs ys -> selects P (x :: xs) (x :: ys)
  | selects_skip x xs ys : ~ P x -> selects P xs ys -> selects P (x :: xs) ys.

(** ** What a file decodes to *)

(** The book the constructor builds from one item of the document, when it
    accepts the item. *)
Definition book_of_item (item : value) : option Book :=
  match item with
  | VDict kw =>
      if forallb (fun p => is_parameter (fst p)) kw then
        match lookup_key "title" kw, lookup_key "author" kw, lookup_key "isbn" kw with
        | Some t, Some a, Some i =>
            Some (mkBook t a i (default (VStr "available") (lookup_key "status" kw)))
        | _, _, _ => None
        end
      else None
  | _ => None
  end.

(** What iterating over the document gives, when it is iterable. *)
Definition items_of (data : value) : option (list value) :=
  match data with
  | VList items => Some items
  | VDict items => Some ((fun p => VStr (fst p)) <$> items)
  | VStr s => Some (chars s)
  | _ => None
  end.

(** The books of a document: every item must be accepted. *)
Definition books_of_document (data : value) : option (list Book) :=
  items ← items_of data; mapM book_of_item items.

(** The shape the specification names: a JSON array whose elements are all
    objects. *)
Definition array_of_objects (data : value) : Prop :=
  exists items, data = VList items /\ Forall (fun i => exists kw, i = VDict kw) items.

(** An object the constructor does not take: it lacks [title], [author] or
    [isbn], or it has a key that is none of the four parameters. *)
Definition rejected (kw : list (string * value)) : Prop :=
  lookup_key "title" kw = None \/ lookup_key "author" kw = None \/
  lookup_key "isbn" kw = None \/
  Exists (fun p => is_parameter (fst p) = false) kw.

(** A text that is empty or made of white space only. *)
Definition whitespace_only (s : string) : Prop :=
  Forall (fun c => is_space c = true) (list_ascii_of_string s).

(** The books a store holds after loading the file [f]. *)
Definition loaded_books (json_loads : string -> option value) (f : file) : list Book :=
  match f with
  | Text raw =>
      match strip raw with
      | EmptyString => []
      | text => default [] (json_loads text ≫= books_of_document)
      end
  | _ => []
  end.

(** The codec reads back the document it wrote: the text is not blank and
    [json.loads] of it is the document. *)
Definition reads_back (json_dumps : value -> string)
    (json_loads : string -> option value) (doc : value) : Prop :=
  strip (json_dumps doc) <> EmptyString /\
  json_loads (strip (json_dumps doc)) = Some doc.

(** ** The texts the reference codec writes *)

(** The text of one member of an object, followed by [tail]. *)
Definition member_text (k v tail : string) : string :=
  String RefJson.dquote (RefJson.escape k +:+ String RefJson.dquote
    (String ":" (String " "
      (String RefJson.dquote (RefJson.escape v +:+ String RefJson.dquote tail))))).

(** The text of the record of a book whose attributes are the strings [t],
    [a], [i], [s], followed by [tail]. *)
Definition record_text (t a i s tail : string) : string :=
  String "{" (RefJson.newline 2 +:+
    member_text "title" t (String "," (RefJson.newline 2 +:+
    member_text "author" a (String "," (RefJson.newline 2 +:+
    member_text "isbn" i (String "," (RefJson.newline 2 +:+
    member_text "status" s (RefJson.newline 1 +:+ String "}" tail)))))))).

(** A book all of whose attributes are strings. *)
Definition string_fields (b : Book) : Prop :=
  exists t a i s, b = mkBook (VStr t) (VStr a) (VStr i) (VStr s).

(** The string a value is, when it is one. *)
Definition str_of (v : value) : string :=
  match v with
  | VStr s => s
  | _ => EmptyString
  end.

(** The text of the record of [b], followed by [tail]. *)
Definition book_text (b : Book) (tail : string) : string :=
  record_text (str_of (title b)) (str_of (author b)) (str_of (isbn b))
              (str_of (status b)) tail.

(** The text of the records of [b :: bs] inside the array, up to its
    closing bracket, followed by [tail]. *)
Fixpoint elements_text (b : Book) (bs : list Book) (tail : string) : string :=
  match bs with
  | [] => book_text b (RefJson.newline 0 +:+ String "]" tail)
  | b' :: bs' => book_text b (String "," (RefJson.newline 1 +:+ elements_text b' bs' tail))
  end.

(** [rstrip] keeps a text that ends with a character that is no space. *)
Definition kept (s : string) : Prop := rstrip s = s /\ s <> EmptyString.

(** ** Reachable states *)

Definition status_ok (b : Book) : Prop :=
  status b = VStr "available" \/ status b = VStr "issued".

(** Every record of the document that gives a status gives one of the two
    values. *)
Definition document_status_ok (data : value) : Prop :=
  forall items kw v,
    data = VList items -> In (VDict kw) items ->
    lookup_key "status" kw = Some v ->
    v = VStr "available" \/ v = VStr "issued".

Definition file_status_ok (json_loads : string -> option value) (f : file) : Prop :=
  forall raw data,
    f = Text raw -> json_loads (strip raw) = Some data -> document_status_ok data.

(** The inventory has a sequence and every book of it satisfies [P]. *)
Definition sequence_all (P : Book -> Prop) (st : state) : Prop :=
  exists bs, books_of st = Some bs /\ Forall P bs.

(** A property of books that the calls keep: the books [add_book] creates
    have it, and a change of status to one of the two values keeps it. *)
Definition kept_by_calls (P : Book -> Prop) : Prop :=
  (forall t a q, P (mkBook (VStr t) (VStr a) (VStr q) (VStr "available"))) /\
  (forall b, P b -> P (set_status (VStr "issued") b) /\
                    P (set_status (VStr "available") b)).

Definition title_is_string (b : Book) : Prop := exists t, title b = VStr t.

(** The calls of the menu on the inventory. *)
Inductive call : Type :=
  | CallAdd (title author isbn : string)
  | CallIssue (isbn : string)
  | CallReturn (isbn : string)
  | CallDisplay
  | CallSearchTitle (query : string)
  | CallSearchIsbn (isbn : string).

(** The state after a call, whatever it returned or raised. *)
Definition after (json_dumps : value -> string) (c : call) (st : state) : state :=
  match c with
  | CallAdd t a q => snd (add_book json_dumps t a q st)
  | CallIssue q => snd (issue_book json_dumps q st)
  | CallReturn q => snd (return_book_by_isbn json_dumps q st)
  | CallDisplay => snd (display_all st)
  | CallSearchTitle q => snd (search_by_title q st)
  | CallSearchIsbn q => snd (search_by_isbn q st)
  end.

(** The states a program reaches that constructs the inventory on the disk
    [d] and then makes calls. *)
Inductive reachable (json_dumps : value -> string)
    (json_loads : string -> option value) (d : disk) : state -> Prop :=
  | reachable_init :
      reachable json_dumps json_loads d (snd (LibraryInventory json_loads d))
  | reachable_call st c :
      reachable json_dumps json_loads d st ->
      reachable json_dumps json_loads d (after json_dumps c st).

(** ** Scenarios *)

Definition no_file : disk := mkDisk Missing true 0.

(** A store constructed where no file exists. *)
Definition empty_store : state := snd (LibraryInventory RefJson.loads no_file).

(** The scenario of the specification: two books added, the first issued. *)
Definition dune_calls : list call :=
  [CallAdd "Dune" "Herbert" "111"; CallAdd "Dune 2" "Herbert" "112"; CallIssue "111"].

Definition dune_store : state :=
  fold_left (fun st c => after RefJson.dumps c st) dune_calls empty_store.

Definition dune : Book :=
  mkBook (VStr "Dune") (VStr "Herbert") (VStr "111") (VStr "issued").
Definition dune2 : Book :=
  mkBook (VStr "Dune 2") (VStr "Herbert") (VStr "112") (VStr "available").



(** ** What a call does to the sequence and to the disk *)

(** The sequence and the disk after a call: either both are as before, or
    the call appended a new book with an isbn no book had, or it changed
    the status of one book; in the last two cases the new sequence has
    been persisted. *)
Definition call_effect (json_dumps : value -> string) (bs : list Book)
    (st st' : state) : Prop :=
  (books_of st' = Some bs /\ the_disk st' = the_disk st) \/
  exists bs',
    books_of st' = Some bs' /\
    the_disk st' = disk_after_save (json_dumps (snapshot bs')) (the_disk st) /\
    ((exists t a q,
        ~ Exists (fun b => isbn b = VStr q) bs /\
        bs' = bs ++ [mkBook (VStr t) (VStr a) (VStr q) (VStr "available")]) \/
     (exists b v,
        Forall2 (fun old new => new = old \/ (old = b /\ new = set_status (VStr v) b))
                bs bs')).

(** The file and the sequence agree: the file is still the one the store
    was constructed on and the sequence is what was loaded from it, or the
    file holds the snapshot of the sequence. *)
Definition in_sync (json_dumps : value -> string) (json_loads : string -> option value)
    (d : disk) (st : state) : Prop :=
  writable (the_disk st) = true /\
  exists bs,
    books_of st = Some bs /\
    ((content (the_disk st) = content d /\ bs = loaded_books json_loads (content d)) \/
     content (the_disk st) = Text (json_dumps (snapshot bs))).

(** Two books with the same title, author and ISBN. *)
Definition same_identity (old new : Book) : Prop :=
  title new = title old /\ author new = author old /\ isbn new = isbn old.

(** ** [str] and [repr] of a value

    [Book.__str__] formats the attributes with an f-string, which takes
    [str] of each: a string as it is, and [repr] of every other value. *)

Definition two_hex (n : N) : string :=
  String (RefJson.hex_digit (n / 16)) (String (RefJson.hex_digit (n mod 16)) EmptyString).

(** [str.isprintable] on a character that is not ASCII: 161..255 without
    the soft hyphen 173; the ASCII ones are 32..126. *)
Definition printable (c : ascii) : bool :=
  let n := code c in
  ((32 <=? n) && (n <=? 126) || (161 <=? n) && negb (n =? 173))%N%bool.

(** One character of the [repr] of a string quoted with [q]. *)
Definition repr_char (q c : ascii) : string :=
  let n := code c in
  if (Ascii.eqb c q || Ascii.eqb c "\")%bool then String "\" (String c EmptyString)
  else if (n =? 9)%N then "\t"
  else if (n =? 10)%N then "\n"
  else if (n =? 13)%N then "\r"
  else if printable c then String c EmptyString
  else String "\" (String "x" (two_hex n)).

Fixpoint has_char (c : ascii) (s : string) : bool :=
  match s with
  | EmptyString => false
  | String a s' => (Ascii.eqb a c || has_char c s')%bool
  end.

Fixpoint repr_chars (q : ascii) (s : string) : string :=
  match s with
  | EmptyString => EmptyString
  | String c s' => repr_char q c +:+ repr_chars q s'
  end.

(** [repr] of a string: in single quotes, or in double quotes when the
    string has a single quote and no double quote. *)
Definition repr_str (s : string) : string :=
  let q := if (has_char "'" s && negb (has_char RefJson.dquote s))%bool
           then RefJson.dquote else "'"%char in
  String q (repr_chars q s +:+ String q EmptyString).

Fixpoint py_repr (v : value) : string :=
  match v with
  | VNone => "None"
  | VBool true => "True"
  | VBool false => "False"
  | VInt n => NilZero.string_of_int (Z.to_int n)
  | VFloat r => r
  | VStr s => repr_str s
  | VList items => "[" +:+ RefJson.join ", " (List.map py_repr items) +:+ "]"
  | VDict items =>
      "{" +:+ RefJson.join ", "
                (List.map (fun p => repr_str (fst p) +:+ ": " +:+ py_repr (snd p)) items)
          +:+ "}"
  end.

Definition py_str (v : value) : string :=
  match v with
  | VStr s => s
  | _ => py_repr v
  end.

(** [Book.__str__] *)
Definition Book_str (self : loc) : M string :=
  b <- load_book self ;;
  ret (py_str (title b) +:+ " by " +:+ py_str (author b) +:+
       " (ISBN: " +:+ py_str (isbn b) +:+ ") - " +:+ py_str (status b)).

(** ** The menu

    The terminal: what is typed, one line for each [input], or an
    interrupt; the end of the list is the end of the input.  An interrupt
    is taken at a prompt, where [safe_input] catches it.  What the program
    writes: the lines it prints, the prompts of [input], and the line
    [print("Error:", e)] writes for an exception. *)
Inductive keyboard : Type :=
  | Typed (line : string)
  | CtrlC.

Inductive output : Type :=
  | Printed (text : string)
  | Prompted (text : string)
  | PrintedError (e : exn).

Record world : Type := mkWorld {
  inv : state;
  stdin : list keyboard;
  stdout : list output
}.

(** How a run ends: [main] returns, [sys.exit] was called, an exception
    was not caught.  [Wedged] and [OutOfFuel] are ends of the model only: a
    dangling reference, and a loop cut short. *)
Inductive ending : Type :=
  | Returned
  | Exited (code : Z)
  | Uncaught (e : exn)
  | Wedged
  | OutOfFuel.

Inductive step (A : Type) : Type :=
  | Go (a : A)
  | End (e : ending).
Arguments Go {A} a.
Arguments End {A} e.

Definition CLI (A : Type) : Type := world -> step A * world.

Definition cli_ret {A} (a : A) : CLI A := fun w => (Go a, w).
Definition cli_bind {A B} (m : CLI A) (k : A -> CLI B) : CLI B := fun w =>
  match m w with
  | (Go a, w') => k a w'
  | (End e, w') => (End e, w')
  end.

Notation "x <~ m ;; k" := (cli_bind m (fun x => k))
  (at level 100, m at next level, right associativity).
Notation "m ;;~ k" := (cli_bind m (fun _ => k))
  (at level 100, right associativity).

Definition write (o : output) (w : world) : world :=
  mkWorld (inv w) (stdin w) (stdout w ++ [o]).

(** [print(text)] *)
Definition print (text : string) : CLI unit := fun w => (Go tt, write (Printed text) w).

Fixpoint print_all (texts : list string) : CLI unit :=
  match texts with
  | [] => cli_ret tt
  | t :: ts => print t ;;~ print_all ts
  end.

Definition line_feed : string := String (ascii_of_N 10) EmptyString.

Definition menu_text : list string :=
  [line_feed +:+ "Library Inventory Manager"; "1. Add Book"; "2. Issue Book";
   "3. Return Book"; "4. View All Books"; "5. Search by Title";
   "6. Search by ISBN"; "7. Exit"].

Definition print_menu : CLI unit := print_all menu_text.

(** [safe_input(prompt)]: the line typed, stripped; at the end of the input
    or on an interrupt it prints a farewell and exits with status 0. *)
Definition safe_input (prompt : string) : CLI string := fun w =>
  let w1 := write (Prompted prompt) w in
  match stdin w with
  | Typed line :: rest => (Go (strip line), mkWorld (inv w1) rest (stdout w1))
  | CtrlC :: rest =>
      (End (Exited 0),
       write (Printed (line_feed +:+ "Exiting.")) (mkWorld (inv w1) rest (stdout w1)))
  | [] => (End (Exited 0), write (Printed (line_feed +:+ "Exiting.")) w1)
  end.

Definition set_inv (st : state) (w : world) : world :=
  mkWorld st (stdin w) (stdout w).

(** A call on the inventory outside a [try]: an exception ends the run. *)
Definition invoke {A} (m : M A) : CLI A := fun w =>
  match m (inv w) with
  | (Ok a, st) => (Go a, set_inv st w)
  | (Raise e, st) => (End (Uncaught e), set_inv st w)
  | (Stuck, st) => (End Wedged, set_inv st w)
  end.

(** [try: m; print(done) except Exception as e: print("Error:", e)] *)
Definition attempt {A} (m : M A) (done : string) : CLI unit := fun w =>
  match m (inv w) with
  | (Ok _, st) => print done (set_inv st w)
  | (Raise e, st) => (Go tt, write (PrintedError e) (set_inv st w))
  | (Stuck, st) => (End Wedged, set_inv st w)
  end.

(** [for b in books: print(b)] *)
Fixpoint print_books (books : list loc) : CLI unit :=
  match books with
  | [] => cli_ret tt
  | b :: bs => (s <~ invoke (Book_str b) ;; print s) ;;~ print_books bs
  end.

(** [if not xs: print(text)] for a list [xs] *)
Definition print_if_empty {A} (xs : list A) (text : string) : CLI unit :=
  match xs with
  | [] => print text
  | _ => cli_ret tt
  end.

Section Menu.

Variable json_dumps : value -> string.
Variable json_loads : string -> option value.

(** The branches of the loop of [main] on [choice]; the result tells
    whether the loop goes on ([break] gives [false]). *)
Definition option_chosen (choice : string) : CLI bool :=
  if String.eqb choice "1" then
    title <~ safe_input "Title: " ;;
    author <~ safe_input "Author: " ;;
    isbn <~ safe_input "ISBN: " ;;
    attempt (add_book json_dumps title author isbn) "Book added successfully." ;;~
    cli_ret true
  else if String.eqb choice "2" then
    isbn <~ safe_input "ISBN to issue: " ;;
    attempt (issue_book json_dumps isbn) "Book issued." ;;~
    cli_ret true
  else if String.eqb choice "3" then
    isbn <~ safe_input "ISBN to return: " ;;
    attempt (return_book_by_isbn json_dumps isbn) "Book returned." ;;~
    cli_ret true
  else if String.eqb choice "4" then
    books <~ invoke (r <- display_all ;; load_list r) ;;
    print_if_empty books "No books in catalog." ;;~
    print_books books ;;~
    cli_ret true
  else if String.eqb choice "5" then
    q <~ safe_input "Enter title search query: " ;;
    results <~ invoke (r <- search_by_title q ;; load_list r) ;;
    print_if_empty results "No matches." ;;~
    print_books results ;;~
    cli_ret true
  else if String.eqb choice "6" then
    isbn <~ safe_input "Enter ISBN: " ;;
    b <~ invoke (search_by_isbn isbn) ;;
    match b with
    | None => print "Not found."
    | Some l => s <~ invoke (Book_str l) ;; print s
    end ;;~
    cli_ret true
  else if String.eqb choice "7" then
    print "Goodbye." ;;~ cli_ret false
  else
    print "Invalid option. Try again." ;;~ cli_ret true.

(** One turn of the loop of [main]. *)
Definition menu_round : CLI bool :=
  print_menu ;;~
  choice <~ safe_input "Choose an option (1-7): " ;;
  option_chosen choice.

(** [while True: ...], cut after [fuel] turns. *)
Fixpoint main_loop (fuel : nat) : world -> ending * world :=
  match fuel with
  | O => fun w => (OutOfFuel, w)
  | S fuel' => fun w =>
      match menu_round w with
      | (Go true, w') => main_loop fuel' w'
      | (Go false, w') => (Returned, w')
      | (End e, w') => (e, w')
      end
  end.

(** [main()] with the file of the disk [d] as [./data/books.json] and the
    lines [keys] typed at the terminal. *)
Definition main (fuel : nat) (d : disk) (keys : list keyboard) : ending * world :=
  match LibraryInventory json_loads d with
  | (Ok _, st) => main_loop fuel (mkWorld st keys [])
  | (Raise e, st) => (Uncaught e, mkWorld st keys [])
  | (Stuck, st) => (Wedged, mkWorld st keys [])
  end.

End Menu.

(** ** What a run of the menu keeps *)

(** The states a sequence of calls leads to. *)
Definition steps (json_dumps : value -> string) (st st' : state) : Prop :=
  exists cs, st' = fold_left (fun s c => after json_dumps c s) cs st.

(** The three errors of the inventory. *)
Definition business_error (e : exn) : Prop :=
  e = DuplicateKeyError \/ e = NotFoundError \/ InvalidStateError e.

Definition ok_output (o : output) : Prop :=
  match o with
  | PrintedError e => business_error e
  | _ => True
  end.

(** From [w0] to [w]: the inventory made calls, input was consumed from
    the front and output was added at the end. *)
Definition evolves (json_dumps : value -> string) (w0 w : world) : Prop :=
  steps json_dumps (inv w0) (inv w) /\
  (exists used, stdin w0 = used ++ stdin w) /\
  (exists new, stdout w = stdout w0 ++ new /\ Forall ok_output new).

(** [m] started where [pre] holds goes on where [post] holds or ends where
    [fin] holds. *)
Definition triple {A} (pre : world -> Prop) (m : CLI A)
    (post : A -> world -> Prop) (fin : ending -> world -> Prop) : Prop :=
  forall w, pre w ->
    match m w with
    | (Go a, w') => post a w'
    | (End e, w') => fin e w'
    end.

(** The invariant of a turn of the loop that started in [w0]: the world
    evolved from [w0], the inventory is well formed with books that satisfy
    [P], and, when [consumed] is set, some input has been read. *)
Definition turn_inv (json_dumps : value -> string) (P : Book -> Prop)
    (w0 : world) (consumed : bool) (w : world) : Prop :=
  evolves json_dumps w0 w /\ sequence_all P (inv w) /\
  (consumed = true -> length (stdin w) < length (stdin w0)).

(** The ends a turn can have: an exit with status 0, or the
    [AttributeError] of [search_by_title], which needs a book whose title
    is no string. *)
Definition turn_end (P : Book -> Prop) (e : ending) : Prop :=
  e = Exited 0 \/
  (e = Uncaught AttributeError /\ ~ forall b, P b -> title_is_string b).

(** The references of [ls] are references of books. *)
Definition valid_refs (ls : list loc) (st : state) : Prop :=
  Forall (fun l => is_Some (book_objs st !! l)) ls.

(** The line [print(b)] writes for a book. *)
Definition book_line (b : Book) : string :=
  py_str (title b) +:+ " by " +:+ py_str (author b) +:+
  " (ISBN: " +:+ py_str (isbn b) +:+ ") - " +:+ py_str (status b).

(** What the menu and the prompt for the choice write. *)
Definition menu_output : list output :=
  (Printed <$> menu_text) ++ [Prompted "Choose an option (1-7): "].

(** ** More scenarios *)

(** The menu about to be shown, with the lines [keys] waiting at the
    terminal. *)
Definition at_menu (st : state) (keys : list string) : world :=
  mkWorld st (Typed <$> keys) [].

(** The store of the scenario after one more book. *)
Definition ubik : Book :=
  mkBook (VStr "Ubik") (VStr "Dick") (VStr "7") (VStr "available").

Definition ubik_store : state :=
  after RefJson.dumps (CallAdd "Ubik" "Dick" "7") dune_store.

(** * Properties *)

(** ** The monad *)

Lemma bind_Ok {A B} (m : M A) (k : A -> M B) st a st' :
  m st = (Ok a, st') -> bind m k st = k a st'.
Proof. intros H. unfold bind. now rewrite H. Qed.

Lemma bind_Raise {A B} (m : M A) (k : A -> M B) st e st' :
  m st = (Raise e, st') -> bind m k st = (Raise e, st').
Proof. intros H. unfold bind. now rewrite H. Qed.

Lemma load_book_Some st l b :
  book_objs st !! l = Some b -> load_book l st = (Ok b, st).
Proof. intros H. unfold load_book. now rewrite H. Qed.

Lemma books_of_Some st bs :
  books_of st = Some bs ->
  exists ls, list_objs st !! self_books st = Some ls /\
             Forall2 (fun l b => book_objs st !! l = Some b) ls bs.
Proof.
  unfold books_of, books_at. intros H.
  destruct (list_objs st !! self_books st) as [ls|] eqn:E; [|discriminate].
  exists ls. split; [reflexivity|]. now apply mapM_Some.
Qed.

Lemma books_at_intro st r ls bs :
  list_objs st !! r = Some ls ->
  Forall2 (fun l b => book_objs st !! l = Some b) ls bs ->
  books_at st r = Some bs.
Proof.
  intros H1 H2. unfold books_at. rewrite H1. simpl. now apply mapM_Some.
Qed.

(** ** [search_by_isbn] *)

(** The scan reads the heap and changes nothing. *)
Lemma first_with_isbn_frame q ls st r st' :
  first_with_isbn q ls st = (r, st') -> st' = st.
Proof.
  revert st r st'. induction ls as [|l ls IH]; intros st r st' H; simpl in H.
  - unfold ret in H. congruence.
  - unfold bind, load_book in H.
    destruct (book_objs st !! l) as [b|]; [|congruence].
    destruct (py_eq_str (isbn b) q); [unfold ret in H; congruence|].
    eauto.
Qed.

Lemma search_by_isbn_frame q st r st' :
  search_by_isbn q st = (r, st') -> st' = st.
Proof.
  unfold search_by_isbn, bind, get_self_books, load_list. intros H.
  destruct (list_objs st !! self_books st); [|congruence].
  eauto using first_with_isbn_frame.
Qed.

Lemma py_eq_str_true v q : py_eq_str v q = true <-> v = VStr q.
Proof.
  destruct v; simpl; try (split; [discriminate|congruence]).
  rewrite String.eqb_eq. split; congruence.
Qed.

Lemma py_eq_str_false v q : py_eq_str v q = false <-> v <> VStr q.
Proof.
  rewrite <- py_eq_str_true. destruct (py_eq_str v q); split; congruence.
Qed.

(** What the scan finds: nothing when no book has the isbn, and otherwise
    the first reference whose book has it. *)
Inductive first_match (q : string) (h : list Book) : list loc -> option loc -> Prop :=
  | first_match_none ls :
      Forall (fun l => exists b, h !! l = Some b /\ ~ has_isbn q b) ls ->
      first_match q h ls None
  | first_match_some pre l b suf :
      Forall (fun l => exists b, h !! l = Some b /\ ~ has_isbn q b) pre ->
      h !! l = Some b -> has_isbn q b ->
      first_match q h (pre ++ l :: suf) (Some l).

Lemma first_with_isbn_spec q ls bs st :
  Forall2 (fun l b => book_objs st !! l = Some b) ls bs ->
  exists r, first_with_isbn q ls st = (Ok r, st) /\ first_match q (book_objs st) ls r.
Proof.
  induction 1 as [|l b ls bs Hl _ IH]; simpl.
  - exists None. split; [reflexivity|]. now constructor.
  - rewrite (bind_Ok _ _ _ _ _ (load_book_Some _ _ _ Hl)).
    destruct (py_eq_str (isbn b) q) eqn:E.
    + exists (Some l). split; [reflexivity|].
      apply (first_match_some q _ [] l b ls); [constructor|assumption|].
      now apply py_eq_str_true.
    + destruct IH as (r & Hr & Hm). exists r. split; [assumption|].
      assert (Hb : exists b0, book_objs st !! l = Some b0 /\ ~ has_isbn q b0).
      { exists b. split; [assumption|]. now apply py_eq_str_false. }
      inversion Hm; subst.
      * constructor. now constructor.
      * apply (first_match_some q _ (l :: pre) l0 b0 suf); auto.
Qed.

Lemma search_by_isbn_spec q st bs :
  books_of st = Some bs ->
  exists r, search_by_isbn q st = (Ok r, st) /\
            (exists ls, list_objs st !! self_books st = Some ls /\
                        first_match q (book_objs st) ls r).
Proof.
  intros H. apply books_of_Some in H as (ls & Hls & Hbs).
  destruct (first_with_isbn_spec q ls bs st Hbs) as (r & Hr & Hm).
  exists r. split; [|eauto].
  unfold search_by_isbn, bind, get_self_books, load_list.
  now rewrite Hls.
Qed.

(** A match exists among the books exactly when the scan finds one. *)
Lemma first_match_None_iff q h ls bs :
  Forall2 (fun l b => h !! l = Some b) ls bs ->
  first_match q h ls None <-> Forall (fun b => ~ has_isbn q b) bs.
Proof.
  intros H. split.
  - intros Hm. inversion Hm as [? Hall|]; subst. clear Hm.
    induction H as [|l b ls bs Hl _ IH]; constructor.
    + inversion Hall as [|? ? (b' & Hb' & Hn) _]; subst. congruence.
    + apply IH. now inversion Hall.
  - intros Hall. constructor.
    induction H as [|l b ls bs Hl _ IH]; constructor.
    + exists b. split; [assumption|]. now inversion Hall.
    + apply IH. now inversion Hall.
Qed.

Lemma first_match_Some_Exists q h ls bs l :
  Forall2 (fun l b => h !! l = Some b) ls bs ->
  first_match q h ls (Some l) -> Exists (has_isbn q) bs.
Proof.
  intros H Hm. inversion Hm as [|pre l' b suf Hpre Hl Hb]; subst.
  apply Forall2_app_inv_l in H as (bs1 & bs2 & _ & H2 & ->).
  inversion H2 as [|? b' ? bs3 Hb' _]; subst.
  apply Exists_app. right. constructor. congruence.
Qed.

Lemma Forall2_no_match q (h : list Book) pre bs1 :
  Forall2 (fun l b => h !! l = Some b) pre bs1 ->
  Forall (fun l => exists b, h !! l = Some b /\ ~ has_isbn q b) pre ->
  Forall (fun b => ~ has_isbn q b) bs1.
Proof.
  induction 1 as [|l b pre bs1 Hl _ IH]; intros Hall; constructor.
  - inversion Hall as [|? ? (b' & Hb' & Hn) _]; subst. congruence.
  - apply IH. now inversion Hall.
Qed.

(** The reference found is at the least position whose book has the isbn. *)
Lemma first_match_index q (h : list Book) ls bs l :
  Forall2 (fun l b => h !! l = Some b) ls bs ->
  first_match q h ls (Some l) ->
  exists i b, ls !! i = Some l /\ bs !! i = Some b /\ h !! l = Some b /\
              has_isbn q b /\
              forall j b', j < i -> bs !! j = Some b' -> ~ has_isbn q b'.
Proof.
  intros H Hm. inversion Hm as [|pre l' b suf Hpre Hl Hb]; subst.
  apply Forall2_app_inv_l in H as (bs1 & bs2 & H1 & H2 & ->).
  inversion H2 as [|? b' ? bs3 Hb' _]; subst.
  assert (b' = b) as -> by congruence.
  pose proof (Forall2_length _ _ _ H1) as Hlen.
  exists (length pre), b. repeat split; auto.
  - now rewrite list_lookup_middle.
  - now rewrite list_lookup_middle.
  - intros j b' Hj Hb'' Hhas.
    rewrite lookup_app_l in Hb'' by lia.
    pose proof (Forall2_no_match q h pre bs1 H1 Hpre) as Hno.
    rewrite Forall_lookup in Hno. exact (Hno j b' Hb'' Hhas).
Qed.

(** C7: [search_by_isbn] returns the first book, in stored order, whose
    [isbn] attribute equals the argument, and [None] when no book's isbn
    equals it.  Only the isbn is compared: whatever the title of a book
    is, the book is returned only if its isbn is the argument. *)
Theorem search_by_isbn_first_exact (q : string) (st : state) (bs : list Book) :
  books_of st = Some bs ->
  exists r, search_by_isbn q st = (Ok r, st) /\
    match r with
    | None => Forall (fun b => isbn b <> VStr q) bs
    | Some l =>
        exists i b,
          (list_objs st !! self_books st) ≫= (.!! i) = Some l /\
          bs !! i = Some b /\ book_objs st !! l = Some b /\
          isbn b = VStr q /\
          forall j b', j < i -> bs !! j = Some b' -> isbn b' <> VStr q
    end.
Proof.
  intros H. destruct (search_by_isbn_spec q st bs H) as (r & Hr & ls & Hls & Hm).
  apply books_of_Some in H as (ls' & Hls' & Hbs).
  assert (ls' = ls) as -> by congruence.
  exists r. split; [assumption|]. destruct r as [l|].
  - destruct (first_match_index q _ ls bs l Hbs Hm) as (i & b & H1 & H2 & H3 & H4 & H5).
    exists i, b. rewrite Hls. simpl. auto.
  - now apply (first_match_None_iff q _ ls bs Hbs).
Qed.

(** ** [_save] *)

Lemma for_each_to_dict ls bs st :
  Forall2 (fun l b => book_objs st !! l = Some b) ls bs ->
  for_each to_dict ls st = (Ok (dict_of_book <$> bs), st).
Proof.
  induction 1 as [|l b ls bs Hl _ IH]; simpl; [reflexivity|].
  unfold bind at 1. unfold to_dict at 1. unfold bind at 1.
  rewrite (load_book_Some _ _ _ Hl). unfold ret at 1.
  unfold bind. now rewrite IH.
Qed.

(** A persist never fails: it writes the snapshot of the sequence when the
    disk accepts the write and leaves the file as it is otherwise. *)
Lemma save_spec json_dumps st bs :
  books_of st = Some bs ->
  _save json_dumps st =
    (Ok tt, set_disk (disk_after_save (json_dumps (snapshot bs)) (the_disk st)) st).
Proof.
  intros H. apply books_of_Some in H as (ls & Hls & Hbs).
  unfold _save, bind at 1, count_save.
  set (st1 := set_disk _ st).
  assert (Hbs1 : Forall2 (fun l b => book_objs st1 !! l = Some b) ls bs) by exact Hbs.
  unfold try_except, bind at 1, get_self_books, bind at 1, load_list.
  change (list_objs st1 !! self_books st1) with (list_objs st !! self_books st).
  rewrite Hls. unfold bind. rewrite (for_each_to_dict _ _ _ Hbs1).
  unfold write_and_replace, disk_after_save, snapshot, ret. subst st1. simpl.
  clear Hbs1. now destruct (writable (the_disk st)).
Qed.

Lemma save_never_raises json_dumps st e st' : _save json_dumps st <> (Raise e, st').
Proof.
  unfold _save, bind at 1, count_save, try_except.
  destruct (bind get_self_books _ _) as [[?|?|] ?]; unfold ret; congruence.
Qed.

Lemma Forall2_lookup_app (h : list Book) ls bs b :
  Forall2 (fun l b => h !! l = Some b) ls bs ->
  Forall2 (fun l b0 => (h ++ [b]) !! l = Some b0) (ls ++ [length h]) (bs ++ [b]).
Proof.
  intros H. apply Forall2_app.
  - eapply Forall2_impl; [exact H|]. intros l b0 Hl. simpl in Hl.
    rewrite lookup_app_l; [assumption|]. now apply lookup_lt_Some in Hl.
  - constructor; [|constructor]. now rewrite list_lookup_middle.
Qed.

(** ** [Book.issue] and [Book.return_book] *)

Lemma issue_issued st l b :
  book_objs st !! l = Some b -> status b = VStr "issued" ->
  issue l st = (Raise AlreadyIssued, st).
Proof.
  intros Hl Hs. unfold issue. rewrite (bind_Ok _ _ _ _ _ (load_book_Some _ _ _ Hl)).
  now rewrite Hs.
Qed.

Lemma issue_not_issued st l b :
  book_objs st !! l = Some b -> status b <> VStr "issued" ->
  issue l st =
    (Ok tt, set_book_objs (<[l := set_status (VStr "issued") b]> (book_objs st)) st).
Proof.
  intros Hl Hs. unfold issue. rewrite (bind_Ok _ _ _ _ _ (load_book_Some _ _ _ Hl)).
  apply py_eq_str_false in Hs. rewrite Hs. unfold store_book. now rewrite Hl.
Qed.

Lemma return_available st l b :
  book_objs st !! l = Some b -> status b = VStr "available" ->
  return_book l st = (Raise AlreadyAvailable, st).
Proof.
  intros Hl Hs. unfold return_book.
  rewrite (bind_Ok _ _ _ _ _ (load_book_Some _ _ _ Hl)). now rewrite Hs.
Qed.

Lemma return_not_available st l b :
  book_objs st !! l = Some b -> status b <> VStr "available" ->
  return_book l st =
    (Ok tt, set_book_objs (<[l := set_status (VStr "available") b]> (book_objs st)) st).
Proof.
  intros Hl Hs. unfold return_book.
  rewrite (bind_Ok _ _ _ _ _ (load_book_Some _ _ _ Hl)).
  apply py_eq_str_false in Hs. rewrite Hs. unfold store_book. now rewrite Hl.
Qed.

Lemma value_str_dec (v : value) (s : string) : {v = VStr s} + {v <> VStr s}.
Proof.
  destruct (py_eq_str v s) eqn:E; [left; now apply py_eq_str_true|right; now apply py_eq_str_false].
Qed.

(** [is_available] reads the status and changes nothing. *)
Lemma is_available_frame st l r st' : is_available l st = (r, st') -> st' = st.
Proof.
  unfold is_available, bind, load_book, ret.
  destruct (book_objs st !! l); congruence.
Qed.

(** A failing [issue] or [return_book] leaves the state as it was. *)
Lemma issue_Raise st l e st' :
  issue l st = (Raise e, st') -> e = AlreadyIssued /\ st' = st.
Proof.
  unfold issue, bind, load_book.
  destruct (book_objs st !! l) as [b|] eqn:Hl; simpl; [|discriminate].
  destruct (py_eq_str (status b) "issued").
  - unfold raise. intros H. split; congruence.
  - unfold store_book. rewrite Hl. discriminate.
Qed.

Lemma return_book_Raise st l e st' :
  return_book l st = (Raise e, st') -> e = AlreadyAvailable /\ st' = st.
Proof.
  unfold return_book, bind, load_book.
  destruct (book_objs st !! l) as [b|] eqn:Hl; simpl; [|discriminate].
  destruct (py_eq_str (status b) "available").
  - unfold raise. intros H. split; congruence.
  - unfold store_book. rewrite Hl. discriminate.
Qed.

Lemma lookup_set_status st l b v :
  book_objs st !! l = Some b ->
  book_objs (set_book_objs (<[l := set_status v b]> (book_objs st)) st) !! l
    = Some (set_status v b).
Proof.
  intros Hl. simpl. apply list_lookup_insert_eq. now apply lookup_lt_Some in Hl.
Qed.

(** C2: [issue] fails exactly when the status is issued, with
    InvalidStateError, and otherwise sets the status to issued;
    [return_book] fails exactly when the status is available, with
    InvalidStateError, and otherwise sets it to available.  So an [issue]
    that follows an [issue] fails, and from a book that is not issued the
    calls [issue], [return_book], [issue] succeed one after the other. *)
Theorem issue_return_state_machine (st : state) (l : loc) (b : Book) :
  book_objs st !! l = Some b ->
  let set v := set_book_objs (<[l := set_status (VStr v) b]> (book_objs st)) st in
  ((exists e st', issue l st = (Raise e, st')) <-> status b = VStr "issued") /\
  (forall e st', issue l st = (Raise e, st') -> InvalidStateError e /\ st' = st) /\
  (status b <> VStr "issued" -> issue l st = (Ok tt, set "issued")) /\
  ((exists e st', return_book l st = (Raise e, st')) <-> status b = VStr "available") /\
  (forall e st', return_book l st = (Raise e, st') -> InvalidStateError e /\ st' = st) /\
  (status b <> VStr "available" -> return_book l st = (Ok tt, set "available")) /\
  (forall r st1, issue l st = (r, st1) ->
     exists e, InvalidStateError e /\ issue l st1 = (Raise e, st1)) /\
  (status b <> VStr "issued" ->
     exists st1 st2 st3,
       issue l st = (Ok tt, st1) /\ return_book l st1 = (Ok tt, st2) /\
       issue l st2 = (Ok tt, st3)).
Proof.
  intros Hl set.
  split; [|split; [|split; [|split; [|split; [|split; [|split]]]]]].
  - split.
    + intros (e & st' & H). destruct (value_str_dec (status b) "issued") as [|Hn]; [assumption|].
      rewrite (issue_not_issued _ _ _ Hl Hn) in H. discriminate.
    + intros Hs. eexists _, _. exact (issue_issued _ _ _ Hl Hs).
  - intros e st' H. apply issue_Raise in H as [-> ->]. split; [now left|reflexivity].
  - exact (issue_not_issued _ _ _ Hl).
  - split.
    + intros (e & st' & H). destruct (value_str_dec (status b) "available") as [|Hn]; [assumption|].
      rewrite (return_not_available _ _ _ Hl Hn) in H. discriminate.
    + intros Hs. eexists _, _. exact (return_available _ _ _ Hl Hs).
  - intros e st' H. apply return_book_Raise in H as [-> ->]. split; [now right|reflexivity].
  - exact (return_not_available _ _ _ Hl).
  - intros r st1 H. exists AlreadyIssued. split; [now left|].
    destruct (value_str_dec (status b) "issued") as [Hs|Hn].
    + rewrite (issue_issued _ _ _ Hl Hs) in H. injection H as _ <-.
      exact (issue_issued _ _ _ Hl Hs).
    + rewrite (issue_not_issued _ _ _ Hl Hn) in H. injection H as _ <-.
      exact (issue_issued _ _ _ (lookup_set_status st l b _ Hl) eq_refl).
  - intros Hn. eexists _, _, _. split; [exact (issue_not_issued _ _ _ Hl Hn)|].
    pose proof (lookup_set_status st l b (VStr "issued") Hl) as H1.
    split; [apply (return_not_available _ _ _ H1); discriminate|].
    match goal with |- issue l ?s = _ =>
      assert (H2 : book_objs s !! l = Some (set_status (VStr "available") (set_status (VStr "issued") b)))
    end.
    { simpl. apply list_lookup_insert_eq. rewrite length_insert. now apply lookup_lt_Some in Hl. }
    apply (issue_not_issued _ _ _ H2). discriminate.
Qed.

(** ** [issue_book] and [return_book] of the inventory *)

Lemma first_with_isbn_no_raise q ls st e st' :
  first_with_isbn q ls st <> (Raise e, st').
Proof.
  revert st. induction ls as [|l ls IH]; intros st; simpl; [discriminate|].
  unfold bind, load_book. destruct (book_objs st !! l) as [b|]; [|discriminate].
  destruct (py_eq_str (isbn b) q); [discriminate|apply IH].
Qed.

Lemma search_by_isbn_no_raise q st e st' :
  search_by_isbn q st <> (Raise e, st').
Proof.
  unfold search_by_isbn, bind, get_self_books, load_list.
  destruct (list_objs st !! self_books st); [|discriminate].
  apply first_with_isbn_no_raise.
Qed.

(** The sequence seen through the references [ls] after the object at [l]
    has been replaced by [b']. *)
Lemma Forall2_lookup_insert (h : list Book) ls bs l b' :
  Forall2 (fun l0 b0 => h !! l0 = Some b0) ls bs ->
  l < length h ->
  Forall2 (fun l0 b0 => <[l := b']> h !! l0 = Some b0) ls
          (zip_with (fun l0 b0 => if decide (l0 = l) then b' else b0) ls bs).
Proof.
  intros H Hlt. induction H as [|l0 b0 ls bs Hl _ IH]; simpl; constructor; [|assumption].
  destruct (decide (l0 = l)) as [->|Hne].
  - now apply list_lookup_insert_eq.
  - rewrite list_lookup_insert_ne; [assumption|congruence].
Qed.

Lemma zip_with_old_or_new (ls : list loc) (bs : list Book) (l : loc) b' :
  length ls = length bs ->
  Forall2 (fun old new => new = old \/ new = b') bs
          (zip_with (fun l0 b0 => if decide (l0 = l) then b' else b0) ls bs).
Proof.
  revert bs. induction ls as [|l0 ls IH]; intros [|b0 bs] Hlen; simpl in *;
    try discriminate; constructor.
  - destruct (decide (l0 = l)); auto.
  - apply IH. lia.
Qed.

Lemma books_of_set_book st bs l b' :
  books_of st = Some bs -> l < length (book_objs st) ->
  exists bs1, books_of (set_book_objs (<[l := b']> (book_objs st)) st) = Some bs1 /\
              Forall2 (fun old new => new = old \/ new = b') bs bs1.
Proof.
  intros H Hlt. apply books_of_Some in H as (ls & Hls & Hbs).
  eexists. split.
  - eapply books_at_intro; [exact Hls|]. simpl.
    exact (Forall2_lookup_insert _ _ _ _ b' Hbs Hlt).
  - apply zip_with_old_or_new. exact (Forall2_length _ _ _ Hbs).
Qed.

Lemma search_found q st bs :
  books_of st = Some bs -> Exists (fun b => isbn b = VStr q) bs ->
  exists l b, search_by_isbn q st = (Ok (Some l), st) /\
              book_objs st !! l = Some b /\ isbn b = VStr q /\ In b bs.
Proof.
  intros H Hex. destruct (search_by_isbn_spec q st bs H) as (r & Hr & ls & Hls & Hm).
  apply books_of_Some in H as (ls' & Hls' & Hbs).
  assert (ls' = ls) as -> by congruence.
  destruct r as [l|].
  - destruct (first_match_index q _ ls bs l Hbs Hm) as (i & b & _ & H2 & H3 & H4 & _).
    exists l, b. repeat split; try assumption.
    apply list_elem_of_In. now apply list_elem_of_lookup_2 in H2.
  - apply (first_match_None_iff q _ ls bs Hbs) in Hm.
    exfalso. apply Exists_exists in Hex as (b & Hin & Hb).
    rewrite Forall_forall in Hm. exact (Hm b Hin Hb).
Qed.

Lemma search_not_found q st bs :
  books_of st = Some bs -> ~ Exists (fun b => isbn b = VStr q) bs ->
  search_by_isbn q st = (Ok None, st).
Proof.
  intros H Hno. destruct (search_by_isbn_spec q st bs H) as (r & Hr & ls & Hls & Hm).
  apply books_of_Some in H as (ls' & Hls' & Hbs).
  assert (ls' = ls) as -> by congruence.
  destruct r as [l|]; [|assumption].
  exfalso. apply Hno. exact (first_match_Some_Exists q _ ls bs l Hbs Hm).
Qed.

Lemma add_book_duplicate json_dumps t a q st bs :
  books_of st = Some bs ->
  Exists (fun b => isbn b = VStr q) bs ->
  add_book json_dumps t a q st = (Raise DuplicateKeyError, st).
Proof.
  intros H Hex. destruct (search_found q st bs H Hex) as (l & b & Hs & _).
  unfold add_book. now rewrite (bind_Ok _ _ _ _ _ Hs).
Qed.

Lemma add_book_fresh json_dumps t a q st bs :
  books_of st = Some bs ->
  ~ Exists (fun b => isbn b = VStr q) bs ->
  let new := mkBook (VStr t) (VStr a) (VStr q) (VStr "available") in
  exists l st',
    add_book json_dumps t a q st = (Ok l, st') /\
    books_of st' = Some (bs ++ [new]) /\
    book_objs st' = book_objs st ++ [new] /\
    book_objs st' !! l = Some new /\
    (list_objs st' !! self_books st') ≫= last = Some l /\
    self_books st' = self_books st /\
    the_disk st' = disk_after_save (json_dumps (snapshot (bs ++ [new]))) (the_disk st).
Proof.
  intros H Hno new. pose proof (search_not_found q st bs H Hno) as Hs.
  apply books_of_Some in H as (ls & Hls & Hbs).
  unfold add_book. rewrite (bind_Ok _ _ _ _ _ Hs).
  unfold Book_init, bind at 1, alloc_book. simpl default. fold new.
  set (st1 := set_book_objs (book_objs st ++ [new]) st).
  unfold bind at 1, get_self_books, bind at 1, load_list.
  change (list_objs st1 !! self_books st1) with (list_objs st !! self_books st).
  rewrite Hls. unfold bind at 1, store_list.
  change (list_objs st1 !! self_books st1) with (list_objs st !! self_books st).
  rewrite Hls.
  set (st2 := set_list_objs _ st1).
  assert (Hl2 : list_objs st2 !! self_books st2 = Some (ls ++ [length (book_objs st)])).
  { subst st2 st1. simpl. apply list_lookup_insert_eq. now apply lookup_lt_Some in Hls. }
  assert (H2 : books_of st2 = Some (bs ++ [new])).
  { apply (books_at_intro st2 _ _ _ Hl2). subst st2 st1. simpl.
    now apply Forall2_lookup_app. }
  unfold bind at 1. rewrite (save_spec json_dumps st2 _ H2). unfold ret.
  eexists _, _. split; [reflexivity|].
  repeat split.
  + exact H2.
  + simpl. now rewrite list_lookup_middle.
  + unfold set_disk. cbn [list_objs self_books]. rewrite Hl2.
    simpl. now rewrite last_snoc.
Qed.

(** C1: [add_book] fails with DuplicateKeyError, changing nothing, when a
    book of the sequence has the isbn; otherwise it appends one new book
    with the given title, author and isbn and status available at the end
    of the sequence, persists, and returns the reference of that book. *)
Theorem add_book_spec (json_dumps : value -> string) (t a q : string)
    (st : state) (bs : list Book) :
  books_of st = Some bs ->
  let new := mkBook (VStr t) (VStr a) (VStr q) (VStr "available") in
  (Exists (fun b => isbn b = VStr q) bs ->
     add_book json_dumps t a q st = (Raise DuplicateKeyError, st)) /\
  (~ Exists (fun b => isbn b = VStr q) bs ->
     exists l st',
       add_book json_dumps t a q st = (Ok l, st') /\
       books_of st' = Some (bs ++ [new]) /\
       book_objs st' = book_objs st ++ [new] /\
       book_objs st' !! l = Some new /\
       (list_objs st' !! self_books st') ≫= last = Some l /\
       self_books st' = self_books st /\
       the_disk st' = disk_after_save (json_dumps (snapshot (bs ++ [new]))) (the_disk st)).
Proof.
  intros H new. split.
  - now apply add_book_duplicate.
  - now apply add_book_fresh.
Qed.

Lemma calls_not_found json_dumps q st bs :
  books_of st = Some bs ->
  ~ Exists (fun b => isbn b = VStr q) bs ->
  issue_book json_dumps q st = (Raise NotFoundError, st) /\
  return_book_by_isbn json_dumps q st = (Raise NotFoundError, st).
Proof.
  intros H Hno. pose proof (search_not_found q st bs H Hno) as Hs.
  unfold issue_book, return_book_by_isbn.
  now rewrite !(bind_Ok _ _ _ _ _ Hs).
Qed.

(** A successful status change, followed by the persist. *)
Lemma status_change_then_save json_dumps (m : M unit) st bs l b v :
  books_of st = Some bs -> book_objs st !! l = Some b ->
  m st = (Ok tt, set_book_objs (<[l := set_status v b]> (book_objs st)) st) ->
  exists st1 bs1,
    m st = (Ok tt, st1) /\ books_of st1 = Some bs1 /\
    Forall2 (fun old new => new = old \/ new = set_status v b) bs bs1 /\
    (m ;;; _save json_dumps) st =
      (Ok tt, set_disk (disk_after_save (json_dumps (snapshot bs1)) (the_disk st)) st1).
Proof.
  intros H Hl Hm.
  destruct (books_of_set_book st bs l (set_status v b) H (lookup_lt_Some _ _ _ Hl))
    as (bs1 & Hbs1 & Hrel).
  eexists _, bs1. split; [exact Hm|]. split; [exact Hbs1|]. split; [exact Hrel|].
  rewrite (bind_Ok _ _ _ _ _ Hm). now rewrite (save_spec json_dumps _ _ Hbs1).
Qed.

Lemma calls_found json_dumps q st bs :
  books_of st = Some bs ->
  Exists (fun b => isbn b = VStr q) bs ->
  exists l b,
    search_by_isbn q st = (Ok (Some l), st) /\
    book_objs st !! l = Some b /\ isbn b = VStr q /\ In b bs /\
    issue_book json_dumps q st = (issue l ;;; _save json_dumps) st /\
    return_book_by_isbn json_dumps q st = (return_book l ;;; _save json_dumps) st /\
    (status b = VStr "issued" ->
       issue_book json_dumps q st = (Raise AlreadyIssued, st)) /\
    (status b <> VStr "issued" ->
       exists st1 bs1,
         issue l st = (Ok tt, st1) /\ books_of st1 = Some bs1 /\
         Forall2 (fun old new => new = old \/ new = set_status (VStr "issued") b) bs bs1 /\
         issue_book json_dumps q st =
           (Ok tt, set_disk (disk_after_save (json_dumps (snapshot bs1)) (the_disk st)) st1)) /\
    (status b = VStr "available" ->
       return_book_by_isbn json_dumps q st = (Raise AlreadyAvailable, st)) /\
    (status b <> VStr "available" ->
       exists st1 bs1,
         return_book l st = (Ok tt, st1) /\ books_of st1 = Some bs1 /\
         Forall2 (fun old new => new = old \/ new = set_status (VStr "available") b) bs bs1 /\
         return_book_by_isbn json_dumps q st =
           (Ok tt, set_disk (disk_after_save (json_dumps (snapshot bs1)) (the_disk st)) st1)).
Proof.
  intros H Hex. destruct (search_found q st bs H Hex) as (l & b & Hs & Hl & Hb & Hin).
  exists l, b.
  assert (Hi : issue_book json_dumps q st = (issue l ;;; _save json_dumps) st).
  { unfold issue_book. now rewrite (bind_Ok _ _ _ _ _ Hs). }
  assert (Hr : return_book_by_isbn json_dumps q st = (return_book l ;;; _save json_dumps) st).
  { unfold return_book_by_isbn. now rewrite (bind_Ok _ _ _ _ _ Hs). }
  do 6 (split; [assumption|]).
  split; [|split; [|split]].
  - intros Hst. rewrite Hi. apply bind_Raise. now apply (issue_issued _ _ b).
  - intros Hst. rewrite Hi.
    exact (status_change_then_save json_dumps _ st bs l b _ H Hl
             (issue_not_issued _ _ _ Hl Hst)).
  - intros Hst. rewrite Hr. apply bind_Raise. now apply (return_available _ _ b).
  - intros Hst. rewrite Hr.
    exact (status_change_then_save json_dumps _ st bs l b _ H Hl
             (return_not_available _ _ _ Hl Hst)).
Qed.

(** C3: [issue_book] fails with NotFoundError when no book of the sequence
    has the isbn, in particular on an empty store; when a book has it, the
    call runs [issue] on the first such book and then, only if that
    succeeded, persists: an InvalidStateError of [issue] is passed on, and
    otherwise the status is set and the snapshot written.  [return_book]
    of the inventory does the same with [Book.return_book]. *)
Theorem issue_book_spec (json_dumps : value -> string) (q : string)
    (st : state) (bs : list Book) :
  books_of st = Some bs ->
  (bs = [] -> issue_book json_dumps "999" st = (Raise NotFoundError, st)) /\
  (~ Exists (fun b => isbn b = VStr q) bs ->
     issue_book json_dumps q st = (Raise NotFoundError, st) /\
     return_book_by_isbn json_dumps q st = (Raise NotFoundError, st)) /\
  (Exists (fun b => isbn b = VStr q) bs ->
     exists l b,
       search_by_isbn q st = (Ok (Some l), st) /\
       book_objs st !! l = Some b /\ isbn b = VStr q /\ In b bs /\
       issue_book json_dumps q st = (issue l ;;; _save json_dumps) st /\
       return_book_by_isbn json_dumps q st = (return_book l ;;; _save json_dumps) st /\
       (status b = VStr "issued" ->
          issue_book json_dumps q st = (Raise AlreadyIssued, st)) /\
       (status b <> VStr "issued" ->
          exists st1 bs1,
            issue l st = (Ok tt, st1) /\ books_of st1 = Some bs1 /\
            Forall2 (fun old new => new = old \/ new = set_status (VStr "issued") b) bs bs1 /\
            issue_book json_dumps q st =
              (Ok tt, set_disk (disk_after_save (json_dumps (snapshot bs1)) (the_disk st)) st1)) /\
       (status b = VStr "available" ->
          return_book_by_isbn json_dumps q st = (Raise AlreadyAvailable, st)) /\
       (status b <> VStr "available" ->
          exists st1 bs1,
            return_book l st = (Ok tt, st1) /\ books_of st1 = Some bs1 /\
            Forall2 (fun old new => new = old \/ new = set_status (VStr "available") b) bs bs1 /\
            return_book_by_isbn json_dumps q st =
              (Ok tt, set_disk (disk_after_save (json_dumps (snapshot bs1)) (the_disk st)) st1))).
Proof.
  intros H. split; [|split].
  - intros ->. apply (calls_not_found json_dumps "999" st [] H).
    intros Hex. now apply Exists_nil in Hex.
  - now apply calls_not_found.
  - now apply calls_found.
Qed.

(** C9: a failing [issue_book] or [return_book] of the inventory is
    atomic: the state after the call is the state before it, so the book
    sequence, every status and the disk are as they were, and no persist
    was started (the count of persists is part of the disk).  The call
    fails with NotFoundError or with InvalidStateError. *)
Theorem failed_issue_return_atomic (json_dumps : value -> string) (q : string)
    (st st' : state) (e : exn) :
  issue_book json_dumps q st = (Raise e, st') \/
  return_book_by_isbn json_dumps q st = (Raise e, st') ->
  st' = st /\ (e = NotFoundError \/ InvalidStateError e) /\
  books_of st' = books_of st /\ book_objs st' = book_objs st /\
  the_disk st' = the_disk st /\ saves (the_disk st') = saves (the_disk st).
Proof.
  intros H.
  assert (st' = st /\ (e = NotFoundError \/ InvalidStateError e)) as [-> He].
  { destruct H as [H|H].
    - unfold issue_book, bind at 1 in H.
      destruct (search_by_isbn q st) as [[[l|]|e0|] s] eqn:Hs;
        pose proof (search_by_isbn_frame _ _ _ _ Hs) as ->.
      + unfold bind in H. destruct (issue l st) as [[[]|e0|] s] eqn:Hi.
        * exfalso. exact (save_never_raises _ _ _ _ H).
        * apply issue_Raise in Hi as [-> ->]. injection H as <- <-.
          split; [reflexivity|]. right. now left.
        * discriminate.
      + unfold raise in H. injection H as <- <-. auto.
      + exfalso. exact (search_by_isbn_no_raise _ _ _ _ Hs).
      + discriminate.
    - unfold return_book_by_isbn, bind at 1 in H.
      destruct (search_by_isbn q st) as [[[l|]|e0|] s] eqn:Hs;
        pose proof (search_by_isbn_frame _ _ _ _ Hs) as ->.
      + unfold bind in H. destruct (return_book l st) as [[[]|e0|] s] eqn:Hi.
        * exfalso. exact (save_never_raises _ _ _ _ H).
        * apply return_book_Raise in Hi as [-> ->]. injection H as <- <-.
          split; [reflexivity|]. right. now right.
        * discriminate.
      + unfold raise in H. injection H as <- <-. auto.
      + exfalso. exact (search_by_isbn_no_raise _ _ _ _ Hs).
      + discriminate. }
  auto 10.
Qed.

(** ** Strings *)

Lemma starts_with_spec q t :
  starts_with q t = true <-> exists suf, t = q +:+ suf.
Proof.
  revert t. induction q as [|a q IH]; intros t; simpl.
  - split; [intros _; now exists t|reflexivity].
  - destruct t as [|b t].
    + split; [discriminate|]. intros (suf & H). discriminate.
    + destruct (Ascii.eqb a b) eqn:E.
      * apply Ascii.eqb_eq in E as ->. rewrite IH. split.
        -- intros (suf & ->). now exists suf.
        -- intros (suf & H). injection H as ->. now exists suf.
      * apply Ascii.eqb_neq in E. split; [discriminate|].
        intros (suf & H). injection H as <- _. congruence.
Qed.

(** The [in] operator finds exactly the substrings. *)
Lemma contains_spec q t :
  contains q t = true <-> exists pre suf, t = pre +:+ q +:+ suf.
Proof.
  induction t as [|c t IH]; simpl.
  - rewrite orb_false_r, starts_with_spec. split.
    + intros (suf & H). now exists EmptyString, suf.
    + intros (pre & suf & H). destruct pre; [now exists suf|discriminate].
  - rewrite orb_true_iff, starts_with_spec, IH. split.
    + intros [(suf & H)|(pre & suf & H)].
      * now exists EmptyString, suf.
      * exists (String c pre), suf. simpl. now rewrite H.
    + intros (pre & suf & H). destruct pre as [|c' pre]; simpl in H.
      * left. now exists suf.
      * right. injection H as _ ->. now exists pre, suf.
Qed.

Lemma lower_app a b : lower (a +:+ b) = lower a +:+ lower b.
Proof. induction a as [|c a IH]; simpl; [reflexivity|now rewrite IH]. Qed.

Lemma lower_split t x y :
  lower t = x +:+ y -> exists a b, t = a +:+ b /\ lower a = x /\ lower b = y.
Proof.
  revert t. induction x as [|c x IH]; intros t H; simpl in H.
  - now exists EmptyString, t.
  - destruct t as [|d t]; [discriminate|]. simpl in H. injection H as Hc Ht.
    destruct (IH t Ht) as (a & b & -> & <- & <-).
    exists (String d a), b. simpl. now rewrite Hc.
Qed.

(** The test of [search_by_title], [q.lower() in t.lower()], decides the
    case-insensitive substrings. *)
Lemma contains_lower_spec q t :
  contains (lower q) (lower t) = true <-> ci_substring q t.
Proof.
  rewrite contains_spec. unfold ci_substring. split.
  - intros (pre' & suf' & H).
    apply lower_split in H as (pre & rest & -> & <- & H).
    apply lower_split in H as (mid & suf & -> & H & <-).
    now exists pre, mid, suf.
  - intros (pre & mid & suf & -> & H).
    exists (lower pre), (lower suf). now rewrite !lower_app, H.
Qed.

Lemma contains_empty t : contains EmptyString t = true.
Proof. now destruct t. Qed.

Lemma or_empty_id q : or_empty q = q.
Proof. now destruct q. Qed.

(** ** The read operations *)

Lemma title_test_frame q b st r st' : title_test q b st = (r, st') -> st' = st.
Proof.
  unfold title_test, bind, load_book, py_lower.
  destruct (book_objs st !! b) as [o|]; [|congruence].
  destruct (title o); unfold ret, raise; congruence.
Qed.

Lemma comprehension_if_frame {A} (p : A -> M bool) xs :
  (forall x st r st', p x st = (r, st') -> st' = st) ->
  forall st r st', comprehension_if p xs st = (r, st') -> st' = st.
Proof.
  intros Hp. induction xs as [|x xs IH]; intros st r st' H; simpl in H.
  - unfold ret in H. congruence.
  - unfold bind in H. destruct (p x st) as [[k|e|] s] eqn:E;
      apply Hp in E as ->; try congruence.
    destruct (comprehension_if p xs st) as [[ys|e|] s] eqn:E2;
      apply IH in E2 as ->; unfold ret in H; congruence.
Qed.

Lemma alloc_list_books_of st xs bs :
  books_of st = Some bs ->
  books_of (set_list_objs (list_objs st ++ [xs]) st) = Some bs.
Proof.
  intros H. apply books_of_Some in H as (ls & Hls & Hbs).
  apply (books_at_intro _ _ ls); [|exact Hbs].
  simpl. rewrite lookup_app_l; [assumption|]. now apply lookup_lt_Some in Hls.
Qed.

Lemma alloc_list_books_at st xs bs :
  Forall2 (fun l b => book_objs st !! l = Some b) xs bs ->
  books_at (set_list_objs (list_objs st ++ [xs]) st) (length (list_objs st)) = Some bs.
Proof.
  intros H. apply (books_at_intro _ _ xs); [|exact H].
  simpl. now rewrite list_lookup_middle.
Qed.

(** The comprehension of [search_by_title] on books whose titles are
    strings: it keeps the references of the books whose title matches. *)
Lemma comprehension_titles q ls bs st :
  Forall2 (fun l b => book_objs st !! l = Some b) ls bs ->
  Forall title_is_string bs ->
  exists rs bs',
    comprehension_if (title_test (lower q)) ls st = (Ok rs, st) /\
    Forall2 (fun l b => book_objs st !! l = Some b) rs bs' /\
    selects (title_matches q) bs bs' /\
    (q = EmptyString -> rs = ls /\ bs' = bs).
Proof.
  induction 1 as [|l b ls bs Hl _ IH]; intros Hstr.
  - exists [], []. repeat split; constructor.
  - inversion Hstr as [|? ? (t & Ht) Hstr']; subst.
    destruct (IH Hstr') as (rs & bs' & Hc & Hrs & Hsel & Hall).
    assert (Hp : title_test (lower q) l st = (Ok (contains (lower q) (lower t)), st)).
    { unfold title_test. rewrite (bind_Ok _ _ _ _ _ (load_book_Some _ _ _ Hl)).
      now rewrite Ht. }
    simpl. rewrite (bind_Ok _ _ _ _ _ Hp), (bind_Ok _ _ _ _ _ Hc). unfold ret.
    destruct (contains (lower q) (lower t)) eqn:E.
    + exists (l :: rs), (b :: bs'). split; [reflexivity|].
      split; [now constructor|]. split.
      * constructor; [|assumption]. exists t. split; [assumption|].
        now apply contains_lower_spec.
      * intros Hq. destruct (Hall Hq) as [-> ->]. now split.
    + exists rs, bs'. split; [reflexivity|]. split; [assumption|]. split.
      * constructor; [|assumption]. intros (t' & Ht' & Hci).
        assert (t' = t) as -> by congruence.
        apply contains_lower_spec in Hci. congruence.
      * intros ->. simpl in E. now rewrite contains_empty in E.
Qed.


Lemma search_by_title_frame q st r st' :
  search_by_title q st = (r, st') ->
  book_objs st' = book_objs st /\ self_books st' = self_books st /\
  the_disk st' = the_disk st /\
  exists new, list_objs st' = list_objs st ++ new.
Proof.
  unfold search_by_title, bind at 1, get_self_books, bind at 1, load_list.
  rewrite or_empty_id. fold (title_test (lower q)).
  destruct (list_objs st !! self_books st) as [ls|].
  - unfold bind. destruct (comprehension_if _ ls st) as [[rs|e|] s] eqn:E;
      apply (comprehension_if_frame _ _ (title_test_frame (lower q))) in E as ->.
    + unfold alloc_list. intros H. injection H as _ <-. simpl. eauto.
    + intros H. injection H as _ <-. repeat split. exists []. now rewrite app_nil_r.
    + intros H. injection H as _ <-. repeat split. exists []. now rewrite app_nil_r.
  - intros H. injection H as _ <-. repeat split. exists []. now rewrite app_nil_r.
Qed.

(** On a sequence with a book whose title is not a string the search
    raises [AttributeError]. *)
Lemma comprehension_non_string q ls bs st :
  Forall2 (fun l b => book_objs st !! l = Some b) ls bs ->
  ~ Forall title_is_string bs ->
  comprehension_if (title_test q) ls st = (Raise AttributeError, st).
Proof.
  induction 1 as [|l b ls bs Hl _ IH]; intros Hn.
  - exfalso. apply Hn. constructor.
  - simpl. unfold bind at 1, title_test at 1, bind at 1.
    rewrite (load_book_Some _ _ _ Hl).
    destruct (title b) as [| | | |t| |] eqn:Ht; try reflexivity.
    simpl. unfold bind at 1. unfold ret at 1. rewrite IH; [reflexivity|].
    intros Hall. apply Hn. constructor; [now exists t|assumption].
Qed.

Lemma search_by_title_non_string q st bs :
  books_of st = Some bs -> ~ Forall title_is_string bs ->
  search_by_title q st = (Raise AttributeError, st).
Proof.
  intros H Hn. apply books_of_Some in H as (ls & Hls & Hbs).
  unfold search_by_title, bind at 1, get_self_books, bind at 1, load_list.
  rewrite Hls. now rewrite (bind_Raise _ _ _ _ _ (comprehension_non_string _ ls bs st Hbs Hn)).
Qed.

Lemma books_of_frame st st' bs :
  books_of st = Some bs ->
  book_objs st' = book_objs st -> self_books st' = self_books st ->
  (exists new, list_objs st' = list_objs st ++ new) ->
  books_of st' = Some bs.
Proof.
  intros H Hb Hs (new & Hl). apply books_of_Some in H as (ls & Hls & Hbs).
  apply (books_at_intro _ _ ls).
  - rewrite Hs, Hl, lookup_app_l; [assumption|]. now apply lookup_lt_Some in Hls.
  - now rewrite Hb.
Qed.

Lemma display_all_spec st bs :
  books_of st = Some bs ->
  exists r st',
    display_all st = (Ok r, st') /\
    book_objs st' = book_objs st /\ books_of st' = Some bs /\
    the_disk st' = the_disk st /\
    list_objs st' = list_objs st ++ [default [] (list_objs st !! self_books st)] /\
    r <> self_books st' /\ books_at st' r = Some bs /\
    forall xs, exists st'',
      store_list r xs st' = (Ok tt, st'') /\ books_of st'' = Some bs /\
      book_objs st'' = book_objs st.
Proof.
  intros H. pose proof H as H0. apply books_of_Some in H0 as (ls & Hls & Hbs).
  pose proof (lookup_lt_Some _ _ _ Hls) as Hlt.
  exists (length (list_objs st)), (set_list_objs (list_objs st ++ [ls]) st).
  split; [|split; [|split; [|split; [|split; [|split; [|split]]]]]].
  - unfold display_all, bind, get_self_books, load_list. now rewrite Hls.
  - reflexivity.
  - now apply alloc_list_books_of.
  - reflexivity.
  - simpl. now rewrite Hls.
  - simpl. lia.
  - now apply alloc_list_books_at.
  - intros xs. unfold store_list. cbn [list_objs set_list_objs].
    rewrite list_lookup_middle by reflexivity.
    eexists. split; [reflexivity|]. split; [|reflexivity].
    apply (books_at_intro _ _ ls); [|exact Hbs]. simpl.
    rewrite list_lookup_insert_ne by lia.
    now rewrite lookup_app_l.
Qed.

(** C10: the read operations leave the Book objects, the sequence of the
    inventory and the disk as they were; the two that return a list create
    a new list object and touch no existing one.  The list [display_all]
    returns is not the list of the inventory: it holds the same books, and
    storing any other contents into it leaves the sequence of the inventory
    as it was. *)
Theorem read_operations_frame (q : string) (st : state) (bs : list Book) :
  books_of st = Some bs ->
  (forall r st', search_by_isbn q st = (r, st') -> st' = st) /\
  (forall r st', search_by_title q st = (r, st') ->
     book_objs st' = book_objs st /\ books_of st' = Some bs /\
     the_disk st' = the_disk st /\
     exists new, list_objs st' = list_objs st ++ new) /\
  (exists r st',
     display_all st = (Ok r, st') /\
     book_objs st' = book_objs st /\ books_of st' = Some bs /\
     the_disk st' = the_disk st /\
     list_objs st' = list_objs st ++ [default [] (list_objs st !! self_books st)] /\
     r <> self_books st' /\ books_at st' r = Some bs /\
     forall xs, exists st'',
       store_list r xs st' = (Ok tt, st'') /\ books_of st'' = Some bs /\
       book_objs st'' = book_objs st).
Proof.
  intros H. split; [|split].
  - intros r st'. apply search_by_isbn_frame.
  - intros r st' Hs. apply search_by_title_frame in Hs as (Hb & Hsb & Hd & Hl).
    repeat split; try assumption. now apply (books_of_frame st).
  - now apply display_all_spec.
Qed.

(** ** [_load] *)

Lemma reset_books_spec st :
  reset_books st =
    (Ok tt, set_self_books (length (list_objs st))
              (set_list_objs (list_objs st ++ [[]]) st)).
Proof. reflexivity. Qed.

Lemma books_of_reset st :
  books_of (set_self_books (length (list_objs st))
              (set_list_objs (list_objs st ++ [[]]) st)) = Some [].
Proof.
  apply (books_at_intro _ _ []); [|constructor].
  simpl. now rewrite list_lookup_middle.
Qed.

Lemma Book_from_spec item st :
  Book_from item st =
    match book_of_item item with
    | Some b => (Ok (length (book_objs st)), set_book_objs (book_objs st ++ [b]) st)
    | None => (Raise TypeError, st)
    end.
Proof.
  destruct item; try reflexivity. simpl.
  destruct (forallb _ _); [|reflexivity].
  destruct (lookup_key "title" _); [|reflexivity].
  destruct (lookup_key "author" _); [|reflexivity].
  destruct (lookup_key "isbn" _); reflexivity.
Qed.

(** The comprehension of [_load] allocates the books of the items in order
    and returns their references, or stops at the first item the
    constructor rejects. *)
Lemma for_each_Book_from items : forall st,
  match mapM book_of_item items with
  | Some bs =>
      for_each Book_from items st =
        (Ok (seq (length (book_objs st)) (length bs)),
         set_book_objs (book_objs st ++ bs) st)
  | None =>
      exists junk,
        for_each Book_from items st =
          (Raise TypeError, set_book_objs (book_objs st ++ junk) st)
  end.
Proof.
  induction items as [|item items IH]; intros st; simpl.
  - unfold ret. rewrite app_nil_r. now destruct st.
  - pose proof (Book_from_spec item st) as Hb.
    destruct (book_of_item item) as [b|]; simpl.
    + set (st1 := set_book_objs (book_objs st ++ [b]) st) in *.
      specialize (IH st1). destruct (mapM book_of_item items) as [bs|]; simpl.
      * rewrite (bind_Ok _ _ _ _ _ Hb), (bind_Ok _ _ _ _ _ IH).
        unfold ret. subst st1. simpl.
        rewrite length_app, Nat.add_1_r, <- app_assoc. reflexivity.
      * destruct IH as (junk & IH). exists (b :: junk).
        rewrite (bind_Ok _ _ _ _ _ Hb), (bind_Raise _ _ _ _ _ IH).
        subst st1. simpl. now rewrite <- app_assoc.
    + exists []. rewrite (bind_Raise _ _ _ _ _ Hb), app_nil_r. now destruct st.
Qed.

Lemma Forall2_seq_lookup (h bs : list Book) :
  Forall2 (fun l b => (h ++ bs) !! l = Some b) (seq (length h) (length bs)) bs.
Proof.
  revert h. induction bs as [|b bs IH]; intros h; simpl; constructor.
  - now rewrite list_lookup_middle.
  - specialize (IH (h ++ [b])). rewrite length_app, Nat.add_1_r, <- app_assoc in IH.
    exact IH.
Qed.

(** [_load] always returns normally; it leaves the disk and the existing
    objects as they are and makes [self.books] a new list of new books. *)
Lemma load_spec json_loads st :
  exists st',
    _load json_loads st = (Ok tt, st') /\
    the_disk st' = the_disk st /\
    books_of st' = Some (loaded_books json_loads (content (the_disk st))) /\
    exists new, book_objs st' = book_objs st ++ new.
Proof.
  assert (Hreset : forall s : state, the_disk s = the_disk st ->
            (exists new, book_objs s = book_objs st ++ new) ->
            exists st', reset_books s = (Ok tt, st') /\ the_disk st' = the_disk st /\
                        books_of st' = Some [] /\
                        exists new, book_objs st' = book_objs st ++ new).
  { intros s Hd Hn. eexists. split; [apply reset_books_spec|].
    split; [exact Hd|]. split; [apply books_of_reset|exact Hn]. }
  assert (Hst : exists new, book_objs st = book_objs st ++ new).
  { exists []. now rewrite app_nil_r. }
  unfold _load, try_except, bind at 1, path_exists, loaded_books.
  destruct (content (the_disk st)) as [| |raw] eqn:Hc; simpl.
  - now apply Hreset.
  - unfold bind at 1, read_text. rewrite Hc. now apply Hreset.
  - unfold bind at 1, read_text. rewrite Hc.
    destruct (strip raw) as [|c text] eqn:Hs; [now apply Hreset|].
    unfold bind at 1, loads.
    destruct (json_loads (String c text)) as [data|]; simpl; [|now apply Hreset].
    unfold bind at 1, books_of_document.
    assert (Hit : py_iter data st =
              match items_of data with
              | Some items => (Ok items, st)
              | None => (Raise TypeError, st)
              end) by now destruct data.
    rewrite Hit. destruct (items_of data) as [items|]; simpl; [|now apply Hreset].
    unfold bind at 1. pose proof (for_each_Book_from items st) as Hf.
    destruct (mapM book_of_item items) as [bs|]; simpl.
    + rewrite Hf. unfold bind, alloc_list, assign_self_books. simpl.
      eexists. split; [reflexivity|]. split; [reflexivity|]. split.
      * eapply books_at_intro; simpl.
        -- now rewrite list_lookup_middle.
        -- apply Forall2_seq_lookup.
      * simpl. eauto.
    + destruct Hf as (junk & ->). apply Hreset; simpl; eauto.
Qed.

Lemma init_spec json_loads d :
  exists st,
    LibraryInventory json_loads d = (Ok tt, st) /\
    the_disk st = d /\
    books_of st = Some (loaded_books json_loads (content d)).
Proof.
  unfold LibraryInventory, __init__.
  rewrite (bind_Ok _ _ _ _ _ (reset_books_spec _)).
  destruct (load_spec json_loads
              (set_self_books (length (list_objs (mkState [] [] 0 d)))
                 (set_list_objs (list_objs (mkState [] [] 0 d) ++ [[]]) (mkState [] [] 0 d))))
    as (st & H1 & H2 & H3 & _).
  exists st. auto.
Qed.

Lemma whitespace_only_strip s : whitespace_only s -> strip s = EmptyString.
Proof.
  unfold whitespace_only, strip. intros H.
  assert (lstrip s = EmptyString) as ->; [|reflexivity].
  induction s as [|c s IH]; simpl in *; [reflexivity|].
  inversion H as [|? ? Hc Hs]; subst. rewrite Hc. now apply IH.
Qed.

Lemma mapM_book_of_item_dicts items bs :
  mapM book_of_item items = Some bs ->
  Forall (fun i => exists kw, i = VDict kw) items.
Proof.
  intros H. apply mapM_Some in H.
  induction H as [|item b items bs Hb _ IH]; constructor; [|assumption].
  destruct item; try discriminate. eauto.
Qed.

(** A document that is not an array of objects gives no book. *)
Lemma not_array_of_objects_no_books data :
  ~ array_of_objects data -> default [] (books_of_document data) = [].
Proof.
  intros Hn. unfold books_of_document.
  destruct data as [| | | |s|items|items]; try reflexivity; simpl.
  - destruct s as [|c s]; reflexivity.
  - destruct (mapM book_of_item items) as [bs|] eqn:E; [|reflexivity].
    exfalso. apply Hn. exists items. split; [reflexivity|].
    eauto using mapM_book_of_item_dicts.
  - destruct items as [|[k v] items]; reflexivity.
Qed.

Lemma rejected_no_book kw : rejected kw -> book_of_item (VDict kw) = None.
Proof.
  intros H. simpl. destruct (forallb _ kw) eqn:E; [|reflexivity].
  destruct H as [->|[H|[H|H]]]; [reflexivity| | |].
  - rewrite H. now destruct (lookup_key "title" kw).
  - rewrite H. now destruct (lookup_key "title" kw), (lookup_key "author" kw).
  - exfalso. apply Exists_exists in H as (p & Hin & Hp).
    rewrite forallb_forall in E. apply list_elem_of_In in Hin.
    rewrite (E p Hin) in Hp. discriminate.
Qed.

(** A document with an object the constructor does not take gives no
    book. *)
Lemma rejected_record_no_books items kw :
  In (VDict kw) items -> rejected kw ->
  default [] (books_of_document (VList items)) = [].
Proof.
  intros Hin Hr. unfold books_of_document. simpl.
  destruct (mapM book_of_item items) as [bs|] eqn:E; [|reflexivity].
  exfalso. apply mapM_Some in E.
  induction E as [|item b items bs Hb _ IH]; [contradiction|].
  destruct Hin as [->|Hin]; [|auto].
  rewrite (rejected_no_book kw Hr) in Hb. discriminate.
Qed.

(** C5: constructing the store always returns normally, whatever the
    backing file holds; and the store is empty when the file does not
    exist, cannot be read, is empty or white space only, is not valid
    JSON, decodes to something that is not an array of objects, or to an
    array with an object that lacks one of [title], [author], [isbn] or has
    a key other than the four attributes. *)
Theorem load_never_fails (json_loads : string -> option value) (d : disk) :
  exists st bs,
    LibraryInventory json_loads d = (Ok tt, st) /\
    the_disk st = d /\ books_of st = Some bs /\
    (content d = Missing \/ content d = Unreadable \/
     (exists raw, content d = Text raw /\
        (whitespace_only raw \/ json_loads (strip raw) = None \/
         (exists data, json_loads (strip raw) = Some data /\ ~ array_of_objects data) \/
         (exists items kw, json_loads (strip raw) = Some (VList items) /\
                           In (VDict kw) items /\ rejected kw))) ->
     bs = []).
Proof.
  destruct (init_spec json_loads d) as (st & H1 & H2 & H3).
  exists st, (loaded_books json_loads (content d)).
  split; [assumption|]. split; [assumption|]. split; [assumption|].
  intros [->|[->|(raw & -> & H)]]; try reflexivity.
  unfold loaded_books.
  destruct H as [H|[H|[(data & H & Hn)|(items & kw & H & Hin & Hr)]]].
  - now rewrite (whitespace_only_strip raw H).
  - destruct (strip raw); [reflexivity|]. now rewrite H.
  - destruct (strip raw); [reflexivity|]. rewrite H. simpl.
    now apply not_array_of_objects_no_books.
  - destruct (strip raw); [reflexivity|]. rewrite H. simpl.
    now apply (rejected_record_no_books items kw).
Qed.

(** ** Persist, then load *)

Lemma book_of_item_dict b : book_of_item (dict_of_book b) = Some b.
Proof. now destruct b. Qed.

Lemma books_of_document_snapshot bs : books_of_document (snapshot bs) = Some bs.
Proof.
  unfold books_of_document, snapshot. simpl. apply mapM_Some.
  induction bs as [|b bs IH]; simpl; constructor; [apply book_of_item_dict|assumption].
Qed.

(** Loading the text of a snapshot the codec reads back gives the books of
    the snapshot. *)
Lemma loaded_books_written json_dumps json_loads bs :
  reads_back json_dumps json_loads (snapshot bs) ->
  loaded_books json_loads (Text (json_dumps (snapshot bs))) = bs.
Proof.
  intros (Hne & Hrb). unfold loaded_books.
  destruct (strip (json_dumps (snapshot bs))) eqn:E; [congruence|].
  rewrite Hrb. simpl. now rewrite books_of_document_snapshot.
Qed.

(** C4: when the disk takes the write and the codec reads back the
    document, persisting a sequence of books and then constructing a store
    on the file (or loading it again in place) gives a sequence equal to
    the persisted one: as many books, the same four attribute values, the
    same order. *)
Theorem save_load_round_trip (json_dumps : value -> string)
    (json_loads : string -> option value) (st : state) (bs : list Book) :
  books_of st = Some bs ->
  writable (the_disk st) = true ->
  reads_back json_dumps json_loads (snapshot bs) ->
  exists st1 st2 st3,
    _save json_dumps st = (Ok tt, st1) /\
    content (the_disk st1) = Text (json_dumps (snapshot bs)) /\
    LibraryInventory json_loads (the_disk st1) = (Ok tt, st2) /\
    books_of st2 = Some bs /\
    _load json_loads st1 = (Ok tt, st3) /\
    books_of st3 = Some bs.
Proof.
  intros H Hw (Hne & Hrb).
  pose proof (save_spec json_dumps st bs H) as Hsave.
  set (st1 := set_disk _ st) in Hsave.
  assert (Hc : content (the_disk st1) = Text (json_dumps (snapshot bs))).
  { subst st1. unfold disk_after_save. now rewrite Hw. }
  assert (Hl : loaded_books json_loads (content (the_disk st1)) = bs).
  { rewrite Hc. apply loaded_books_written. now split. }
  destruct (init_spec json_loads (the_disk st1)) as (st2 & H1 & _ & H3).
  destruct (load_spec json_loads st1) as (st3 & H4 & _ & H5 & _).
  exists st1, st2, st3. rewrite Hl in H3, H5. auto 10.
Qed.

(** ** The status of the books in reachable states *)





(** A file the store persisted from books with the two statuses, and that
    the codec reads back, gives the two statuses only. *)
Lemma saved_file_status_ok json_dumps json_loads bs :
  Forall status_ok bs ->
  reads_back json_dumps json_loads (snapshot bs) ->
  file_status_ok json_loads (Text (json_dumps (snapshot bs))).
Proof.
  intros Hall (_ & Hrb) raw data Hraw Hdata. injection Hraw as <-.
  rewrite Hrb in Hdata. injection Hdata as <-.
  intros items kw v Hitems Hin Hv. injection Hitems as <-.
  apply list_elem_of_In, list_elem_of_fmap in Hin as (b & Hb & Hin).
  injection Hb as ->. simpl in Hv. injection Hv as <-.
  rewrite Forall_forall in Hall. now apply Hall.
Qed.

Lemma Forall_old_or_new (P : Book -> Prop) (bs bs1 : list Book) b' :
  Forall P bs -> P b' ->
  Forall2 (fun old new => new = old \/ new = b') bs bs1 ->
  Forall P bs1.
Proof.
  intros Hall Hb H. induction H as [|old new bs bs1 [->| ->] _ IH];
    constructor; inversion Hall; auto.
Qed.

(** Every call keeps the inventory well formed and keeps every property of
    its books that is kept by the calls. *)
Lemma after_sequence_all json_dumps P c st :
  kept_by_calls P -> sequence_all P st -> sequence_all P (after json_dumps c st).
Proof.
  intros [Hnew Hset] (bs & H & Hall). destruct c as [t a q|q|q| |q|q]; simpl.
  - destruct (List.Exists_dec (fun b => isbn b = VStr q) bs
                (fun b => value_str_dec (isbn b) q)) as [Hex|Hno].
    + rewrite (add_book_duplicate json_dumps t a q st bs H Hex). now exists bs.
    + destruct (add_book_fresh json_dumps t a q st bs H Hno) as (l & st' & -> & H' & _).
      eexists. split; [exact H'|]. apply Forall_app. split; [assumption|].
      constructor; [apply Hnew|constructor].
  - destruct (List.Exists_dec (fun b => isbn b = VStr q) bs
                (fun b => value_str_dec (isbn b) q)) as [Hex|Hno].
    + destruct (calls_found json_dumps q st bs H Hex)
        as (l & b & _ & _ & _ & Hin & _ & _ & H1 & H2 & _).
      destruct (value_str_dec (status b) "issued") as [Hs|Hs].
      * rewrite (H1 Hs). now exists bs.
      * destruct (H2 Hs) as (st1 & bs1 & _ & Hb1 & Hrel & ->).
        exists bs1. split; [exact Hb1|].
        apply (Forall_old_or_new P bs bs1 (set_status (VStr "issued") b) Hall);
          [|assumption].
        apply Hset. rewrite Forall_forall in Hall. apply Hall.
        now apply list_elem_of_In.
    + destruct (calls_not_found json_dumps q st bs H Hno) as [-> _]. now exists bs.
  - destruct (List.Exists_dec (fun b => isbn b = VStr q) bs
                (fun b => value_str_dec (isbn b) q)) as [Hex|Hno].
    + destruct (calls_found json_dumps q st bs H Hex)
        as (l & b & _ & _ & _ & Hin & _ & _ & _ & _ & H1 & H2).
      destruct (value_str_dec (status b) "available") as [Hs|Hs].
      * rewrite (H1 Hs). now exists bs.
      * destruct (H2 Hs) as (st1 & bs1 & _ & Hb1 & Hrel & ->).
        exists bs1. split; [exact Hb1|].
        apply (Forall_old_or_new P bs bs1 (set_status (VStr "available") b) Hall);
          [|assumption].
        apply Hset. rewrite Forall_forall in Hall. apply Hall.
        now apply list_elem_of_In.
    + destruct (calls_not_found json_dumps q st bs H Hno) as [_ ->]. now exists bs.
  - destruct (display_all_spec st bs H) as (r & st' & -> & _ & H' & _). now exists bs.
  - destruct (search_by_title q st) as [r st'] eqn:E.
    apply search_by_title_frame in E as (Hb & Hs & _ & Hl).
    exists bs. split; [|assumption]. now apply (books_of_frame st).
  - destruct (search_by_isbn q st) as [r st'] eqn:E.
    apply search_by_isbn_frame in E as ->. now exists bs.
Qed.

Lemma reachable_sequence_all json_dumps json_loads P d st :
  kept_by_calls P ->
  Forall P (loaded_books json_loads (content d)) ->
  reachable json_dumps json_loads d st ->
  sequence_all P st.
Proof.
  intros HP Hload Hr. induction Hr as [|st c _ IH].
  - destruct (init_spec json_loads d) as (st & -> & _ & H).
    eexists. split; [exact H|assumption].
  - now apply after_sequence_all.
Qed.

(** Every reachable state is well formed: the inventory has its sequence
    of books. *)
Lemma reachable_well_formed json_dumps json_loads d st :
  reachable json_dumps json_loads d st -> exists bs, books_of st = Some bs.
Proof.
  intros Hr.
  destruct (reachable_sequence_all json_dumps json_loads (fun _ => True) d st)
    as (bs & H & _); eauto.
  - split; auto.
  - apply Forall_forall. auto.
Qed.


Lemma title_is_string_kept : kept_by_calls title_is_string.
Proof.
  split.
  - intros t a q. now exists t.
  - intros b Hb. split; exact Hb.
Qed.

(** When the titles the file gives are strings, so are the titles of the
    books in every reachable state: [search_by_title] then never meets a
    title without [lower]. *)
Lemma reachable_titles json_dumps json_loads d st :
  Forall title_is_string (loaded_books json_loads (content d)) ->
  reachable json_dumps json_loads d st ->
  sequence_all title_is_string st.
Proof. apply reachable_sequence_all, title_is_string_kept. Qed.



(** ** The reference codec reads back what it writes *)

Lemma append_cons c (a b : string) : String c a +:+ b = String c (a +:+ b).
Proof. reflexivity. Qed.

Lemma append_assoc (a b c : string) : (a +:+ b) +:+ c = a +:+ b +:+ c.
Proof.
  induction a as [|x a IH]; [reflexivity|]. rewrite !append_cons. now f_equal.
Qed.

Lemma length_append (a b : string) :
  String.length (a +:+ b) = String.length a + String.length b.
Proof.
  induction a as [|x a IH]; [reflexivity|]. rewrite append_cons. simpl. now f_equal.
Qed.

(** Reading one escaped character gives the character back. *)
Lemma scan_string_escape_char c tail :
  RefJson.scan_string (RefJson.escape_char c +:+ tail) =
    '(t, r) ← RefJson.scan_string tail; Some (String c t, r).
Proof.
  destruct c as [[] [] [] [] [] [] [] []]; reflexivity.
Qed.

Lemma scan_string_escape s rest :
  RefJson.scan_string (RefJson.escape s +:+ String RefJson.dquote rest) = Some (s, rest).
Proof.
  induction s as [|c s IH]; [reflexivity|].
  simpl RefJson.escape. rewrite append_assoc, scan_string_escape_char, IH.
  reflexivity.
Qed.

Lemma parse_value_dquote f r :
  RefJson.parse_value (S f) (String RefJson.dquote r) =
    '(t, r') ← RefJson.scan_string r; Some (VStr t, r').
Proof. reflexivity. Qed.

Lemma parse_value_brace f r :
  RefJson.parse_value (S f) (String "{" r) =
    match RefJson.skip_ws r with
    | String "}" r' => Some (VDict [], r')
    | r' => '(ps, r'') ← RefJson.parse_members f r';
            Some (VDict (RefJson.dict_of_pairs ps), r'')
    end.
Proof. reflexivity. Qed.

Lemma parse_value_bracket f r :
  RefJson.parse_value (S f) (String "[" r) =
    match RefJson.skip_ws r with
    | String "]" r' => Some (VList [], r')
    | r' => '(vs, r'') ← RefJson.parse_elements f r'; Some (VList vs, r'')
    end.
Proof. reflexivity. Qed.

Lemma parse_members_dquote f r :
  RefJson.parse_members (S f) (String RefJson.dquote r) =
    '(k, r1) ← RefJson.scan_string r;
    match RefJson.skip_ws r1 with
    | String ":" r2 =>
        '(v, r3) ← RefJson.parse_value f (RefJson.skip_ws r2);
        match RefJson.skip_ws r3 with
        | String "}" r4 => Some ([(k, v)], r4)
        | String "," r4 =>
            '(ps, r5) ← RefJson.parse_members f (RefJson.skip_ws r4);
            Some ((k, v) :: ps, r5)
        | _ => None
        end
    | _ => None
    end.
Proof. reflexivity. Qed.

Lemma parse_elements_eq f s :
  RefJson.parse_elements (S f) s =
    '(v, r) ← RefJson.parse_value f s;
    match RefJson.skip_ws r with
    | String "]" r' => Some ([v], r')
    | String "," r' =>
        '(vs, r'') ← RefJson.parse_elements f (RefJson.skip_ws r'); Some (v :: vs, r'')
    | _ => None
    end.
Proof. reflexivity. Qed.

Lemma skip_ws_keep c r :
  RefJson.is_json_space c = false -> RefJson.skip_ws (String c r) = String c r.
Proof. intros H. simpl. now rewrite H. Qed.

Lemma skip_ws_space r : RefJson.skip_ws (String " " r) = RefJson.skip_ws r.
Proof. reflexivity. Qed.

Lemma skip_ws_spaces n r :
  RefJson.skip_ws (RefJson.spaces n +:+ r) = RefJson.skip_ws r.
Proof. induction n as [|n IH]; [reflexivity|]. simpl RefJson.spaces. rewrite append_cons. exact IH. Qed.

Lemma skip_ws_newline n r :
  RefJson.skip_ws (RefJson.newline n +:+ r) = RefJson.skip_ws r.
Proof. unfold RefJson.newline. rewrite append_cons. apply skip_ws_spaces. Qed.

Lemma member_text_eq k v tail :
  (RefJson.quote k +:+ ": " +:+ RefJson.quote v) +:+ tail = member_text k v tail.
Proof.
  unfold RefJson.quote, member_text.
  repeat (rewrite append_assoc || rewrite append_cons). reflexivity.
Qed.

Ltac option_step := cbv beta iota delta [mbind option_bind].

(** A member is read up to the text that follows its value. *)
Lemma parse_member_value f k v tail :
  RefJson.parse_members (S (S f)) (member_text k v tail) =
    match RefJson.skip_ws tail with
    | String "}" r4 => Some ([(k, VStr v)], r4)
    | String "," r4 =>
        '(ps, r5) ← RefJson.parse_members (S f) (RefJson.skip_ws r4);
        Some ((k, VStr v) :: ps, r5)
    | _ => None
    end.
Proof.
  unfold member_text. rewrite parse_members_dquote, scan_string_escape. option_step.
  rewrite (skip_ws_keep ":") by reflexivity. cbv beta iota.
  rewrite skip_ws_space, (skip_ws_keep RefJson.dquote) by reflexivity.
  rewrite parse_value_dquote, scan_string_escape. option_step.
  reflexivity.
Qed.

Lemma parse_members_last f k v n rest :
  RefJson.parse_members (S (S f)) (member_text k v (RefJson.newline n +:+ String "}" rest))
    = Some ([(k, VStr v)], rest).
Proof.
  rewrite parse_member_value, skip_ws_newline, (skip_ws_keep "}") by reflexivity.
  reflexivity.
Qed.

Lemma parse_members_more f k v n tail ps rest :
  RefJson.parse_members (S f) (String RefJson.dquote tail) = Some (ps, rest) ->
  RefJson.parse_members (S (S f))
    (member_text k v (String "," (RefJson.newline n +:+ String RefJson.dquote tail)))
    = Some ((k, VStr v) :: ps, rest).
Proof.
  intros H. rewrite parse_member_value, (skip_ws_keep ",") by reflexivity.
  cbv beta iota.
  rewrite skip_ws_newline, (skip_ws_keep RefJson.dquote), H by reflexivity.
  reflexivity.
Qed.

Lemma parse_value_object f r r' :
  RefJson.skip_ws r = String RefJson.dquote r' ->
  RefJson.parse_value (S f) (String "{" r) =
    '(ps, r'') ← RefJson.parse_members f (String RefJson.dquote r');
    Some (VDict (RefJson.dict_of_pairs ps), r'').
Proof. intros H. rewrite parse_value_brace, H. reflexivity. Qed.

Lemma parse_value_array f r r' :
  RefJson.skip_ws r = String "{" r' ->
  RefJson.parse_value (S f) (String "[" r) =
    '(vs, r'') ← RefJson.parse_elements f (String "{" r'); Some (VList vs, r'').
Proof. intros H. rewrite parse_value_bracket, H. reflexivity. Qed.

(** The record of a book is read back as its dict. *)
Lemma parse_value_record f t a i s rest :
  RefJson.parse_value (S (S (S (S (S (S f)))))) (record_text t a i s rest) =
    Some (VDict [("title", VStr t); ("author", VStr a);
                 ("isbn", VStr i); ("status", VStr s)], rest).
Proof.
  unfold record_text.
  assert (H4 : RefJson.parse_members (S (S f))
            (member_text "status" s (RefJson.newline 1 +:+ String "}" rest))
            = Some ([("status", VStr s)], rest)) by apply parse_members_last.
  pose proof (parse_members_more (S f) "isbn" i 2 _ _ _ H4) as H3.
  pose proof (parse_members_more (S (S f)) "author" a 2 _ _ _ H3) as H2.
  pose proof (parse_members_more (S (S (S f))) "title" t 2 _ _ _ H2) as H1.
  erewrite parse_value_object.
  - unfold member_text at 1 in H1. rewrite H1. reflexivity.
  - rewrite skip_ws_newline. unfold member_text at 1.
    now rewrite (skip_ws_keep RefJson.dquote).
Qed.

Lemma dumps_record b tail :
  string_fields b ->
  RefJson.dumps_at 1 (dict_of_book b) +:+ tail = book_text b tail.
Proof.
  intros (t & a & i & s & ->). unfold book_text, record_text, dict_of_book.
  simpl title. simpl author. simpl isbn. simpl status. simpl str_of.
  rewrite <- !member_text_eq.
  unfold RefJson.dumps_at, List.map, RefJson.join, fst, snd.
  repeat (rewrite append_assoc || rewrite append_cons). reflexivity.
Qed.

Lemma join_cons2 sep p q ps :
  RefJson.join sep (p :: q :: ps) = p +:+ sep +:+ RefJson.join sep (q :: ps).
Proof. reflexivity. Qed.

Lemma dumps_elements b bs tail :
  Forall string_fields (b :: bs) ->
  RefJson.join (String "," (RefJson.newline 1))
      (List.map (RefJson.dumps_at 1) (dict_of_book <$> (b :: bs)))
    +:+ RefJson.newline 0 +:+ String "]" tail
  = elements_text b bs tail.
Proof.
  revert b. induction bs as [|b' bs IH]; intros b H;
    inversion H as [|? ? Hb Hbs]; subst.
  - simpl. now apply dumps_record.
  - specialize (IH b' Hbs). simpl elements_text. rewrite <- IH.
    rewrite <- (dumps_record b _ Hb).
    change (dict_of_book <$> b :: b' :: bs)
      with (dict_of_book b :: (dict_of_book <$> b' :: bs)).
    change (List.map (RefJson.dumps_at 1) (dict_of_book b :: ?l))
      with (RefJson.dumps_at 1 (dict_of_book b) :: List.map (RefJson.dumps_at 1) l).
    change (dict_of_book <$> b' :: bs) with (dict_of_book b' :: (dict_of_book <$> bs)).
    change (List.map (RefJson.dumps_at 1) (dict_of_book b' :: ?l))
      with (RefJson.dumps_at 1 (dict_of_book b') :: List.map (RefJson.dumps_at 1) l).
    rewrite join_cons2.
    repeat (rewrite append_assoc || rewrite append_cons). reflexivity.
Qed.

Lemma dumps_snapshot_text b bs :
  Forall string_fields (b :: bs) ->
  RefJson.dumps (snapshot (b :: bs)) =
    String "[" (RefJson.newline 1 +:+ elements_text b bs EmptyString).
Proof.
  intros H. rewrite <- (dumps_elements b bs EmptyString H). reflexivity.
Qed.

Lemma dict_of_string_book t a i s :
  dict_of_book (mkBook (VStr t) (VStr a) (VStr i) (VStr s)) =
    VDict [("title", VStr t); ("author", VStr a); ("isbn", VStr i); ("status", VStr s)].
Proof. reflexivity. Qed.

Lemma parse_value_book f b rest :
  string_fields b ->
  RefJson.parse_value (6 + f) (book_text b rest) = Some (dict_of_book b, rest).
Proof.
  intros (t & a & i & s & ->). unfold book_text. simpl str_of.
  rewrite dict_of_string_book. apply parse_value_record.
Qed.

Lemma skip_ws_elements b bs tail :
  RefJson.skip_ws (elements_text b bs tail) = elements_text b bs tail.
Proof. destruct bs; reflexivity. Qed.

Lemma parse_elements_text bs : forall b f tail,
  Forall string_fields (b :: bs) ->
  RefJson.parse_elements (S (6 + length bs + f)) (elements_text b bs tail) =
    Some (dict_of_book <$> (b :: bs), tail).
Proof.
  induction bs as [|b' bs IH]; intros b f tail H;
    inversion H as [|? ? Hb Hbs]; subst; rewrite parse_elements_eq.
  - simpl elements_text. simpl length.
    rewrite (parse_value_book _ b _ Hb). option_step.
    rewrite skip_ws_newline, (skip_ws_keep "]") by reflexivity. reflexivity.
  - simpl elements_text.
    replace (6 + length (b' :: bs) + f) with (6 + (S (length bs + f))) by (simpl; lia).
    rewrite (parse_value_book _ b _ Hb). option_step.
    rewrite (skip_ws_keep ",") by reflexivity. cbv beta iota.
    rewrite skip_ws_newline, skip_ws_elements.
    replace (6 + S (length bs + f)) with (S (6 + length bs + f)) by lia.
    rewrite (IH b' f tail Hbs). reflexivity.
Qed.

Lemma length_record_text t a i s tail :
  6 + String.length tail <= String.length (record_text t a i s tail).
Proof.
  unfold record_text, member_text.
  repeat (rewrite length_append || rewrite append_cons || simpl String.length).
  lia.
Qed.

Lemma length_cons c s : String.length (String c s) = S (String.length s).
Proof. reflexivity. Qed.

Lemma length_elements_text b bs tail :
  6 + length bs <= String.length (elements_text b bs tail).
Proof.
  revert b. induction bs as [|b' bs IH]; intros b; simpl elements_text; unfold book_text.
  - match goal with |- _ <= String.length (record_text ?t ?a ?i ?s ?T) =>
      pose proof (length_record_text t a i s T) as H end.
    simpl length. lia.
  - match goal with |- _ <= String.length (record_text ?t ?a ?i ?s ?T) =>
      pose proof (length_record_text t a i s T) as H;
      remember (String.length (record_text t a i s T)) as L end.
    rewrite length_cons, length_append in H.
    specialize (IH b'). simpl length. lia.
Qed.

Lemma elements_text_head b bs tail :
  exists r, elements_text b bs tail = String "{" r.
Proof. destruct bs; eexists; reflexivity. Qed.

(** The reference codec reads back every snapshot of books whose
    attributes are strings. *)
Lemma loads_dumps_snapshot bs :
  Forall string_fields bs ->
  RefJson.loads (RefJson.dumps (snapshot bs)) = Some (snapshot bs).
Proof.
  destruct bs as [|b bs]; intros H; [reflexivity|].
  rewrite (dumps_snapshot_text b bs H). unfold RefJson.loads.
  rewrite (skip_ws_keep "[") by reflexivity.
  set (text := String "[" _).
  assert (Hlen : 8 + length bs <= 2 * String.length text + 2).
  { subst text. simpl String.length. rewrite length_append.
    pose proof (length_elements_text b bs EmptyString). lia. }
  replace (2 * String.length text + 2)
    with (S (S (6 + length bs + (2 * String.length text + 2 - 8 - length bs)))) by lia.
  subst text. destruct (elements_text_head b bs EmptyString) as (r & Hr).
  erewrite parse_value_array.
  - rewrite <- Hr, (parse_elements_text bs b _ EmptyString H). reflexivity.
  - now rewrite skip_ws_newline, skip_ws_elements.
Qed.

Lemma kept_last c : is_space c = false -> kept (String c EmptyString).
Proof. intros H. split; [|discriminate]. simpl. now rewrite H. Qed.

Lemma kept_cons c s : kept s -> kept (String c s).
Proof.
  intros [H Hne]. split; [|discriminate]. simpl. rewrite H.
  destruct s; [congruence|reflexivity].
Qed.

Lemma kept_app a s : kept s -> kept (a +:+ s).
Proof.
  intros H. induction a as [|c a IH]; [exact H|].
  rewrite append_cons. now apply kept_cons.
Qed.

Lemma kept_record t a i s tail : kept tail -> kept (record_text t a i s tail).
Proof.
  intros H. unfold record_text, member_text.
  repeat (apply kept_cons || apply kept_app). exact H.
Qed.

Lemma kept_elements b bs : kept (elements_text b bs EmptyString).
Proof.
  revert b. induction bs as [|b' bs IH]; intros b; simpl elements_text;
    unfold book_text; apply kept_record.
  - apply kept_app. now apply kept_last.
  - apply kept_cons, kept_app, IH.
Qed.

Lemma strip_dumps_snapshot bs :
  Forall string_fields bs ->
  strip (RefJson.dumps (snapshot bs)) = RefJson.dumps (snapshot bs).
Proof.
  destruct bs as [|b bs]; intros H; [reflexivity|].
  rewrite (dumps_snapshot_text b bs H). unfold strip.
  change (lstrip (String "[" ?r)) with (String "[" r).
  apply kept_cons, kept_app, kept_elements.
Qed.

(** The reference codec meets the contract of the round trip on every
    sequence of books whose attributes are strings. *)
Lemma ref_codec_reads_back bs :
  Forall string_fields bs ->
  reads_back RefJson.dumps RefJson.loads (snapshot bs).
Proof.
  intros H. unfold reads_back. rewrite (strip_dumps_snapshot bs H). split.
  - destruct bs as [|b bs]; [discriminate|].
    rewrite (dumps_snapshot_text b bs H). discriminate.
  - now apply loads_dumps_snapshot.
Qed.

(** With the reference codec the round trip needs no assumption on the
    codec: a sequence of books whose attributes are strings is read back
    from the file it was persisted to. *)
Lemma ref_codec_round_trip st bs :
  books_of st = Some bs ->
  writable (the_disk st) = true ->
  Forall string_fields bs ->
  exists st1 st2,
    _save RefJson.dumps st = (Ok tt, st1) /\
    LibraryInventory RefJson.loads (the_disk st1) = (Ok tt, st2) /\
    books_of st2 = Some bs.
Proof.
  intros H Hw Hs. pose proof (save_spec RefJson.dumps st bs H) as Hsave.
  set (st1 := set_disk _ st) in Hsave.
  destruct (init_spec RefJson.loads (the_disk st1)) as (st2 & H1 & _ & H3).
  exists st1, st2. split; [assumption|]. split; [assumption|]. rewrite H3.
  f_equal. subst st1. unfold disk_after_save. rewrite Hw. simpl.
  apply loaded_books_written. now apply ref_codec_reads_back.
Qed.

Lemma string_fields_kept : kept_by_calls string_fields.
Proof.
  split.
  - intros t a q. now exists t, a, q, "available".
  - intros b (t & a & i & s & ->). split.
    + now exists t, a, i, "issued".
    + now exists t, a, i, "available".
Qed.

Lemma string_fields_title b : string_fields b -> title_is_string b.
Proof. intros (t & a & i & s & ->). now exists t. Qed.

(** The books of the file [_save] wrote from books whose attributes are
    strings have strings for attributes again, so the stores a program
    builds from its own files hold such books only. *)
Lemma reachable_string_fields json_dumps json_loads d st :
  Forall string_fields (loaded_books json_loads (content d)) ->
  reachable json_dumps json_loads d st ->
  sequence_all string_fields st.
Proof. apply reachable_sequence_all, string_fields_kept. Qed.

(** * Further properties of the program *)

(** ** Persisting *)

(** X1: [_save] never raises, whatever the state; on a well-formed store it
    returns normally, leaves every object and [self.books] as they are and
    counts one persist; the file then holds the snapshot of the sequence
    when the disk takes the write, and is as before when it does not. *)
Theorem save_is_best_effort (json_dumps : value -> string) (st : state) :
  (forall e st', _save json_dumps st <> (Raise e, st')) /\
  (forall bs, books_of st = Some bs ->
     exists st',
       _save json_dumps st = (Ok tt, st') /\
       book_objs st' = book_objs st /\ list_objs st' = list_objs st /\
       self_books st' = self_books st /\ books_of st' = Some bs /\
       saves (the_disk st') = S (saves (the_disk st)) /\
       writable (the_disk st') = writable (the_disk st) /\
       (writable (the_disk st) = true ->
          content (the_disk st') = Text (json_dumps (snapshot bs))) /\
       (writable (the_disk st) = false ->
          content (the_disk st') = content (the_disk st))).
Proof.
  split.
  - intros e st'. apply save_never_raises.
  - intros bs H. eexists. split; [exact (save_spec json_dumps st bs H)|].
    unfold disk_after_save. simpl.
    destruct (writable (the_disk st)) eqn:Hw; simpl;
      repeat split; try assumption; try reflexivity; try discriminate.
Qed.

(** ** [Book] *)

(** X2: [is_available] changes nothing and answers whether the status is
    available.  For a book with one of the two statuses it tells which of
    the two transitions is open: [issue] succeeds exactly when it answers
    yes, [return_book] exactly when it answers no; after a successful
    [issue] it answers no and after a successful [return_book] yes. *)
Theorem is_available_spec (st : state) (l : loc) (b : Book) :
  book_objs st !! l = Some b ->
  exists yes,
    is_available l st = (Ok yes, st) /\
    (yes = true <-> status b = VStr "available") /\
    (status_ok b ->
       (yes = true <-> exists st', issue l st = (Ok tt, st')) /\
       (yes = false <-> exists st', return_book l st = (Ok tt, st'))) /\
    (forall st', issue l st = (Ok tt, st') -> is_available l st' = (Ok false, st')) /\
    (forall st', return_book l st = (Ok tt, st') -> is_available l st' = (Ok true, st')).
Proof.
  intros Hl. exists (py_eq_str (status b) "available").
  assert (Hav : forall s b0, book_objs s !! l = Some b0 ->
            is_available l s = (Ok (py_eq_str (status b0) "available"), s)).
  { intros s b0 H0. unfold is_available. now rewrite (bind_Ok _ _ _ _ _ (load_book_Some _ _ _ H0)). }
  split; [now apply Hav|]. split; [apply py_eq_str_true|]. split; [|split].
  - intros [Hs|Hs]; rewrite Hs; simpl; split; split.
    + intros _. eexists. apply (issue_not_issued _ _ _ Hl). rewrite Hs. discriminate.
    + reflexivity.
    + discriminate.
    + intros (st' & H). rewrite (return_available _ _ _ Hl Hs) in H. discriminate.
    + discriminate.
    + intros (st' & H). rewrite (issue_issued _ _ _ Hl Hs) in H. discriminate.
    + intros _. eexists. apply (return_not_available _ _ _ Hl). rewrite Hs. discriminate.
    + reflexivity.
  - intros st' H. destruct (value_str_dec (status b) "issued") as [Hs|Hs].
    + rewrite (issue_issued _ _ _ Hl Hs) in H. discriminate.
    + rewrite (issue_not_issued _ _ _ Hl Hs) in H. injection H as <-.
      exact (Hav _ _ (lookup_set_status st l b (VStr "issued") Hl)).
  - intros st' H. destruct (value_str_dec (status b) "available") as [Hs|Hs].
    + rewrite (return_available _ _ _ Hl Hs) in H. discriminate.
    + rewrite (return_not_available _ _ _ Hl Hs) in H. injection H as <-.
      exact (Hav _ _ (lookup_set_status st l b (VStr "available") Hl)).
Qed.

(** X3: [to_dict] followed by the constructor on its result makes a copy:
    a new [Book] object with the four attributes of the original, which is
    left as it is. *)
Theorem to_dict_then_Book (st : state) (l : loc) (b : Book) :
  book_objs st !! l = Some b ->
  exists l' st',
    (d <- to_dict l ;; Book_from d) st = (Ok l', st') /\
    l' <> l /\ book_objs st' !! l' = Some b /\ book_objs st' !! l = Some b /\
    book_objs st' = book_objs st ++ [b] /\
    list_objs st' = list_objs st /\ the_disk st' = the_disk st.
Proof.
  intros Hl. pose proof (lookup_lt_Some _ _ _ Hl) as Hlt.
  exists (length (book_objs st)), (set_book_objs (book_objs st ++ [b]) st).
  split; [|repeat split].
  - unfold to_dict, bind. rewrite (load_book_Some _ _ _ Hl). unfold ret.
    rewrite Book_from_spec. fold (dict_of_book b). now rewrite book_of_item_dict.
  - lia.
  - simpl. now rewrite list_lookup_middle.
  - simpl. now rewrite lookup_app_l.
Qed.

(** ** How the calls of the inventory compose *)

(** X4: after a successful [add_book] the isbn is taken: [search_by_isbn]
    of it returns the book just added, and another [add_book] with that
    isbn fails with DuplicateKeyError and changes nothing. *)
Theorem add_then_search (json_dumps : value -> string) (t a q t' a' : string)
    (st st' : state) (bs : list Book) (l : loc) :
  books_of st = Some bs ->
  add_book json_dumps t a q st = (Ok l, st') ->
  search_by_isbn q st' = (Ok (Some l), st') /\
  book_objs st' !! l = Some (mkBook (VStr t) (VStr a) (VStr q) (VStr "available")) /\
  add_book json_dumps t' a' q st' = (Raise DuplicateKeyError, st').
Proof.
  intros H Hadd.
  destruct (List.Exists_dec (fun b => isbn b = VStr q) bs
              (fun b => value_str_dec (isbn b) q)) as [Hex|Hno].
  { rewrite (add_book_duplicate json_dumps t a q st bs H Hex) in Hadd. discriminate. }
  destruct (add_book_fresh json_dumps t a q st bs H Hno)
    as (l0 & st0 & Hadd0 & Hbs' & _ & Hl & Hlast & _).
  rewrite Hadd0 in Hadd. injection Hadd as <- <-.
  set (new := mkBook (VStr t) (VStr a) (VStr q) (VStr "available")) in *.
  assert (Hex' : Exists (fun b => isbn b = VStr q) (bs ++ [new])).
  { apply Exists_app. right. now constructor. }
  split; [|split; [exact Hl|]].
  - destruct (search_by_isbn_spec q st0 _ Hbs') as (r & Hr & ls & Hls & Hm).
    pose proof Hbs' as Hb0. apply books_of_Some in Hb0 as (ls' & Hls' & Hall).
    assert (ls' = ls) as -> by congruence.
    destruct r as [l1|].
    + destruct (first_match_index q _ ls _ l1 Hall Hm) as (i & b & H1 & H2 & _ & H4 & _).
      assert (Hi : i = length bs).
      { destruct (Nat.lt_ge_cases i (length bs)) as [Hlt|Hge].
        - exfalso. apply Hno. rewrite lookup_app_l in H2 by assumption.
          apply Exists_exists. exists b. split; [|assumption].
          now apply list_elem_of_lookup_2 in H2.
        - apply lookup_lt_Some in H2. rewrite length_app in H2. simpl in H2. lia. }
      rewrite Hls in Hlast. simpl in Hlast.
      pose proof (Forall2_length _ _ _ Hall) as Hlen.
      rewrite length_app in Hlen. simpl in Hlen.
      rewrite last_lookup in Hlast.
      replace (pred (length ls)) with i in Hlast by lia.
      assert (l1 = l0) as -> by congruence. exact Hr.
    + exfalso. apply (first_match_None_iff q _ ls _ Hall) in Hm.
      apply Exists_exists in Hex' as (b & Hin & Hb).
      rewrite Forall_forall in Hm. exact (Hm b Hin Hb).
  - exact (add_book_duplicate json_dumps t' a' q st0 _ Hbs' Hex').
Qed.

(** The result of the scan depends on the isbn of the books only. *)
Lemma first_with_isbn_same_isbn q ls st st1 bs :
  Forall2 (fun l b => book_objs st !! l = Some b) ls bs ->
  (forall l b, book_objs st !! l = Some b ->
     exists b1, book_objs st1 !! l = Some b1 /\ isbn b1 = isbn b) ->
  fst (first_with_isbn q ls st1) = fst (first_with_isbn q ls st).
Proof.
  intros H Hsame. induction H as [|l b ls bs Hl _ IH]; [reflexivity|].
  destruct (Hsame l b Hl) as (b1 & Hl1 & Hi). simpl.
  rewrite (bind_Ok _ _ _ _ _ (load_book_Some _ _ _ Hl)).
  rewrite (bind_Ok _ _ _ _ _ (load_book_Some _ _ _ Hl1)).
  rewrite Hi. destruct (py_eq_str (isbn b) q); [reflexivity|exact IH].
Qed.

(** A change of the status of one book, and of the disk, does not change
    what [search_by_isbn] finds. *)
Lemma search_after_status_change q st bs l b v d r :
  books_of st = Some bs -> book_objs st !! l = Some b ->
  search_by_isbn q st = (Ok r, st) ->
  let st1 := set_disk d (set_book_objs (<[l := set_status v b]> (book_objs st)) st) in
  search_by_isbn q st1 = (Ok r, st1).
Proof.
  intros H Hl Hs st1. apply books_of_Some in H as (ls & Hls & Hbs).
  assert (Hf : fst (first_with_isbn q ls st1) = fst (first_with_isbn q ls st)).
  { apply (first_with_isbn_same_isbn q ls st st1 bs Hbs).
    intros l0 b0 Hl0. subst st1. simpl. destruct (decide (l0 = l)) as [->|Hne].
    - exists (set_status v b). split.
      + apply list_lookup_insert_eq. now apply lookup_lt_Some in Hl.
      + assert (b0 = b) as -> by congruence. reflexivity.
    - exists b0. split; [|reflexivity]. rewrite list_lookup_insert_ne; auto. }
  unfold search_by_isbn, bind, get_self_books, load_list in *.
  change (list_objs st1 !! self_books st1) with (list_objs st !! self_books st).
  rewrite Hls in *.
  destruct (first_with_isbn q ls st1) as [r1 s1] eqn:E1.
  pose proof (first_with_isbn_frame _ _ _ _ _ E1) as ->.
  rewrite Hs in Hf. simpl in Hf. now subst r1.
Qed.

(** X5: on the inventory, [issue_book] followed by [return_book] for the
    same isbn brings a book that was available back: both calls succeed
    and the Book objects, the list objects and the sequence are as before
    the two calls; only the disk has seen two persists. *)
Theorem issue_then_return (json_dumps : value -> string) (q : string)
    (st : state) (bs : list Book) (l : loc) (b : Book) :
  books_of st = Some bs ->
  search_by_isbn q st = (Ok (Some l), st) ->
  book_objs st !! l = Some b ->
  status b = VStr "available" ->
  exists st1 st2,
    issue_book json_dumps q st = (Ok tt, st1) /\
    return_book_by_isbn json_dumps q st1 = (Ok tt, st2) /\
    book_objs st2 = book_objs st /\ list_objs st2 = list_objs st /\
    self_books st2 = self_books st /\ books_of st2 = Some bs /\
    saves (the_disk st2) = S (S (saves (the_disk st))).
Proof.
  intros H Hs Hl Hst.
  assert (Hni : status b <> VStr "issued") by (rewrite Hst; discriminate).
  pose proof (issue_not_issued _ _ _ Hl Hni) as Hi.
  destruct (status_change_then_save json_dumps _ st bs l b _ H Hl Hi)
    as (st1' & bs1 & Hi' & Hbs1 & _ & Hsave).
  rewrite Hi in Hi'. injection Hi' as <-.
  set (st1' := set_book_objs _ st) in *.
  set (st1 := set_disk _ st1') in Hsave.
  assert (Hib : issue_book json_dumps q st = (Ok tt, st1)).
  { unfold issue_book. now rewrite (bind_Ok _ _ _ _ _ Hs). }
  pose proof (search_after_status_change q st bs l b (VStr "issued")
                (the_disk st1) (Some l) H Hl Hs) as Hs1.
  simpl in Hs1. fold st1' in Hs1. fold st1 in Hs1.
  assert (Hl1 : book_objs st1 !! l = Some (set_status (VStr "issued") b)).
  { exact (lookup_set_status st l b _ Hl). }
  assert (Hna : status (set_status (VStr "issued") b) <> VStr "available") by discriminate.
  pose proof (return_not_available _ _ _ Hl1 Hna) as Hr.
  assert (Hback : set_status (VStr "available") (set_status (VStr "issued") b) = b).
  { destruct b. simpl in *. now subst. }
  rewrite Hback in Hr.
  assert (Hobjs : <[l := b]> (book_objs st1) = book_objs st).
  { subst st1 st1'. simpl. rewrite list_insert_insert_eq. now apply list_insert_id. }
  rewrite Hobjs in Hr.
  assert (Hbs2 : books_of (set_book_objs (book_objs st) st1) = Some bs) by exact H.
  exists st1, (set_disk (disk_after_save (json_dumps (snapshot bs)) (the_disk st1))
                 (set_book_objs (book_objs st) st1)).
  split; [exact Hib|]. split.
  - unfold return_book_by_isbn. rewrite (bind_Ok _ _ _ _ _ Hs1).
    rewrite (bind_Ok _ _ _ _ _ Hr). exact (save_spec json_dumps _ _ Hbs2).
  - repeat split; try reflexivity; try exact H.
    subst st1. unfold disk_after_save. simpl.
    destruct (writable (the_disk st)); reflexivity.
Qed.

(** What a successful [issue_book] or [return_book] of the inventory did:
    it found a book, changed its status and persisted. *)
Lemma status_call_Ok json_dumps (m : loc -> M unit) q st bs st1 v :
  books_of st = Some bs ->
  (forall l b, book_objs st !! l = Some b ->
     m l st = (Raise (ValueError ("Book is already " +:+ v +:+ ".")), st) \/
     m l st = (Ok tt, set_book_objs (<[l := set_status (VStr v) b]> (book_objs st)) st)) ->
  (found <- search_by_isbn q ;;
   match found with
   | None => raise NotFoundError
   | Some book => m book ;;; _save json_dumps
   end) st = (Ok tt, st1) ->
  exists l b bs1,
    search_by_isbn q st = (Ok (Some l), st) /\ book_objs st !! l = Some b /\
    books_of st1 = Some bs1 /\
    st1 = set_disk (disk_after_save (json_dumps (snapshot bs1)) (the_disk st))
            (set_book_objs (<[l := set_status (VStr v) b]> (book_objs st)) st).
Proof.
  intros H Hm Hcall.
  destruct (search_by_isbn_spec q st bs H) as (r & Hr & ls & Hls & Hfm).
  rewrite (bind_Ok _ _ _ _ _ Hr) in Hcall. destruct r as [l|]; [|discriminate].
  pose proof H as H0. apply books_of_Some in H0 as (ls' & Hls' & Hbs).
  assert (ls' = ls) as -> by congruence.
  destruct (first_match_index q _ ls bs l Hbs Hfm) as (i & b & _ & _ & Hl & _).
  destruct (Hm l b Hl) as [Hraise|Hok].
  { rewrite (bind_Raise _ _ _ _ _ Hraise) in Hcall. discriminate. }
  destruct (status_change_then_save json_dumps _ st bs l b _ H Hl Hok)
    as (st1' & bs1 & Hok' & Hbs1 & _ & Hsave).
  rewrite Hok in Hok'. injection Hok' as <-.
  rewrite Hsave in Hcall. injection Hcall as <-.
  exists l, b, bs1. auto.
Qed.

Lemma issue_cases st l b :
  book_objs st !! l = Some b ->
  issue l st = (Raise (ValueError ("Book is already " +:+ "issued" +:+ ".")), st) \/
  issue l st = (Ok tt, set_book_objs (<[l := set_status (VStr "issued") b]> (book_objs st)) st).
Proof.
  intros Hl. destruct (value_str_dec (status b) "issued") as [Hs|Hs].
  - left. exact (issue_issued _ _ _ Hl Hs).
  - right. exact (issue_not_issued _ _ _ Hl Hs).
Qed.

Lemma return_cases st l b :
  book_objs st !! l = Some b ->
  return_book l st = (Raise (ValueError ("Book is already " +:+ "available" +:+ ".")), st) \/
  return_book l st =
    (Ok tt, set_book_objs (<[l := set_status (VStr "available") b]> (book_objs st)) st).
Proof.
  intros Hl. destruct (value_str_dec (status b) "available") as [Hs|Hs].
  - left. exact (return_available _ _ _ Hl Hs).
  - right. exact (return_not_available _ _ _ Hl Hs).
Qed.

(** X6: on the inventory, a call repeated after it succeeded fails: after a
    successful [issue_book] another [issue_book] for the isbn fails with
    InvalidStateError and changes nothing, while [return_book] for it
    succeeds; and the same with the two exchanged. *)
Theorem status_call_twice (json_dumps : value -> string) (q : string)
    (st st1 : state) (bs : list Book) :
  books_of st = Some bs ->
  (issue_book json_dumps q st = (Ok tt, st1) ->
     issue_book json_dumps q st1 = (Raise AlreadyIssued, st1) /\
     exists st2, return_book_by_isbn json_dumps q st1 = (Ok tt, st2)) /\
  (return_book_by_isbn json_dumps q st = (Ok tt, st1) ->
     return_book_by_isbn json_dumps q st1 = (Raise AlreadyAvailable, st1) /\
     exists st2, issue_book json_dumps q st1 = (Ok tt, st2)).
Proof.
  intros H. split; intros Hcall.
  - destruct (status_call_Ok json_dumps issue q st bs st1 "issued" H (issue_cases st) Hcall)
      as (l & b & bs1 & Hs & Hl & Hbs1 & ->).
    pose proof (search_after_status_change q st bs l b (VStr "issued")
                  (disk_after_save (json_dumps (snapshot bs1)) (the_disk st))
                  (Some l) H Hl Hs) as Hs1. simpl in Hs1.
    set (st1 := set_disk _ _) in *.
    assert (Hl1 : book_objs st1 !! l = Some (set_status (VStr "issued") b))
      by exact (lookup_set_status st l b _ Hl).
    split.
    + unfold issue_book. rewrite (bind_Ok _ _ _ _ _ Hs1).
      apply bind_Raise. now apply (issue_issued _ _ _ Hl1).
    + assert (Hna : status (set_status (VStr "issued") b) <> VStr "available")
        by discriminate.
      destruct (status_change_then_save json_dumps _ st1 bs1 l _ _ Hbs1 Hl1
                  (return_not_available _ _ _ Hl1 Hna)) as (s & bs2 & _ & _ & _ & Hsave).
      eexists. unfold return_book_by_isbn. rewrite (bind_Ok _ _ _ _ _ Hs1). exact Hsave.
  - destruct (status_call_Ok json_dumps return_book q st bs st1 "available" H
                (return_cases st) Hcall)
      as (l & b & bs1 & Hs & Hl & Hbs1 & ->).
    pose proof (search_after_status_change q st bs l b (VStr "available")
                  (disk_after_save (json_dumps (snapshot bs1)) (the_disk st))
                  (Some l) H Hl Hs) as Hs1. simpl in Hs1.
    set (st1 := set_disk _ _) in *.
    assert (Hl1 : book_objs st1 !! l = Some (set_status (VStr "available") b))
      by exact (lookup_set_status st l b _ Hl).
    split.
    + unfold return_book_by_isbn. rewrite (bind_Ok _ _ _ _ _ Hs1).
      apply bind_Raise. now apply (return_available _ _ _ Hl1).
    + assert (Hna : status (set_status (VStr "available") b) <> VStr "issued")
        by discriminate.
      destruct (status_change_then_save json_dumps _ st1 bs1 l _ _ Hbs1 Hl1
                  (issue_not_issued _ _ _ Hl1 Hna)) as (s & bs2 & _ & _ & _ & Hsave).
      eexists. unfold issue_book. rewrite (bind_Ok _ _ _ _ _ Hs1). exact Hsave.
Qed.

(** ** What a call does to the sequence and to the disk *)

Lemma books_of_replace st bs l b b' :
  books_of st = Some bs -> book_objs st !! l = Some b ->
  exists bs1,
    books_of (set_book_objs (<[l := b']> (book_objs st)) st) = Some bs1 /\
    Forall2 (fun old new => new = old \/ (old = b /\ new = b')) bs bs1.
Proof.
  intros H Hl. apply books_of_Some in H as (ls & Hls & Hbs).
  exists (zip_with (fun l0 b0 => if decide (l0 = l) then b' else b0) ls bs). split.
  - eapply books_at_intro; [exact Hls|]. simpl.
    apply (Forall2_lookup_insert _ _ _ _ b' Hbs). now apply lookup_lt_Some in Hl.
  - clear Hls. induction Hbs as [|l0 b0 ls bs Hl0 _ IH]; simpl; constructor; [|exact IH].
    destruct (decide (l0 = l)) as [->|Hne]; [|now left].
    right. split; [congruence|reflexivity].
Qed.

Lemma status_call_effect json_dumps (m : loc -> M unit) q st bs v :
  books_of st = Some bs ->
  (forall l b, book_objs st !! l = Some b ->
     m l st = (Raise (ValueError ("Book is already " +:+ v +:+ ".")), st) \/
     m l st = (Ok tt, set_book_objs (<[l := set_status (VStr v) b]> (book_objs st)) st)) ->
  call_effect json_dumps bs st
    (snd ((found <- search_by_isbn q ;;
           match found with
           | None => raise NotFoundError
           | Some book => m book ;;; _save json_dumps
           end) st)).
Proof.
  intros H Hm.
  destruct (search_by_isbn_spec q st bs H) as (r & Hr & ls & Hls & Hfm).
  rewrite (bind_Ok _ _ _ _ _ Hr). destruct r as [l|]; [|left; auto].
  pose proof H as H0. apply books_of_Some in H0 as (ls' & Hls' & Hbs).
  assert (ls' = ls) as -> by congruence.
  destruct (first_match_index q _ ls bs l Hbs Hfm) as (i & b & _ & _ & Hl & _).
  destruct (Hm l b Hl) as [Hraise|Hok].
  { rewrite (bind_Raise _ _ _ _ _ Hraise). left. auto. }
  destruct (books_of_replace st bs l b (set_status (VStr v) b) H Hl) as (bs1 & Hbs1 & Hrel).
  rewrite (bind_Ok _ _ _ _ _ Hok), (save_spec json_dumps _ _ Hbs1).
  right. exists bs1. split; [exact Hbs1|]. split; [reflexivity|].
  right. now exists b, v.
Qed.

Lemma after_effect json_dumps c st bs :
  books_of st = Some bs -> call_effect json_dumps bs st (after json_dumps c st).
Proof.
  intros H. destruct c as [t a q|q|q| |q|q]; simpl.
  - destruct (List.Exists_dec (fun b => isbn b = VStr q) bs
                (fun b => value_str_dec (isbn b) q)) as [Hex|Hno].
    + rewrite (add_book_duplicate json_dumps t a q st bs H Hex). left. auto.
    + destruct (add_book_fresh json_dumps t a q st bs H Hno)
        as (l & st' & -> & H' & _ & _ & _ & _ & Hd).
      right. eexists. split; [exact H'|]. split; [exact Hd|]. left. now exists t, a, q.
  - exact (status_call_effect json_dumps issue q st bs "issued" H (issue_cases st)).
  - exact (status_call_effect json_dumps return_book q st bs "available" H (return_cases st)).
  - destruct (display_all_spec st bs H) as (r & st' & -> & _ & H' & Hd & _). left. auto.
  - destruct (search_by_title q st) as [r st'] eqn:E.
    apply search_by_title_frame in E as (Hb & Hs & Hd & Hl).
    left. split; [now apply (books_of_frame st)|exact Hd].
  - destruct (search_by_isbn q st) as [r st'] eqn:E.
    apply search_by_isbn_frame in E as ->. left. auto.
Qed.

(** ** Invariants of the reachable states *)

Lemma reachable_in_sync json_dumps json_loads d st :
  writable d = true ->
  reachable json_dumps json_loads d st ->
  in_sync json_dumps json_loads d st.
Proof.
  intros Hw Hr. induction Hr as [|st c _ IH].
  - destruct (init_spec json_loads d) as (st & -> & Hd & H). simpl.
    split; [now rewrite Hd|]. eexists. split; [exact H|]. left. now rewrite Hd.
  - destruct IH as (Hw' & bs & H & Hsync).
    destruct (after_effect json_dumps c st bs H) as [[H' Hd]|(bs' & H' & Hd & _)].
    + split; [now rewrite Hd|]. exists bs. split; [exact H'|]. now rewrite Hd.
    + unfold disk_after_save in Hd. rewrite Hw' in Hd.
      split; [now rewrite Hd|]. exists bs'. split; [exact H'|]. right. now rewrite Hd.
Qed.

(** X7: nothing is lost at a restart.  In every state a program reaches on
    a disk that takes the writes, constructing a new store on the file as
    it is then gives the sequence of that state, provided the codec reads
    back the snapshot of the sequence. *)
Theorem restart_keeps_books (json_dumps : value -> string)
    (json_loads : string -> option value) (d : disk) (st : state) :
  writable d = true ->
  reachable json_dumps json_loads d st ->
  exists bs,
    books_of st = Some bs /\
    (reads_back json_dumps json_loads (snapshot bs) ->
     exists st2,
       LibraryInventory json_loads (the_disk st) = (Ok tt, st2) /\
       books_of st2 = Some bs).
Proof.
  intros Hw Hr.
  destruct (reachable_in_sync json_dumps json_loads d st Hw Hr) as (_ & bs & H & Hsync).
  exists bs. split; [exact H|]. intros Hrb.
  destruct (init_spec json_loads (the_disk st)) as (st2 & H1 & _ & H3).
  exists st2. split; [exact H1|]. rewrite H3. f_equal.
  destruct Hsync as [[-> ->]| ->]; [reflexivity|].
  now apply loaded_books_written.
Qed.

(** X8: the isbn stays a key.  When the books loaded from the file have
    pairwise different isbn (in particular when there is no file), so have
    the books of every reachable state. *)
Theorem isbn_stays_unique (json_dumps : value -> string)
    (json_loads : string -> option value) (d : disk) (st : state) :
  NoDup (isbn <$> loaded_books json_loads (content d)) ->
  reachable json_dumps json_loads d st ->
  exists bs,
    books_of st = Some bs /\ NoDup (isbn <$> bs) /\
    forall i j b b',
      bs !! i = Some b -> bs !! j = Some b' -> isbn b = isbn b' -> i = j.
Proof.
  intros Hnd Hr.
  assert (Hinv : exists bs, books_of st = Some bs /\ NoDup (isbn <$> bs)).
  { induction Hr as [|st c _ IH].
    - destruct (init_spec json_loads d) as (st & -> & _ & H). eauto.
    - destruct IH as (bs & H & Hbs).
      destruct (after_effect json_dumps c st bs H)
        as [[H' _]|(bs' & H' & _ & [(t & a & q & Hno & ->)|(b & v & Hrel)])].
      + eauto.
      + eexists. split; [exact H'|]. rewrite fmap_app. apply NoDup_app.
        split; [exact Hbs|]. split; [|apply NoDup_singleton].
        intros x Hx Hx'. apply list_elem_of_singleton in Hx'. subst x.
        apply Hno. apply list_elem_of_fmap in Hx as (b & Hb & Hin).
        apply Exists_exists. exists b. split; [exact Hin|]. exact (eq_sym Hb).
      + exists bs'. split; [exact H'|].
        assert (isbn <$> bs' = isbn <$> bs) as ->; [|exact Hbs].
        clear H' Hbs H. induction Hrel as [|old new bs bs' Hx _ IHrel]; [reflexivity|].
        simpl. f_equal; [|exact IHrel]. destruct Hx as [->|[-> ->]]; reflexivity. }
  destruct Hinv as (bs & H & Hbs). exists bs. split; [exact H|]. split; [exact Hbs|].
  intros i j b b' Hi Hj Heq.
  apply (NoDup_lookup _ i j (isbn b) Hbs).
  - now rewrite list_lookup_fmap, Hi.
  - now rewrite list_lookup_fmap, Hj, Heq.
Qed.

(** ** [_load], once more *)

Lemma book_of_item_fields item b :
  book_of_item item = Some b ->
  exists kw, item = VDict kw /\
    lookup_key "title" kw = Some (title b) /\
    lookup_key "author" kw = Some (author b) /\
    lookup_key "isbn" kw = Some (isbn b) /\
    status b = default (VStr "available") (lookup_key "status" kw).
Proof.
  destruct item as [| | | | | |kw]; try discriminate. simpl.
  destruct (forallb _ _); [|discriminate].
  destruct (lookup_key "title" kw) eqn:E1; [|discriminate].
  destruct (lookup_key "author" kw) eqn:E2; [|discriminate].
  destruct (lookup_key "isbn" kw) eqn:E3; [|discriminate].
  intros H. injection H as <-. exists kw. simpl. auto.
Qed.

(** X9: [_load] is all or nothing, and replaces what the store held.  It
    always returns normally and leaves the disk and the existing Book
    objects as they are; the new sequence is determined by the file alone:
    when the file decodes to an array, either every element gave a book,
    with the attributes the element gives (and the default status when it
    gives none), in the order of the array, or the store is empty. *)
Theorem load_all_or_nothing (json_loads : string -> option value) (st : state) :
  exists st' bs,
    _load json_loads st = (Ok tt, st') /\
    books_of st' = Some bs /\ the_disk st' = the_disk st /\
    (exists new, book_objs st' = book_objs st ++ new) /\
    bs = loaded_books json_loads (content (the_disk st)) /\
    forall raw items,
      content (the_disk st) = Text raw ->
      json_loads (strip raw) = Some (VList items) ->
      bs = [] \/
      Forall2 (fun item b =>
                 exists kw, item = VDict kw /\
                   lookup_key "title" kw = Some (title b) /\
                   lookup_key "author" kw = Some (author b) /\
                   lookup_key "isbn" kw = Some (isbn b) /\
                   status b = default (VStr "available") (lookup_key "status" kw))
              items bs.
Proof.
  destruct (load_spec json_loads st) as (st' & H1 & H2 & H3 & H4).
  exists st', (loaded_books json_loads (content (the_disk st))).
  split; [exact H1|]. split; [exact H3|]. split; [exact H2|]. split; [exact H4|].
  split; [reflexivity|].
  intros raw items Hc Hj. rewrite Hc. unfold loaded_books.
  destruct (strip raw) as [|c text]; [now left|].
  rewrite Hj. simpl. unfold books_of_document. simpl.
  destruct (mapM book_of_item items) as [bs|] eqn:E; [|now left].
  right. simpl. apply mapM_Some in E.
  eapply Forall2_impl; [exact E|]. intros item b Hb. now apply book_of_item_fields.
Qed.

(** ** The menu *)

Lemma triple_bind {A B} pre (m : CLI A) mid (k : A -> CLI B) post fin :
  triple pre m mid fin ->
  (forall a, triple (mid a) (k a) post fin) ->
  triple pre (cli_bind m k) post fin.
Proof.
  intros Hm Hk w Hw. unfold cli_bind. specialize (Hm w Hw).
  destruct (m w) as [[a|e] w']; [|exact Hm]. exact (Hk a w' Hm).
Qed.

Lemma triple_ret {A} (a : A) (pre : world -> Prop) post fin :
  (forall w, pre w -> post a w) -> triple pre (cli_ret a) post fin.
Proof. intros H w Hw. simpl. auto. Qed.

Lemma triple_weaken {A} (pre pre' : world -> Prop) (m : CLI A)
    (post post' : A -> world -> Prop) (fin fin' : ending -> world -> Prop) :
  triple pre m post fin ->
  (forall w, pre' w -> pre w) ->
  (forall a w, post a w -> post' a w) ->
  (forall e w, fin e w -> fin' e w) ->
  triple pre' m post' fin'.
Proof.
  intros Hm H1 H2 H3 w Hw. specialize (Hm w (H1 w Hw)).
  destruct (m w) as [[a|e] w']; auto.
Qed.

Lemma steps_refl json_dumps st : steps json_dumps st st.
Proof. now exists []. Qed.

Lemma steps_call json_dumps st st' c :
  steps json_dumps st st' -> steps json_dumps st (after json_dumps c st').
Proof. intros (cs & ->). exists (cs ++ [c]). now rewrite fold_left_app. Qed.

Lemma evolves_refl json_dumps w : evolves json_dumps w w.
Proof.
  split; [apply steps_refl|]. split; [now exists []|].
  exists []. split; [now rewrite app_nil_r|constructor].
Qed.

(** The world may change its inventory by a call, drop input from the
    front and add good output. *)
Lemma evolves_step json_dumps w0 w w' :
  evolves json_dumps w0 w ->
  (inv w' = inv w \/ exists c, inv w' = after json_dumps c (inv w)) ->
  (exists used, stdin w = used ++ stdin w') ->
  (exists new, stdout w' = stdout w ++ new /\ Forall ok_output new) ->
  evolves json_dumps w0 w'.
Proof.
  intros (Hs & (u & Hu) & (n & Hn & Hok)) Hinv (u' & Hu') (n' & Hn' & Hok').
  split; [|split].
  - destruct Hinv as [->|(c & ->)]; [exact Hs|now apply steps_call].
  - exists (u ++ u'). now rewrite Hu, Hu', app_assoc.
  - exists (n ++ n'). split; [now rewrite Hn', Hn, app_assoc|now apply Forall_app].
Qed.

Section MenuProofs.

Variable json_dumps : value -> string.
Variable P : Book -> Prop.
Hypothesis P_kept : kept_by_calls P.
Variable w0 : world.

Local Abbreviation I := (turn_inv json_dumps P w0).

Lemma turn_inv_step c w w' :
  I c w ->
  (inv w' = inv w \/ exists k, inv w' = after json_dumps k (inv w)) ->
  (exists used, stdin w = used ++ stdin w') ->
  (exists new, stdout w' = stdout w ++ new /\ Forall ok_output new) ->
  I c w'.
Proof.
  intros (He & Hseq & Hc) Hinv Hin Hout. split; [|split].
  - exact (evolves_step json_dumps w0 w w' He Hinv Hin Hout).
  - destruct Hinv as [->|(k & ->)]; [exact Hseq|].
    now apply after_sequence_all.
  - intros Hcons. specialize (Hc Hcons). destruct Hin as (u & Hu).
    rewrite Hu, length_app in Hc. lia.
Qed.

(** Printing keeps the invariant and every property of the inventory. *)
Lemma triple_print c (K : state -> Prop) text fin :
  triple (fun w => I c w /\ K (inv w)) (print text)
         (fun _ w => I c w /\ K (inv w)) fin.
Proof.
  intros w [Hw HK]. simpl. split; [|exact HK].
  apply (turn_inv_step c w); [exact Hw|now left|now exists []|].
  exists [Printed text]. split; [reflexivity|]. repeat constructor.
Qed.

Lemma triple_print_all c (K : state -> Prop) texts fin :
  triple (fun w => I c w /\ K (inv w)) (print_all texts)
         (fun _ w => I c w /\ K (inv w)) fin.
Proof.
  induction texts as [|t ts IH]; simpl.
  - now apply triple_ret.
  - eapply triple_bind; [apply triple_print|]. intros ?. exact IH.
Qed.

(** [safe_input] reads a line or exits with status 0. *)
Lemma triple_safe_input c (K : state -> Prop) prompt :
  triple (fun w => I c w /\ K (inv w)) (safe_input prompt)
         (fun _ w => I true w /\ K (inv w))
         (fun e w => I c w /\ e = Exited 0).
Proof.
  intros w [Hw HK]. unfold safe_input.
  destruct (stdin w) as [|[line|] rest] eqn:Hin; simpl.
  - split; [|reflexivity]. apply (turn_inv_step c w); [exact Hw|now left| |].
    + exists []. simpl. now rewrite Hin.
    + exists [Prompted prompt; Printed (line_feed +:+ "Exiting.")].
      split; [simpl; now rewrite <- app_assoc|]. repeat constructor.
  - split; [|exact HK]. destruct Hw as (He & Hseq & Hc). split; [|split].
    + apply (evolves_step json_dumps w0 w); [exact He|now left| |].
      * exists [Typed line]. simpl. now rewrite Hin.
      * eexists. split; [reflexivity|]. repeat constructor.
    + exact Hseq.
    + intros _. simpl. destruct He as (_ & (u & Hu) & _).
      rewrite Hu, Hin, length_app. simpl. lia.
  - split; [|reflexivity]. apply (turn_inv_step c w); [exact Hw|now left| |].
    + exists [CtrlC]. simpl. now rewrite Hin.
    + exists [Prompted prompt; Printed (line_feed +:+ "Exiting.")].
      split; [simpl; now rewrite <- app_assoc|]. repeat constructor.
Qed.

Lemma turn_inv_false c w : I c w -> I false w.
Proof. intros (He & Hs & _). split; [exact He|]. split; [exact Hs|discriminate]. Qed.

(** A call made inside [try]: its error is printed. *)
Lemma triple_attempt {A} c (m : M A) k done fin :
  (forall st, sequence_all P st ->
     snd (m st) = after json_dumps k st /\
     ((exists x, fst (m st) = Ok x) \/
      (exists e, fst (m st) = Raise e /\ business_error e))) ->
  triple (I c) (attempt m done) (fun _ w => I c w) fin.
Proof.
  intros Hm w Hw. pose proof Hw as (_ & Hseq & _).
  destruct (Hm _ Hseq) as [Hst Hres]. unfold attempt.
  destruct (m (inv w)) as [[x|e|] st]; simpl in Hst, Hres.
  - apply (turn_inv_step c w); [exact Hw|right; now exists k|now exists []|].
    exists [Printed done]. split; [reflexivity|]. repeat constructor.
  - destruct Hres as [(x & Hx)|(e' & He' & Hb)]; [discriminate|].
    injection He' as ->.
    apply (turn_inv_step c w); [exact Hw|right; now exists k|now exists []|].
    exists [PrintedError e']. split; [reflexivity|]. constructor; [exact Hb|constructor].
  - destruct Hres as [(x & Hx)|(e' & He' & _)]; discriminate.
Qed.

End MenuProofs.

Lemma add_book_outcome json_dumps P t a q st :
  sequence_all P st ->
  snd (add_book json_dumps t a q st) = after json_dumps (CallAdd t a q) st /\
  ((exists x, fst (add_book json_dumps t a q st) = Ok x) \/
   (exists e, fst (add_book json_dumps t a q st) = Raise e /\ business_error e)).
Proof.
  intros (bs & Hbs & _). split; [reflexivity|].
  destruct (List.Exists_dec (fun b => isbn b = VStr q) bs
              (fun b => value_str_dec (isbn b) q)) as [Hex|Hno].
  - right. rewrite (add_book_duplicate json_dumps t a q st bs Hbs Hex).
    exists DuplicateKeyError. split; [reflexivity|now left].
  - left. destruct (add_book_fresh json_dumps t a q st bs Hbs Hno) as (l & st' & -> & _).
    now exists l.
Qed.

Lemma issue_book_outcome json_dumps P q st :
  sequence_all P st ->
  snd (issue_book json_dumps q st) = after json_dumps (CallIssue q) st /\
  ((exists x, fst (issue_book json_dumps q st) = Ok x) \/
   (exists e, fst (issue_book json_dumps q st) = Raise e /\ business_error e)).
Proof.
  intros (bs & Hbs & _). split; [reflexivity|].
  destruct (List.Exists_dec (fun b => isbn b = VStr q) bs
              (fun b => value_str_dec (isbn b) q)) as [Hex|Hno].
  - destruct (calls_found json_dumps q st bs Hbs Hex)
      as (l & b & _ & _ & _ & _ & _ & _ & Hi & Hn & _).
    destruct (value_str_dec (status b) "issued") as [Hs|Hs].
    + right. rewrite (Hi Hs). exists AlreadyIssued.
      split; [reflexivity|]. right. right. now left.
    + left. destruct (Hn Hs) as (st1 & bs1 & _ & _ & _ & ->). now exists tt.
  - right. rewrite (proj1 (calls_not_found json_dumps q st bs Hbs Hno)).
    exists NotFoundError. split; [reflexivity|]. right. now left.
Qed.

Lemma return_book_outcome json_dumps P q st :
  sequence_all P st ->
  snd (return_book_by_isbn json_dumps q st) = after json_dumps (CallReturn q) st /\
  ((exists x, fst (return_book_by_isbn json_dumps q st) = Ok x) \/
   (exists e, fst (return_book_by_isbn json_dumps q st) = Raise e /\ business_error e)).
Proof.
  intros (bs & Hbs & _). split; [reflexivity|].
  destruct (List.Exists_dec (fun b => isbn b = VStr q) bs
              (fun b => value_str_dec (isbn b) q)) as [Hex|Hno].
  - destruct (calls_found json_dumps q st bs Hbs Hex)
      as (l & b & _ & _ & _ & _ & _ & _ & _ & _ & Hi & Hn).
    destruct (value_str_dec (status b) "available") as [Hs|Hs].
    + right. rewrite (Hi Hs). exists AlreadyAvailable.
      split; [reflexivity|]. right. right. now right.
    + left. destruct (Hn Hs) as (st1 & bs1 & _ & _ & _ & ->). now exists tt.
  - right. rewrite (proj2 (calls_not_found json_dumps q st bs Hbs Hno)).
    exists NotFoundError. split; [reflexivity|]. right. now left.
Qed.

(** *** The calls that read *)

Lemma Book_str_spec st l b :
  book_objs st !! l = Some b -> Book_str l st = (Ok (book_line b), st).
Proof.
  intros H. unfold Book_str. now rewrite (bind_Ok _ _ _ _ _ (load_book_Some _ _ _ H)).
Qed.

Lemma load_new_list st xs :
  load_list (length (list_objs st)) (set_list_objs (list_objs st ++ [xs]) st) =
  (Ok xs, set_list_objs (list_objs st ++ [xs]) st).
Proof. unfold load_list. simpl. now rewrite list_lookup_middle. Qed.

(** [display_all] followed by the reading of the list it returned. *)
Lemma display_all_run st bs :
  books_of st = Some bs ->
  exists ls,
    Forall2 (fun l b => book_objs st !! l = Some b) ls bs /\
    display_all st = (Ok (length (list_objs st)), set_list_objs (list_objs st ++ [ls]) st) /\
    (r <- display_all ;; load_list r) st =
      (Ok ls, set_list_objs (list_objs st ++ [ls]) st).
Proof.
  intros H. apply books_of_Some in H as (ls & Hls & Hbs). exists ls.
  assert (Hd : display_all st =
               (Ok (length (list_objs st)), set_list_objs (list_objs st ++ [ls]) st)).
  { unfold display_all, bind at 1, get_self_books, bind at 1, load_list.
    now rewrite Hls. }
  split; [exact Hbs|]. split; [exact Hd|].
  rewrite (bind_Ok _ _ _ _ _ Hd). apply load_new_list.
Qed.

(** [search_by_title] followed by the reading of the list it returned, when
    the titles are strings. *)
Lemma search_by_title_run q st bs :
  books_of st = Some bs ->
  Forall title_is_string bs ->
  exists rs found,
    Forall2 (fun l b => book_objs st !! l = Some b) rs found /\
    selects (title_matches q) bs found /\
    (q = EmptyString -> found = bs) /\
    search_by_title q st =
      (Ok (length (list_objs st)), set_list_objs (list_objs st ++ [rs]) st) /\
    (r <- search_by_title q ;; load_list r) st =
      (Ok rs, set_list_objs (list_objs st ++ [rs]) st).
Proof.
  intros H Hstr. apply books_of_Some in H as (ls & Hls & Hbs).
  destruct (comprehension_titles q ls bs st Hbs Hstr) as (rs & bs' & Hc & Hrs & Hsel & Hall).
  exists rs, bs'.
  assert (Hd : search_by_title q st =
               (Ok (length (list_objs st)), set_list_objs (list_objs st ++ [rs]) st)).
  { unfold search_by_title, bind at 1, get_self_books, bind at 1, load_list.
    rewrite Hls, or_empty_id. fold (title_test (lower q)).
    now rewrite (bind_Ok _ _ _ _ _ Hc). }
  split; [exact Hrs|]. split; [exact Hsel|].
  split; [intros Hq; now apply Hall|]. split; [exact Hd|].
  rewrite (bind_Ok _ _ _ _ _ Hd). apply load_new_list.
Qed.

Lemma title_is_string_dec b : {title_is_string b} + {~ title_is_string b}.
Proof.
  unfold title_is_string. destruct (title b) as [| | | |t| |];
    try (right; intros (t' & Ht); discriminate).
  left. now exists t.
Qed.

(** *** Printing *)

Lemma world_eta w : mkWorld (inv w) (stdin w) (stdout w) = w.
Proof. now destruct w. Qed.

Lemma print_run text w :
  print text w = (Go tt, mkWorld (inv w) (stdin w) (stdout w ++ [Printed text])).
Proof. reflexivity. Qed.

Lemma print_all_run texts w :
  print_all texts w = (Go tt, mkWorld (inv w) (stdin w) (stdout w ++ (Printed <$> texts))).
Proof.
  revert w. induction texts as [|t ts IH]; intros w; simpl.
  - unfold cli_ret. now rewrite app_nil_r, world_eta.
  - unfold cli_bind. rewrite print_run, IH. simpl. now rewrite <- app_assoc.
Qed.

(** [for b in books: print(b)] writes the line of each book, in order. *)
Lemma print_books_run ls bs w :
  Forall2 (fun l b => book_objs (inv w) !! l = Some b) ls bs ->
  print_books ls w =
    (Go tt, mkWorld (inv w) (stdin w) (stdout w ++ (Printed <$> (book_line <$> bs)))).
Proof.
  revert bs w. induction ls as [|l ls IH]; intros bs w H.
  - apply Forall2_nil_inv_l in H as ->. simpl. unfold cli_ret.
    now rewrite app_nil_r, world_eta.
  - apply Forall2_cons_inv_l in H as (b & bs' & Hb & Hbs & ->). simpl.
    unfold cli_bind at 1, cli_bind at 1, invoke.
    rewrite (Book_str_spec _ _ _ Hb). unfold set_inv. rewrite world_eta, print_run.
    rewrite (IH bs'); [|exact Hbs]. simpl. now rewrite <- app_assoc.
Qed.

Lemma print_if_empty_run {A} (xs : list A) text w :
  print_if_empty xs text w =
    (Go tt, mkWorld (inv w) (stdin w)
              (stdout w ++ match xs with [] => [Printed text] | _ => [] end)).
Proof.
  destruct xs; simpl; [reflexivity|]. unfold cli_ret. now rewrite app_nil_r, world_eta.
Qed.

Lemma Forall_ok_printed texts : Forall ok_output (Printed <$> texts).
Proof. induction texts; constructor; simpl; auto. Qed.

Section TurnProofs.

Variable json_dumps : value -> string.
Variable P : Book -> Prop.
Hypothesis P_kept : kept_by_calls P.
Variable w0 : world.

Local Abbreviation I := (turn_inv json_dumps P w0).
Local Abbreviation fin := (fun (e : ending) (w : world) => I false w /\ turn_end P e).

Lemma I_step c w w' :
  I c w ->
  (inv w' = inv w \/ exists k, inv w' = after json_dumps k (inv w)) ->
  (exists used, stdin w = used ++ stdin w') ->
  (exists new, stdout w' = stdout w ++ new /\ Forall ok_output new) ->
  I c w'.
Proof. now apply turn_inv_step. Qed.

Lemma triple_input c prompt :
  triple (I c) (safe_input prompt) (fun _ w => I true w) fin.
Proof.
  eapply triple_weaken;
    [apply (triple_safe_input json_dumps P P_kept w0 c (fun _ => True))|..].
  - intros w Hw. now split.
  - intros a w [Hw _]. exact Hw.
  - intros e w [Hw ->]. split; [now apply (turn_inv_false _ _ _ c)|now left].
Qed.

Lemma triple_say c text :
  triple (I c) (print text) (fun _ w => I c w) fin.
Proof.
  eapply triple_weaken;
    [apply (triple_print json_dumps P P_kept w0 c (fun _ => True) text fin)|..].
  - intros w Hw. now split.
  - intros a w [Hw _]. exact Hw.
  - intros e w H. exact H.
Qed.

Lemma triple_try {A} c (m : M A) k done :
  (forall st, sequence_all P st ->
     snd (m st) = after json_dumps k st /\
     ((exists x, fst (m st) = Ok x) \/
      (exists e, fst (m st) = Raise e /\ business_error e))) ->
  triple (I c) (attempt m done) (fun _ w => I c w) fin.
Proof. apply (triple_attempt json_dumps P P_kept w0). Qed.

(** Option 4. *)
Lemma triple_view_all c :
  triple (I c)
    (books <~ invoke (r <- display_all ;; load_list r) ;;
     print_if_empty books "No books in catalog." ;;~
     print_books books ;;~
     cli_ret true)
    (fun _ w => I c w) fin.
Proof.
  intros w Hw. pose proof Hw as (_ & (bs & Hbs & _) & _).
  destruct (display_all_run _ _ Hbs) as (ls & Hls & Hd & Hrun).
  unfold cli_bind at 1, invoke. rewrite Hrun.
  unfold cli_bind at 1. rewrite print_if_empty_run.
  unfold cli_bind at 1. rewrite (print_books_run ls bs); [|exact Hls].
  apply (I_step c w); simpl.
  - exact Hw.
  - right. exists CallDisplay. simpl. now rewrite Hd.
  - now exists [].
  - eexists. split; [now rewrite <- app_assoc|].
    apply Forall_app. split; [|apply Forall_ok_printed].
    destruct ls; repeat constructor.
Qed.

(** Option 5, after the query was read. *)
Lemma triple_search_title c q :
  triple (I c)
    (results <~ invoke (r <- search_by_title q ;; load_list r) ;;
     print_if_empty results "No matches." ;;~
     print_books results ;;~
     cli_ret true)
    (fun _ w => I c w) fin.
Proof.
  intros w Hw. pose proof Hw as (_ & (bs & Hbs & HP) & _).
  destruct (List.Forall_dec title_is_string title_is_string_dec bs) as [Hstr|Hno].
  - destruct (search_by_title_run q _ _ Hbs Hstr) as (rs & found & Hrs & _ & _ & Hd & Hrun).
    unfold cli_bind at 1, invoke. rewrite Hrun.
    unfold cli_bind at 1. rewrite print_if_empty_run.
    unfold cli_bind at 1. rewrite (print_books_run rs found); [|exact Hrs].
    apply (I_step c w); simpl.
    + exact Hw.
    + right. exists (CallSearchTitle q). simpl. now rewrite Hd.
    + now exists [].
    + eexists. split; [now rewrite <- app_assoc|].
      apply Forall_app. split; [|apply Forall_ok_printed].
      destruct rs; repeat constructor.
  - pose proof (search_by_title_non_string q _ _ Hbs Hno) as Hd.
    unfold cli_bind at 1, invoke. rewrite (bind_Raise _ _ _ _ _ Hd).
    split.
    + apply (turn_inv_false json_dumps P w0 c), (I_step c w); simpl.
      * exact Hw.
      * now left.
      * now exists [].
      * exists []. split; [now rewrite app_nil_r|constructor].
    + right. split; [reflexivity|]. intros Hall. apply Hno.
      eapply Forall_impl; [exact HP|exact Hall].
Qed.

(** Option 6, after the ISBN was read. *)
Lemma triple_search_isbn c q :
  triple (I c)
    (b <~ invoke (search_by_isbn q) ;;
     match b with
     | None => print "Not found."
     | Some l => s <~ invoke (Book_str l) ;; print s
     end ;;~
     cli_ret true)
    (fun _ w => I c w) fin.
Proof.
  intros w Hw. pose proof Hw as (_ & (bs & Hbs & _) & _).
  assert (Hafter : after json_dumps (CallSearchIsbn q) (inv w) = inv w).
  { simpl. destruct (search_by_isbn_spec q _ _ Hbs) as (r & -> & _). reflexivity. }
  unfold cli_bind at 1, invoke.
  destruct (List.Exists_dec (fun b => isbn b = VStr q) bs
              (fun b => value_str_dec (isbn b) q)) as [Hex|Hno].
  - destruct (search_found q _ _ Hbs Hex) as (l & b & Hs & Hl & _).
    rewrite Hs. unfold set_inv. rewrite world_eta.
    unfold cli_bind at 1, cli_bind at 1, invoke.
    rewrite (Book_str_spec _ _ _ Hl). unfold set_inv. rewrite world_eta, print_run.
    apply (I_step c w); simpl; [exact Hw|now left|now exists []|].
    eexists. split; [reflexivity|]. repeat constructor.
  - rewrite (search_not_found q _ _ Hbs Hno). unfold set_inv. rewrite world_eta.
    unfold cli_bind at 1. rewrite print_run.
    apply (I_step c w); simpl; [exact Hw|now left|now exists []|].
    eexists. split; [reflexivity|]. repeat constructor.
Qed.

Ltac read_line x := eapply triple_bind; [apply triple_input|intros x].
Ltac go_on := apply triple_ret; intros ? ?; assumption.

(** One turn of the loop that starts in [w0]: it reads input and goes on,
    or it ends the run. *)
Lemma menu_round_spec :
  sequence_all P (inv w0) ->
  match menu_round json_dumps w0 with
  | (Go _, w) => I true w
  | (End e, w) => I false w /\ turn_end P e
  end.
Proof.
  intros Hseq.
  assert (H0 : I false w0).
  { split; [apply evolves_refl|]. split; [exact Hseq|discriminate]. }
  cut (triple (I false) (menu_round json_dumps) (fun _ w => I true w) fin).
  { intros H. exact (H w0 H0). }
  unfold menu_round.
  eapply triple_bind.
  { unfold print_menu. eapply triple_weaken;
      [apply (triple_print_all json_dumps P P_kept w0 false (fun _ => True) menu_text fin)|..].
    - intros w Hw. split; [exact Hw|exact Logic.I].
    - intros a w [Hw _]. exact Hw.
    - intros e w H. exact H. }
  intros u. read_line choice. unfold option_chosen.
  destruct (String.eqb choice "1").
  { read_line t. read_line a. read_line q. eapply triple_bind;
      [apply triple_try with (k := CallAdd t a q); intros st Hst;
       exact (add_book_outcome json_dumps P t a q st Hst)|intros ?; go_on]. }
  destruct (String.eqb choice "2").
  { read_line q. eapply triple_bind;
      [apply triple_try with (k := CallIssue q); intros st Hst;
       exact (issue_book_outcome json_dumps P q st Hst)|intros ?; go_on]. }
  destruct (String.eqb choice "3").
  { read_line q. eapply triple_bind;
      [apply triple_try with (k := CallReturn q); intros st Hst;
       exact (return_book_outcome json_dumps P q st Hst)|intros ?; go_on]. }
  destruct (String.eqb choice "4"); [apply triple_view_all|].
  destruct (String.eqb choice "5").
  { read_line q. apply triple_search_title. }
  destruct (String.eqb choice "6").
  { read_line q. apply triple_search_isbn. }
  destruct (String.eqb choice "7");
    (eapply triple_bind; [apply triple_say|intros ?; go_on]).
Qed.

End TurnProofs.

Lemma evolves_trans json_dumps w1 w2 w3 :
  evolves json_dumps w1 w2 -> evolves json_dumps w2 w3 -> evolves json_dumps w1 w3.
Proof.
  intros ((cs & Hcs) & (u & Hu) & (n & Hn & Hok)) ((cs' & Hcs') & (u' & Hu') & (n' & Hn' & Hok')).
  split; [|split].
  - exists (cs ++ cs'). now rewrite fold_left_app, <- Hcs.
  - exists (u ++ u'). now rewrite Hu, Hu', app_assoc.
  - exists (n ++ n'). split; [now rewrite Hn', Hn, app_assoc|now apply Forall_app].
Qed.

(** The loop of [main]: the world evolves, the books keep [P], and the
    loop ends as a turn does, or by [break]; the fuel only runs out when it
    is not more than the lines of input. *)
Lemma main_loop_spec json_dumps P fuel w :
  kept_by_calls P ->
  sequence_all P (inv w) ->
  evolves json_dumps w (snd (main_loop json_dumps fuel w)) /\
  sequence_all P (inv (snd (main_loop json_dumps fuel w))) /\
  (fst (main_loop json_dumps fuel w) = Returned \/
   turn_end P (fst (main_loop json_dumps fuel w)) \/
   (fst (main_loop json_dumps fuel w) = OutOfFuel /\ fuel <= length (stdin w))).
Proof.
  intros HP. revert w. induction fuel as [|fuel IH]; intros w Hseq.
  - simpl. split; [apply evolves_refl|]. split; [exact Hseq|].
    right. right. split; [reflexivity|lia].
  - simpl. pose proof (menu_round_spec json_dumps P HP w Hseq) as H.
    destruct (menu_round json_dumps w) as [[[|]|e] w1].
    + destruct H as (He & Hs & Hlt). specialize (Hlt eq_refl).
      destruct (IH w1 Hs) as (He' & Hs' & Hend).
      split; [exact (evolves_trans _ _ _ _ He He')|]. split; [exact Hs'|].
      destruct Hend as [Hr|[Ht|[Ho Hf]]]; [now left|right; now left|].
      right. right. split; [exact Ho|lia].
    + destruct H as (He & Hs & _). simpl. split; [exact He|]. split; [exact Hs|now left].
    + destruct H as ((He & Hs & _) & Hend). simpl.
      split; [exact He|]. split; [exact Hs|]. right. now left.
Qed.

Lemma steps_reachable json_dumps json_loads d st st' :
  reachable json_dumps json_loads d st -> steps json_dumps st st' ->
  reachable json_dumps json_loads d st'.
Proof.
  intros Hr (cs & ->). revert st Hr. induction cs as [|c cs IH]; intros st Hr; simpl.
  - exact Hr.
  - apply IH. now constructor.
Qed.

(** [main] from the file of [d]: the run of the loop from the state the
    constructor leaves. *)
Lemma main_run json_dumps json_loads P fuel d keys :
  kept_by_calls P ->
  Forall P (loaded_books json_loads (content d)) ->
  let e := fst (main json_dumps json_loads fuel d keys) in
  let w := snd (main json_dumps json_loads fuel d keys) in
  reachable json_dumps json_loads d (inv w) /\
  Forall ok_output (stdout w) /\
  (e = Returned \/ turn_end P e \/ (e = OutOfFuel /\ fuel <= length keys)).
Proof.
  intros HP Hall e w. subst e w. unfold main.
  destruct (init_spec json_loads d) as (st & Hinit & _ & Hbs).
  rewrite Hinit.
  assert (Hseq : sequence_all P (inv (mkWorld st keys []))).
  { now exists (loaded_books json_loads (content d)). }
  destruct (main_loop_spec json_dumps P fuel _ HP Hseq)
    as ((Hsteps & _ & (n & Hn & Hok)) & _ & Hend).
  split; [|split].
  - apply (steps_reachable _ _ _ st); [|exact Hsteps].
    replace st with (snd (LibraryInventory json_loads d)) by now rewrite Hinit.
    constructor.
  - rewrite Hn. exact Hok.
  - exact Hend.
Qed.

Lemma kept_by_calls_True : kept_by_calls (fun _ => True).
Proof. split; [intros; exact Logic.I|intros b _; split; exact Logic.I]. Qed.


(** X11: whatever is typed, the inventory that [main] works on is in a
    state that the constructor and a sequence of calls of the methods lead
    to: the menu reaches no other state. *)
Theorem main_state_reachable json_dumps json_loads fuel d keys :
  reachable json_dumps json_loads d
    (inv (snd (main json_dumps json_loads fuel d keys))).
Proof.
  destruct (main_run json_dumps json_loads (fun _ => True) fuel d keys
              kept_by_calls_True) as (H & _); [now apply Forall_forall|exact H].
Qed.

(** X12: every line [Error: ...] that the menu prints shows one of the four
    messages of the inventory: duplicate ISBN, book not found, already
    issued, already available. *)
Theorem main_reports_errors json_dumps json_loads fuel d keys e :
  In (PrintedError e) (stdout (snd (main json_dumps json_loads fuel d keys))) ->
  e = DuplicateKeyError \/ e = NotFoundError \/
  e = AlreadyIssued \/ e = AlreadyAvailable.
Proof.
  intros Hin.
  destruct (main_run json_dumps json_loads (fun _ => True) fuel d keys
              kept_by_calls_True) as (_ & Hok & _); [now apply Forall_forall|].
  rewrite List.Forall_forall in Hok. exact (Hok _ Hin).
Qed.

(** *** The options, one by one *)

Lemma safe_input_typed prompt line rest w :
  stdin w = Typed line :: rest ->
  safe_input prompt w =
    (Go (strip line), mkWorld (inv w) rest (stdout w ++ [Prompted prompt])).
Proof. intros H. unfold safe_input. now rewrite H. Qed.

(** The first book of [bs] with the ISBN [q]. *)
Lemma find_first {A} (f : A -> bool) (xs : list A) i x :
  xs !! i = Some x -> f x = true ->
  (forall j y, j < i -> xs !! j = Some y -> f y = false) ->
  find f xs = Some x.
Proof.
  revert i. induction xs as [|a xs IH]; intros i Hi Hx Hbefore; [discriminate|].
  destruct i as [|i]; simpl in *.
  - injection Hi as ->. now rewrite Hx.
  - rewrite (Hbefore 0 a); [|lia|reflexivity].
    apply (IH i); [exact Hi|exact Hx|].
    intros j y Hj Hy. apply (Hbefore (S j) y); [lia|exact Hy].
Qed.

Lemma find_nothing {A} (f : A -> bool) (xs : list A) :
  Forall (fun x => f x = false) xs -> find f xs = None.
Proof. induction 1 as [|x xs Hx _ IH]; simpl; [reflexivity|now rewrite Hx]. Qed.

(** [search_by_isbn] returns the first book whose ISBN is the string [q]. *)
Lemma search_by_isbn_find q st bs :
  books_of st = Some bs ->
  match find (fun b => py_eq_str (isbn b) q) bs with
  | Some b => exists l, search_by_isbn q st = (Ok (Some l), st) /\
                        book_objs st !! l = Some b
  | None => search_by_isbn q st = (Ok None, st)
  end.
Proof.
  intros H. destruct (search_by_isbn_spec q st bs H) as (r & Hr & ls & Hls & Hm).
  apply books_of_Some in H as (ls' & Hls' & Hbs).
  rewrite Hls in Hls'. injection Hls' as <-.
  destruct r as [l|].
  - destruct (first_match_index q _ ls bs l Hbs Hm) as (i & b & _ & Hi & Hl & Hb & Hbefore).
    rewrite (find_first _ bs i b Hi).
    + now exists l.
    + now apply py_eq_str_true.
    + intros j y Hj Hy. apply py_eq_str_false. exact (Hbefore j y Hj Hy).
  - rewrite find_nothing; [exact Hr|].
    apply (first_match_None_iff q _ ls bs Hbs) in Hm.
    eapply Forall_impl; [exact Hm|]. intros b Hb. now apply py_eq_str_false.
Qed.

Section Options.

Variable json_dumps : value -> string.

(** The start of a turn: the menu, the prompt, the line read. *)
Lemma menu_round_start line rest w :
  stdin w = Typed line :: rest ->
  menu_round json_dumps w =
    option_chosen json_dumps (strip line)
      (mkWorld (inv w) rest (stdout w ++ menu_output)).
Proof.
  intros H. unfold menu_round, cli_bind, print_menu. rewrite print_all_run.
  erewrite safe_input_typed by exact H. unfold menu_output. simpl inv. simpl stdout.
  now rewrite <- app_assoc.
Qed.

Lemma safe_input_next prompt line rest st out :
  safe_input prompt (mkWorld st (Typed line :: rest) out) =
    (Go (strip line), mkWorld st rest (out ++ [Prompted prompt])).
Proof. reflexivity. Qed.

(** X13: option 4 of the menu prints one line for each book of the
    inventory, in the order of the inventory, or [No books in catalog.] when
    there is none; the loop goes on, and the books and the file are as
    before. *)
Theorem menu_view_all line rest w bs :
  stdin w = Typed line :: rest ->
  strip line = "4" ->
  books_of (inv w) = Some bs ->
  exists st',
    menu_round json_dumps w =
      (Go true,
       mkWorld st' rest
         (stdout w ++ menu_output ++
          match bs with
          | [] => [Printed "No books in catalog."]
          | _ => Printed <$> (book_line <$> bs)
          end)) /\
    books_of st' = Some bs /\
    book_objs st' = book_objs (inv w) /\
    the_disk st' = the_disk (inv w).
Proof.
  intros Hin Hline Hbs.
  destruct (display_all_run _ _ Hbs) as (ls & Hls & _ & Hrun).
  exists (set_list_objs (list_objs (inv w) ++ [ls]) (inv w)).
  split; [|split; [now apply alloc_list_books_of|split; reflexivity]].
  rewrite (menu_round_start line rest w Hin), Hline.
  change (option_chosen json_dumps "4") with
    (books <~ invoke (r <- display_all ;; load_list r) ;;
     print_if_empty books "No books in catalog." ;;~
     print_books books ;;~
     cli_ret true).
  unfold cli_bind at 1, invoke. simpl inv. rewrite Hrun.
  unfold cli_bind at 1. rewrite print_if_empty_run.
  unfold cli_bind at 1. rewrite (print_books_run ls bs); [|exact Hls].
  simpl. unfold cli_ret. f_equal. f_equal.
  rewrite <- !app_assoc. f_equal. f_equal.
  destruct Hls; reflexivity.
Qed.

(** X14: option 6 of the menu reads an ISBN, stripped of surrounding
    whitespace, and prints the line of the first book of the inventory with
    that ISBN, or [Not found.]; the inventory is in the same state after
    it. *)
Theorem menu_search_isbn line typed rest w bs :
  stdin w = Typed line :: Typed typed :: rest ->
  strip line = "6" ->
  books_of (inv w) = Some bs ->
  menu_round json_dumps w =
    (Go true,
     mkWorld (inv w) rest
       (stdout w ++ menu_output ++
        [Prompted "Enter ISBN: ";
         Printed match find (fun b => py_eq_str (isbn b) (strip typed)) bs with
                 | Some b => book_line b
                 | None => "Not found."
                 end])).
Proof.
  intros Hin Hline Hbs.
  rewrite (menu_round_start line _ w Hin), Hline.
  change (option_chosen json_dumps "6") with
    (isbn <~ safe_input "Enter ISBN: " ;;
     b <~ invoke (search_by_isbn isbn) ;;
     match b with
     | None => print "Not found."
     | Some l => s <~ invoke (Book_str l) ;; print s
     end ;;~
     cli_ret true).
  unfold cli_bind at 1. rewrite safe_input_next.
  unfold cli_bind at 1, invoke. simpl inv.
  pose proof (search_by_isbn_find (strip typed) _ _ Hbs) as Hfind.
  destruct (find (fun b => py_eq_str (isbn b) (strip typed)) bs) as [b|].
  - destruct Hfind as (l & -> & Hl). unfold set_inv. simpl.
    unfold cli_bind at 1, cli_bind at 1, invoke. simpl inv.
    rewrite (Book_str_spec _ _ _ Hl). unfold set_inv. simpl.
    unfold cli_ret, write. simpl. now rewrite <- !app_assoc.
  - rewrite Hfind. unfold set_inv. simpl. unfold cli_bind at 1. simpl.
    unfold cli_ret, write. simpl. now rewrite <- !app_assoc.
Qed.


(** X16: option 1 of the menu reads a title, an author and an ISBN, each
    stripped of surrounding whitespace.  When a book of the inventory has
    that ISBN it prints the error of the duplicate and the inventory stays
    in its state; otherwise it prints [Book added successfully.], the
    inventory has one more book, available, at its end, and the file was
    written.  The loop goes on in both cases. *)
Theorem menu_add_book line t a q rest w bs :
  stdin w = Typed line :: Typed t :: Typed a :: Typed q :: rest ->
  strip line = "1" ->
  books_of (inv w) = Some bs ->
  let prompts := [Prompted "Title: "; Prompted "Author: "; Prompted "ISBN: "] in
  let new := mkBook (VStr (strip t)) (VStr (strip a)) (VStr (strip q)) (VStr "available") in
  (Exists (has_isbn (strip q)) bs ->
   menu_round json_dumps w =
     (Go true,
      mkWorld (inv w) rest
        (stdout w ++ menu_output ++ prompts ++ [PrintedError DuplicateKeyError]))) /\
  (~ Exists (has_isbn (strip q)) bs ->
   exists st',
     menu_round json_dumps w =
       (Go true,
        mkWorld st' rest
          (stdout w ++ menu_output ++ prompts ++ [Printed "Book added successfully."])) /\
     books_of st' = Some (bs ++ [new]) /\
     the_disk st' =
       disk_after_save (json_dumps (snapshot (bs ++ [new]))) (the_disk (inv w))).
Proof.
  intros Hin Hline Hbs prompts new.
  assert (Hstart : menu_round json_dumps w =
            (attempt (add_book json_dumps (strip t) (strip a) (strip q))
               "Book added successfully." ;;~ cli_ret true)
              (mkWorld (inv w) rest (stdout w ++ menu_output ++ prompts))).
  { rewrite (menu_round_start line _ w Hin), Hline.
    change (option_chosen json_dumps "1") with
      (title <~ safe_input "Title: " ;;
       author <~ safe_input "Author: " ;;
       isbn <~ safe_input "ISBN: " ;;
       attempt (add_book json_dumps title author isbn) "Book added successfully." ;;~
       cli_ret true).
    unfold cli_bind at 1. rewrite safe_input_next.
    unfold cli_bind at 1. rewrite safe_input_next.
    unfold cli_bind at 1. rewrite safe_input_next.
    subst prompts. now rewrite <- !app_assoc. }
  rewrite Hstart. unfold cli_bind, attempt. simpl inv. split.
  - intros Hex. rewrite (add_book_duplicate json_dumps _ _ _ _ bs Hbs Hex).
    unfold cli_ret, write, set_inv. simpl. now rewrite <- !app_assoc.
  - intros Hno.
    destruct (add_book_fresh json_dumps (strip t) (strip a) (strip q) _ bs Hbs Hno)
      as (l & st' & Hadd & Hbs' & _ & _ & _ & _ & Hdisk).
    exists st'. rewrite Hadd. split; [|split; [exact Hbs'|exact Hdisk]].
    unfold print, cli_ret, write, set_inv. simpl. now rewrite <- !app_assoc.
Qed.

Lemma find_Exists q bs :
  match find (fun b => py_eq_str (isbn b) q) bs with
  | Some _ => Exists (fun b => isbn b = VStr q) bs
  | None => ~ Exists (fun b => isbn b = VStr q) bs
  end.
Proof.
  destruct (find (fun b => py_eq_str (isbn b) q) bs) as [b|] eqn:E.
  - apply find_some in E as [Hin Hb]. apply List.Exists_exists. exists b.
    split; [exact Hin|now apply py_eq_str_true].
  - intros Hex. apply List.Exists_exists in Hex as (b & Hin & Hb).
    apply (find_none _ _ E) in Hin. simpl in Hin.
    apply py_eq_str_true in Hb. congruence.
Qed.

(** The book that [issue_book] and [return_book] work on is the first one
    with the ISBN. *)
Lemma calls_found_first q st bs b :
  books_of st = Some bs ->
  find (fun b => py_eq_str (isbn b) q) bs = Some b ->
  (status b = VStr "issued" ->
     issue_book json_dumps q st = (Raise AlreadyIssued, st)) /\
  (status b <> VStr "issued" ->
     exists st' bs',
       issue_book json_dumps q st = (Ok tt, st') /\ books_of st' = Some bs' /\
       Forall2 (fun old new => new = old \/ new = set_status (VStr "issued") b) bs bs' /\
       the_disk st' = disk_after_save (json_dumps (snapshot bs')) (the_disk st)) /\
  (status b = VStr "available" ->
     return_book_by_isbn json_dumps q st = (Raise AlreadyAvailable, st)) /\
  (status b <> VStr "available" ->
     exists st' bs',
       return_book_by_isbn json_dumps q st = (Ok tt, st') /\ books_of st' = Some bs' /\
       Forall2 (fun old new => new = old \/ new = set_status (VStr "available") b) bs bs' /\
       the_disk st' = disk_after_save (json_dumps (snapshot bs')) (the_disk st)).
Proof.
  intros Hbs Hfind.
  pose proof (search_by_isbn_find q st bs Hbs) as Hs.
  pose proof (find_Exists q bs) as Hex. rewrite Hfind in Hs, Hex.
  destruct Hs as (l & Hs & Hl).
  destruct (calls_found json_dumps q st bs Hbs Hex)
    as (l0 & b0 & Hs0 & Hl0 & _ & _ & _ & _ & H1 & H2 & H3 & H4).
  rewrite Hs in Hs0. injection Hs0 as <-.
  rewrite Hl in Hl0. injection Hl0 as <-.
  split; [exact H1|]. split; [|split; [exact H3|]].
  - intros Hn. destruct (H2 Hn) as (st1 & bs1 & _ & Hbs1 & Hf & Hcall).
    eexists _, bs1. split; [exact Hcall|]. split; [exact Hbs1|]. split; [exact Hf|].
    reflexivity.
  - intros Hn. destruct (H4 Hn) as (st1 & bs1 & _ & Hbs1 & Hf & Hcall).
    eexists _, bs1. split; [exact Hcall|]. split; [exact Hbs1|]. split; [exact Hf|].
    reflexivity.
Qed.

(** X17: option 2 of the menu reads an ISBN, stripped of surrounding
    whitespace.  When no book has it, or the first book with it is issued,
    the error is printed and the inventory stays in its state; otherwise
    [Book issued.] is printed, every book is as before or is that book
    with the status issued, and the file was written.  The loop goes on in
    every case. *)
Theorem menu_issue_book line typed rest w bs :
  stdin w = Typed line :: Typed typed :: rest ->
  strip line = "2" ->
  books_of (inv w) = Some bs ->
  let out := stdout w ++ menu_output ++ [Prompted "ISBN to issue: "] in
  match find (fun b => py_eq_str (isbn b) (strip typed)) bs with
  | None =>
      menu_round json_dumps w =
        (Go true, mkWorld (inv w) rest (out ++ [PrintedError NotFoundError]))
  | Some b =>
      if py_eq_str (status b) "issued" then
        menu_round json_dumps w =
          (Go true, mkWorld (inv w) rest (out ++ [PrintedError AlreadyIssued]))
      else
        exists st' bs',
          menu_round json_dumps w =
            (Go true, mkWorld st' rest (out ++ [Printed "Book issued."])) /\
          books_of st' = Some bs' /\
          Forall2 (fun old new => new = old \/ new = set_status (VStr "issued") b) bs bs' /\
          the_disk st' = disk_after_save (json_dumps (snapshot bs')) (the_disk (inv w))
  end.
Proof.
  intros Hin Hline Hbs out.
  assert (Hstart : menu_round json_dumps w =
            (attempt (issue_book json_dumps (strip typed)) "Book issued." ;;~ cli_ret true)
              (mkWorld (inv w) rest out)).
  { rewrite (menu_round_start line _ w Hin), Hline.
    change (option_chosen json_dumps "2") with
      (isbn <~ safe_input "ISBN to issue: " ;;
       attempt (issue_book json_dumps isbn) "Book issued." ;;~
       cli_ret true).
    unfold cli_bind at 1. rewrite safe_input_next.
    subst out. now rewrite <- !app_assoc. }
  rewrite Hstart. unfold cli_bind, attempt. simpl inv.
  pose proof (find_Exists (strip typed) bs) as Hex.
  destruct (find (fun b => py_eq_str (isbn b) (strip typed)) bs) as [b|] eqn:Hfind.
  - destruct (calls_found_first _ _ _ _ Hbs Hfind) as (H1 & H2 & _).
    destruct (py_eq_str (status b) "issued") eqn:Es.
    + apply py_eq_str_true in Es. now rewrite (H1 Es).
    + apply py_eq_str_false in Es.
      destruct (H2 Es) as (st' & bs' & Hcall & Hbs' & Hf & Hdisk).
      exists st', bs'. now rewrite Hcall.
  - now rewrite (proj1 (calls_not_found json_dumps _ _ _ Hbs Hex)).
Qed.

(** X18: option 3 of the menu reads an ISBN, stripped of surrounding
    whitespace.  When no book has it, or the first book with it is
    available, the error is printed and the inventory stays in its state;
    otherwise [Book returned.] is printed, every book is as before or is
    that book with the status available, and the file was written.  The
    loop goes on in every case. *)
Theorem menu_return_book line typed rest w bs :
  stdin w = Typed line :: Typed typed :: rest ->
  strip line = "3" ->
  books_of (inv w) = Some bs ->
  let out := stdout w ++ menu_output ++ [Prompted "ISBN to return: "] in
  match find (fun b => py_eq_str (isbn b) (strip typed)) bs with
  | None =>
      menu_round json_dumps w =
        (Go true, mkWorld (inv w) rest (out ++ [PrintedError NotFoundError]))
  | Some b =>
      if py_eq_str (status b) "available" then
        menu_round json_dumps w =
          (Go true, mkWorld (inv w) rest (out ++ [PrintedError AlreadyAvailable]))
      else
        exists st' bs',
          menu_round json_dumps w =
            (Go true, mkWorld st' rest (out ++ [Printed "Book returned."])) /\
          books_of st' = Some bs' /\
          Forall2 (fun old new => new = old \/ new = set_status (VStr "available") b) bs bs' /\
          the_disk st' = disk_after_save (json_dumps (snapshot bs')) (the_disk (inv w))
  end.
Proof.
  intros Hin Hline Hbs out.
  assert (Hstart : menu_round json_dumps w =
            (attempt (return_book_by_isbn json_dumps (strip typed)) "Book returned." ;;~
             cli_ret true)
              (mkWorld (inv w) rest out)).
  { rewrite (menu_round_start line _ w Hin), Hline.
    change (option_chosen json_dumps "3") with
      (isbn <~ safe_input "ISBN to return: " ;;
       attempt (return_book_by_isbn json_dumps isbn) "Book returned." ;;~
       cli_ret true).
    unfold cli_bind at 1. rewrite safe_input_next.
    subst out. now rewrite <- !app_assoc. }
  rewrite Hstart. unfold cli_bind, attempt. simpl inv.
  pose proof (find_Exists (strip typed) bs) as Hex.
  destruct (find (fun b => py_eq_str (isbn b) (strip typed)) bs) as [b|] eqn:Hfind.
  - destruct (calls_found_first _ _ _ _ Hbs Hfind) as (_ & _ & H1 & H2).
    destruct (py_eq_str (status b) "available") eqn:Es.
    + apply py_eq_str_true in Es. now rewrite (H1 Es).
    + apply py_eq_str_false in Es.
      destruct (H2 Es) as (st' & bs' & Hcall & Hbs' & Hf & Hdisk).
      exists st', bs'. now rewrite Hcall.
  - now rewrite (proj2 (calls_not_found json_dumps _ _ _ Hbs Hex)).
Qed.

End Options.

(** ** What the calls never do *)

Lemma same_identity_refl bs : Forall2 same_identity bs bs.
Proof. induction bs; constructor; [now repeat split|assumption]. Qed.

Lemma same_identity_trans bs1 bs2 bs3 :
  Forall2 same_identity bs1 bs2 -> Forall2 same_identity bs2 bs3 ->
  Forall2 same_identity bs1 bs3.
Proof.
  intros H. revert bs3. induction H as [|a b bs1 bs2 (H1 & H2 & H3) _ IH]; intros bs3 H'.
  - apply Forall2_nil_inv_l in H' as ->. constructor.
  - apply Forall2_cons_inv_l in H' as (c & bs3' & (H4 & H5 & H6) & H' & ->).
    constructor; [|now apply IH]. repeat split; congruence.
Qed.

(** One call keeps the books, in their order, with their title, author and
    ISBN, and adds at most one at the end. *)
Lemma after_identity json_dumps c st bs :
  books_of st = Some bs ->
  exists kept added,
    books_of (after json_dumps c st) = Some (kept ++ added) /\
    Forall2 same_identity bs kept.
Proof.
  intros H.
  destruct (after_effect json_dumps c st bs H)
    as [[H' _]|(bs' & H' & _ & [(t & a & q & _ & ->)|(b & v & Hf)])].
  - exists bs, []. rewrite app_nil_r. split; [exact H'|apply same_identity_refl].
  - exists bs, [mkBook (VStr t) (VStr a) (VStr q) (VStr "available")].
    split; [exact H'|apply same_identity_refl].
  - exists bs', []. rewrite app_nil_r. split; [exact H'|].
    eapply Forall2_impl; [exact Hf|]. intros old new [->|[-> ->]]; now repeat split.
Qed.

(** X19: no call of the inventory removes a book, moves one or changes a
    title, an author or an ISBN: after any sequence of calls the books that
    were there come first, in their order and with these three attributes
    as they were; what follows them was added. *)
Theorem calls_keep_identity (json_dumps : value -> string) (cs : list call)
    (st : state) (bs : list Book) :
  books_of st = Some bs ->
  exists kept added,
    books_of (fold_left (fun s c => after json_dumps c s) cs st) = Some (kept ++ added) /\
    Forall2 same_identity bs kept.
Proof.
  revert st bs. induction cs as [|c cs IH]; intros st bs H; simpl.
  - exists bs, []. rewrite app_nil_r. split; [exact H|apply same_identity_refl].
  - destruct (after_identity json_dumps c st bs H) as (kept & added & H1 & Hk).
    destruct (IH _ _ H1) as (kept' & added' & H2 & Hk').
    apply Forall2_app_inv_l in Hk' as (k1 & k2 & Hk1 & Hk2 & ->).
    exists k1, (k2 ++ added'). rewrite app_assoc. split; [exact H2|].
    exact (same_identity_trans _ _ _ Hk Hk1).
Qed.

(** ** A book added is found by its title *)



(** ** The scenarios, run *)

Lemma dune_store_books : books_of dune_store = Some [dune; dune2].
Proof. reflexivity. Qed.

Lemma empty_store_books : books_of empty_store = Some [].
Proof. reflexivity. Qed.

Lemma reachable_calls json_dumps json_loads d cs : forall st,
  reachable json_dumps json_loads d st ->
  reachable json_dumps json_loads d (fold_left (fun st c => after json_dumps c st) cs st).
Proof.
  induction cs as [|c cs IH]; intros st H; simpl; [assumption|].
  apply IH. now constructor.
Defined.

Lemma dune_store_reachable :
  reachable RefJson.dumps RefJson.loads no_file dune_store.
Proof. apply reachable_calls. apply reachable_init. Defined.

(** A text that is no JSON, and a record without a status. *)
Example load_invalid_json :
  books_of (snd (LibraryInventory RefJson.loads (mkDisk (Text "{oops") true 0))) = Some [].
Proof. reflexivity. Qed.

Example load_default_status :
  let text := RefJson.dumps (VList [VDict [("title", VStr "Ubik");
                                           ("author", VStr "Dick"); ("isbn", VStr "7")]]) in
  books_of (snd (LibraryInventory RefJson.loads (mkDisk (Text text) true 0)))
    = Some [mkBook (VStr "Ubik") (VStr "Dick") (VStr "7") (VStr "available")].
Proof. reflexivity. Qed.

(** A book whose title contains the isbn asked for is not found by it. *)
Example title_is_not_isbn :
  let st := after RefJson.dumps (CallAdd "Catch 111" "Heller" "22") dune_store in
  search_by_isbn "22" st = (Ok (Some 2), st) /\
  search_by_isbn "11" st = (Ok None, st) /\
  fst (search_by_isbn "111" st) = Ok (Some 0).
Proof. vm_compute. auto. Qed.

Lemma add_book_spec_witness :
  books_of dune_store = Some [dune; dune2] /\
  add_book RefJson.dumps "Dune" "F. Herbert" "111" dune_store
    = (Raise DuplicateKeyError, dune_store).
Proof.
  split; [reflexivity|].
  apply (add_book_spec RefJson.dumps "Dune" "F. Herbert" "111" dune_store [dune; dune2]).
  - reflexivity.
  - constructor. reflexivity.
Defined.

Lemma issue_return_state_machine_witness :
  book_objs dune_store !! 1 = Some dune2 /\
  exists st1 st2 st3,
    issue 1 dune_store = (Ok tt, st1) /\ return_book 1 st1 = (Ok tt, st2) /\
    issue 1 st2 = (Ok tt, st3).
Proof.
  split; [reflexivity|].
  apply (issue_return_state_machine dune_store 1 dune2).
  - reflexivity.
  - simpl. discriminate.
Defined.

Lemma issue_book_spec_witness :
  books_of empty_store = Some [] /\
  issue_book RefJson.dumps "999" empty_store = (Raise NotFoundError, empty_store).
Proof.
  split; [reflexivity|].
  exact (proj1 (issue_book_spec RefJson.dumps "999" empty_store [] eq_refl) eq_refl).
Defined.

Lemma save_load_round_trip_witness :
  books_of dune_store = Some [dune; dune2] /\
  writable (the_disk dune_store) = true /\
  reads_back RefJson.dumps RefJson.loads (snapshot [dune; dune2]) /\
  exists st1 st2 st3,
    _save RefJson.dumps dune_store = (Ok tt, st1) /\
    content (the_disk st1) = Text (RefJson.dumps (snapshot [dune; dune2])) /\
    LibraryInventory RefJson.loads (the_disk st1) = (Ok tt, st2) /\
    books_of st2 = Some [dune; dune2] /\
    _load RefJson.loads st1 = (Ok tt, st3) /\
    books_of st3 = Some [dune; dune2].
Proof.
  assert (Hrb : reads_back RefJson.dumps RefJson.loads (snapshot [dune; dune2])).
  { split; [vm_compute; discriminate|vm_compute; reflexivity]. }
  split; [reflexivity|]. split; [reflexivity|]. split; [exact Hrb|].
  apply (save_load_round_trip RefJson.dumps RefJson.loads dune_store [dune; dune2]).
  - reflexivity.
  - reflexivity.
  - exact Hrb.
Defined.


Lemma search_by_isbn_first_exact_witness :
  books_of dune_store = Some [dune; dune2] /\
  exists r, search_by_isbn "112" dune_store = (Ok r, dune_store) /\
    match r with
    | None => Forall (fun b => isbn b <> VStr "112") [dune; dune2]
    | Some l =>
        exists i b,
          (list_objs dune_store !! self_books dune_store) ≫= (.!! i) = Some l /\
          [dune; dune2] !! i = Some b /\ book_objs dune_store !! l = Some b /\
          isbn b = VStr "112" /\
          forall j b', j < i -> [dune; dune2] !! j = Some b' -> isbn b' <> VStr "112"
    end.
Proof.
  split; [reflexivity|].
  apply (search_by_isbn_first_exact "112" dune_store [dune; dune2]).
  reflexivity.
Defined.


Lemma failed_issue_return_atomic_witness :
  (issue_book RefJson.dumps "111" dune_store = (Raise AlreadyIssued, dune_store) \/
   return_book_by_isbn RefJson.dumps "111" dune_store = (Raise AlreadyIssued, dune_store)) /\
  dune_store = dune_store /\
  (AlreadyIssued = NotFoundError \/ InvalidStateError AlreadyIssued) /\
  books_of dune_store = books_of dune_store /\
  book_objs dune_store = book_objs dune_store /\
  the_disk dune_store = the_disk dune_store /\
  saves (the_disk dune_store) = saves (the_disk dune_store).
Proof.
  assert (H : issue_book RefJson.dumps "111" dune_store = (Raise AlreadyIssued, dune_store) \/
              return_book_by_isbn RefJson.dumps "111" dune_store
                = (Raise AlreadyIssued, dune_store)).
  { left. vm_compute. reflexivity. }
  split; [exact H|].
  exact (failed_issue_return_atomic RefJson.dumps "111" dune_store dune_store
           AlreadyIssued H).
Defined.

Lemma read_operations_frame_witness :
  books_of dune_store = Some [dune; dune2] /\
  exists r st',
    display_all dune_store = (Ok r, st') /\
    r <> self_books st' /\ books_at st' r = Some [dune; dune2] /\
    forall xs, exists st'',
      store_list r xs st' = (Ok tt, st'') /\ books_of st'' = Some [dune; dune2].
Proof.
  split; [reflexivity|].
  destruct (read_operations_frame "111" dune_store [dune; dune2] eq_refl)
    as (_ & _ & r & st' & H1 & _ & _ & _ & _ & H2 & H3 & H4).
  exists r, st'. split; [exact H1|]. split; [exact H2|]. split; [exact H3|].
  intros xs. destruct (H4 xs) as (st'' & H5 & H6 & _). eauto.
Defined.

(** ** More scenarios, run *)

Lemma is_available_spec_witness :
  book_objs dune_store !! 1 = Some dune2 /\
  exists yes,
    is_available 1 dune_store = (Ok yes, dune_store) /\
    (yes = true <-> status dune2 = VStr "available") /\
    (status_ok dune2 ->
       (yes = true <-> exists st', issue 1 dune_store = (Ok tt, st')) /\
       (yes = false <-> exists st', return_book 1 dune_store = (Ok tt, st'))) /\
    (forall st', issue 1 dune_store = (Ok tt, st') -> is_available 1 st' = (Ok false, st')) /\
    (forall st', return_book 1 dune_store = (Ok tt, st') ->
       is_available 1 st' = (Ok true, st')).
Proof.
  split; [reflexivity|].
  apply (is_available_spec dune_store 1 dune2). reflexivity.
Defined.

Lemma to_dict_then_Book_witness :
  book_objs dune_store !! 0 = Some dune /\
  exists l' st',
    (d <- to_dict 0 ;; Book_from d) dune_store = (Ok l', st') /\
    l' <> 0 /\ book_objs st' !! l' = Some dune /\ book_objs st' !! 0 = Some dune /\
    book_objs st' = book_objs dune_store ++ [dune] /\
    list_objs st' = list_objs dune_store /\ the_disk st' = the_disk dune_store.
Proof.
  split; [reflexivity|].
  apply (to_dict_then_Book dune_store 0 dune). reflexivity.
Defined.

Lemma add_then_search_witness :
  books_of dune_store = Some [dune; dune2] /\
  add_book RefJson.dumps "Ubik" "Dick" "7" dune_store = (Ok 2, ubik_store) /\
  search_by_isbn "7" ubik_store = (Ok (Some 2), ubik_store) /\
  book_objs ubik_store !! 2 = Some ubik /\
  add_book RefJson.dumps "Ubik, again" "P. K. Dick" "7" ubik_store
    = (Raise DuplicateKeyError, ubik_store).
Proof.
  split; [reflexivity|]. split; [reflexivity|].
  apply (add_then_search RefJson.dumps "Ubik" "Dick" "7" "Ubik, again" "P. K. Dick"
           dune_store ubik_store [dune; dune2] 2).
  - reflexivity.
  - reflexivity.
Defined.

Lemma issue_then_return_witness :
  books_of dune_store = Some [dune; dune2] /\
  search_by_isbn "112" dune_store = (Ok (Some 1), dune_store) /\
  book_objs dune_store !! 1 = Some dune2 /\
  status dune2 = VStr "available" /\
  exists st1 st2,
    issue_book RefJson.dumps "112" dune_store = (Ok tt, st1) /\
    return_book_by_isbn RefJson.dumps "112" st1 = (Ok tt, st2) /\
    book_objs st2 = book_objs dune_store /\ list_objs st2 = list_objs dune_store /\
    self_books st2 = self_books dune_store /\ books_of st2 = Some [dune; dune2] /\
    saves (the_disk st2) = S (S (saves (the_disk dune_store))).
Proof.
  split; [reflexivity|]. split; [reflexivity|]. split; [reflexivity|].
  split; [reflexivity|].
  apply (issue_then_return RefJson.dumps "112" dune_store [dune; dune2] 1 dune2);
    reflexivity.
Defined.

Lemma status_call_twice_witness :
  let st1 := after RefJson.dumps (CallIssue "112") dune_store in
  books_of dune_store = Some [dune; dune2] /\
  issue_book RefJson.dumps "112" dune_store = (Ok tt, st1) /\
  issue_book RefJson.dumps "112" st1 = (Raise AlreadyIssued, st1) /\
  exists st2, return_book_by_isbn RefJson.dumps "112" st1 = (Ok tt, st2).
Proof.
  intros st1.
  assert (H : issue_book RefJson.dumps "112" dune_store = (Ok tt, st1)) by reflexivity.
  split; [reflexivity|]. split; [exact H|].
  exact (proj1 (status_call_twice RefJson.dumps "112" dune_store st1 [dune; dune2]
                  eq_refl) H).
Defined.

Lemma restart_keeps_books_witness :
  writable no_file = true /\
  reachable RefJson.dumps RefJson.loads no_file dune_store /\
  exists bs,
    books_of dune_store = Some bs /\
    (reads_back RefJson.dumps RefJson.loads (snapshot bs) ->
     exists st2,
       LibraryInventory RefJson.loads (the_disk dune_store) = (Ok tt, st2) /\
       books_of st2 = Some bs).
Proof.
  split; [reflexivity|]. split; [exact dune_store_reachable|].
  apply (restart_keeps_books RefJson.dumps RefJson.loads no_file dune_store).
  - reflexivity.
  - exact dune_store_reachable.
Defined.

Lemma isbn_stays_unique_witness :
  NoDup (isbn <$> loaded_books RefJson.loads (content no_file)) /\
  reachable RefJson.dumps RefJson.loads no_file dune_store /\
  exists bs,
    books_of dune_store = Some bs /\ NoDup (isbn <$> bs) /\
    forall i j b b',
      bs !! i = Some b -> bs !! j = Some b' -> isbn b = isbn b' -> i = j.
Proof.
  assert (H : NoDup (isbn <$> loaded_books RefJson.loads (content no_file))).
  { simpl. constructor. }
  split; [exact H|]. split; [exact dune_store_reachable|].
  apply (isbn_stays_unique RefJson.dumps RefJson.loads no_file dune_store).
  - exact H.
  - exact dune_store_reachable.
Defined.


Lemma main_reports_errors_witness :
  let keys := [Typed "3"; Typed "111"] in
  In (PrintedError NotFoundError)
     (stdout (snd (main RefJson.dumps RefJson.loads 5 no_file keys))) /\
  (NotFoundError = DuplicateKeyError \/ NotFoundError = NotFoundError \/
   NotFoundError = AlreadyIssued \/ NotFoundError = AlreadyAvailable).
Proof.
  intros keys.
  assert (H : In (PrintedError NotFoundError)
                 (stdout (snd (main RefJson.dumps RefJson.loads 5 no_file keys)))).
  { vm_compute. do 10 right. left. reflexivity. }
  split; [exact H|].
  exact (main_reports_errors RefJson.dumps RefJson.loads 5 no_file keys NotFoundError H).
Defined.

Lemma menu_view_all_witness :
  let w := at_menu dune_store ["4"] in
  stdin w = [Typed "4"] /\ strip "4" = "4" /\
  books_of (inv w) = Some [dune; dune2] /\
  exists st',
    menu_round RefJson.dumps w =
      (Go true,
       mkWorld st' []
         (stdout w ++ menu_output ++ (Printed <$> (book_line <$> [dune; dune2])))) /\
    books_of st' = Some [dune; dune2] /\
    book_objs st' = book_objs (inv w) /\
    the_disk st' = the_disk (inv w).
Proof.
  intros w. split; [reflexivity|]. split; [reflexivity|]. split; [reflexivity|].
  apply (menu_view_all RefJson.dumps "4" [] w [dune; dune2]); reflexivity.
Defined.

Lemma menu_search_isbn_witness :
  let w := at_menu dune_store ["6"; " 112 "] in
  stdin w = [Typed "6"; Typed " 112 "] /\ strip "6" = "6" /\
  books_of (inv w) = Some [dune; dune2] /\
  menu_round RefJson.dumps w =
    (Go true,
     mkWorld (inv w) []
       (stdout w ++ menu_output ++
        [Prompted "Enter ISBN: "; Printed "Dune 2 by Herbert (ISBN: 112) - available"])).
Proof.
  intros w. split; [reflexivity|]. split; [reflexivity|]. split; [reflexivity|].
  apply (menu_search_isbn RefJson.dumps "6" " 112 " [] w [dune; dune2]); reflexivity.
Defined.


Lemma menu_add_book_witness :
  let w := at_menu dune_store ["1"; " Ubik"; "Dick "; "7"] in
  stdin w = [Typed "1"; Typed " Ubik"; Typed "Dick "; Typed "7"] /\
  strip "1" = "1" /\
  books_of (inv w) = Some [dune; dune2] /\
  ~ Exists (has_isbn "7") [dune; dune2] /\
  exists st',
    menu_round RefJson.dumps w =
      (Go true,
       mkWorld st' []
         (stdout w ++ menu_output ++
          [Prompted "Title: "; Prompted "Author: "; Prompted "ISBN: "] ++
          [Printed "Book added successfully."])) /\
    books_of st' = Some ([dune; dune2] ++ [ubik]) /\
    the_disk st' =
      disk_after_save (RefJson.dumps (snapshot ([dune; dune2] ++ [ubik])))
        (the_disk (inv w)).
Proof.
  intros w.
  assert (Hno : ~ Exists (has_isbn "7") [dune; dune2]).
  { intros H. apply Exists_cons in H as [H|H]; [discriminate|].
    apply Exists_cons in H as [H|H]; [discriminate|]. now apply Exists_nil in H. }
  split; [reflexivity|]. split; [reflexivity|]. split; [reflexivity|].
  split; [exact Hno|].
  exact (proj2 (menu_add_book RefJson.dumps "1" " Ubik" "Dick " "7" [] w [dune; dune2]
                  eq_refl eq_refl eq_refl) Hno).
Defined.

Lemma menu_issue_book_witness :
  let w := at_menu dune_store ["2"; "112"] in
  stdin w = [Typed "2"; Typed "112"] /\ strip "2" = "2" /\
  books_of (inv w) = Some [dune; dune2] /\
  exists st' bs',
    menu_round RefJson.dumps w =
      (Go true,
       mkWorld st' []
         ((stdout w ++ menu_output ++ [Prompted "ISBN to issue: "]) ++
          [Printed "Book issued."])) /\
    books_of st' = Some bs' /\
    Forall2 (fun old new => new = old \/ new = set_status (VStr "issued") dune2)
            [dune; dune2] bs' /\
    the_disk st' = disk_after_save (RefJson.dumps (snapshot bs')) (the_disk (inv w)).
Proof.
  intros w. split; [reflexivity|]. split; [reflexivity|]. split; [reflexivity|].
  exact (menu_issue_book RefJson.dumps "2" "112" [] w [dune; dune2]
           eq_refl eq_refl eq_refl).
Defined.

Lemma menu_return_book_witness :
  let w := at_menu dune_store ["3"; "112"] in
  stdin w = [Typed "3"; Typed "112"] /\ strip "3" = "3" /\
  books_of (inv w) = Some [dune; dune2] /\
  menu_round RefJson.dumps w =
    (Go true,
     mkWorld (inv w) []
       ((stdout w ++ menu_output ++ [Prompted "ISBN to return: "]) ++
        [PrintedError AlreadyAvailable])).
Proof.
  intros w. split; [reflexivity|]. split; [reflexivity|]. split; [reflexivity|].
  exact (menu_return_book RefJson.dumps "3" "112" [] w [dune; dune2]
           eq_refl eq_refl eq_refl).
Defined.

Lemma calls_keep_identity_witness :
  let cs := [CallIssue "112"; CallAdd "Ubik" "Dick" "7"; CallReturn "111"] in
  books_of dune_store = Some [dune; dune2] /\
  exists kept added,
    books_of (fold_left (fun s c => after RefJson.dumps c s) cs dune_store)
      = Some (kept ++ added) /\
    Forall2 same_identity [dune; dune2] kept.
Proof.
  intros cs. split; [reflexivity|].
  apply (calls_keep_identity RefJson.dumps cs dune_store [dune; dune2]). reflexivity.
Defined.

